(** * ProCaption: the text-rendering core of [CompositionService]

    A shallow embedding of [src/services/composition.py]: colour parsing
    ([_hex_to_rgba]), font resolution ([_get_font]), the effect renderer
    ([_apply_text_effects]) and the render entry points ([add_text],
    [add_dramatic_text], [add_multiple_text_layers]).

    Conventions of the embedding.
    - Python [int] is [Z]; Python [float] is IEEE-754 binary64, given by the
      standard library's executable specification [spec_float] with
      [prec = 53] and [emax = 1024].
    - Python [str] is [string], read as text of 7-bit characters.
    - A Python exception is a value of [exn]; code that may raise lives in
      the state-and-exception monad [M S], whose state survives a raise
      (as the mutated objects of the Python program do).
    - The rasteriser (PIL's [ImageDraw]) is outside the repository: the
      canvas is modelled by the sequence of [draw.text] calls issued on it,
      and [draw.textbbox] by a function of the text and the font.
    - [math.cos] and [math.sin] are the platform's libm, and the file
      system, the network and the storage service are collaborators: all
      of them are fields of the environment [env], and every theorem
      holds for every environment. *)

From Stdlib Require Import ZArith List String Ascii Bool Lia SpecFloat.
From Stdlib Require Import DecimalString FinFun.
Import ListNotations.
Open Scope string_scope.
Open Scope list_scope.
Open Scope Z_scope.

(** ** Exceptions and the monad of the embedding *)

Inductive exn_class :=
| ValueError | IndexError | OverflowError | ZeroDivisionError
| FileNotFoundError | AttributeError | OSError | Exception.

(** An exception: its class and [str(e)]. *)
Record exn := mkExn { exn_cls : exn_class; exn_str : string }.

Inductive result (A : Type) :=
| Ok (a : A)
| Raise (e : exn).
Arguments Ok {A} a.
Arguments Raise {A} e.

Definition raise_ {A} (c : exn_class) (msg : string) : result A :=
  Raise (mkExn c msg).

Definition rbind {A B} (r : result A) (k : A -> result B) : result B :=
  match r with
  | Ok a => k a
  | Raise e => Raise e
  end.

(** A computation over a mutable state [S] that may raise. *)
Definition M (S A : Type) := S -> result A * S.

Definition ret {S A} (a : A) : M S A := fun s => (Ok a, s).

Definition bind {S A B} (m : M S A) (k : A -> M S B) : M S B :=
  fun s => match m s with
           | (Ok a, s') => k a s'
           | (Raise e, s') => (Raise e, s')
           end.

Definition lift {S A} (r : result A) : M S A := fun s => (r, s).

Definition throw {S A} (c : exn_class) (msg : string) : M S A :=
  lift (raise_ c msg).

(** [try: r except Exception as e: h e] on a computation without state. *)
Definition rtry {A} (r : result A) (h : exn -> result A) : result A :=
  match r with
  | Ok a => Ok a
  | Raise e => h e
  end.

(** [try: m except Exception as e: h e] *)
Definition try_except {S A} (m : M S A) (h : exn -> M S A) : M S A :=
  fun s => match m s with
           | (Ok a, s') => (Ok a, s')
           | (Raise e, s') => h e s'
           end.

Declare Scope py_scope.
Delimit Scope py_scope with py.
Notation "x <- m ;; k" := (bind m (fun x => k))
  (at level 61, m at next level, right associativity) : py_scope.
Notation "m ;;; k" := (bind m (fun _ => k))
  (at level 61, right associativity) : py_scope.
Notation "x <~ r ;; k" := (rbind r (fun x => k))
  (at level 61, r at next level, right associativity) : py_scope.
Open Scope py_scope.

(** [for x in xs: body x] *)
Fixpoint for_each {S A} (xs : list A) (body : A -> M S unit) : M S unit :=
  match xs with
  | [] => ret tt
  | x :: xs' => body x ;;; for_each xs' body
  end.

(** ** Python numbers *)

Module PyFloat.

Definition float := spec_float.
Definition prec : Z := 53.
Definition emax : Z := 1024.

Definition fmul : float -> float -> float := SFmul prec emax.
Definition fsub : float -> float -> float := SFsub prec emax.
Definition fdiv : float -> float -> float := SFdiv prec emax.

Definition is_nan (x : float) : bool :=
  match x with S754_nan => true | _ => false end.
Definition is_inf (x : float) : bool :=
  match x with S754_infinity _ => true | _ => false end.
Definition is_finite (x : float) : bool :=
  match x with S754_zero _ | S754_finite _ _ _ => true | _ => false end.

(** The double nearest to an [int], ties to even (the [int] itself
    below [2^53]); an infinity when the [int] is too large. *)
Definition lit (z : Z) : float := binary_normalize prec emax z 0 false.

(** Conversion of an [int] operand of mixed arithmetic: the nearest
    double; too large an [int] raises. *)
Definition of_int (z : Z) : result float :=
  let f := lit z in
  if is_finite f then Ok f
  else raise_ OverflowError "int too large to convert to float".

(** [int(x)]: truncation toward zero of a finite float. *)
Definition trunc (x : float) : Z :=
  match x with
  | S754_finite s m e =>
      let a := match e with
               | Zneg p => Z.shiftr (Zpos m) (Zpos p)
               | _ => Z.shiftl (Zpos m) e
               end in
      if s then - a else a
  | _ => 0
  end.

Definition py_int (x : float) : result Z :=
  match x with
  | S754_nan => raise_ ValueError "cannot convert float NaN to integer"
  | S754_infinity _ =>
      raise_ OverflowError "cannot convert float infinity to integer"
  | _ => Ok (trunc x)
  end.

(** The exact quotient of two non-zero [int]s, rounded once to the
    nearest double. *)
Definition int_ratio (a b : Z) : float :=
  fdiv (S754_finite (a <? 0) (Z.to_pos (Z.abs a)) 0)
       (S754_finite (b <? 0) (Z.to_pos (Z.abs b)) 0).

(** [a / b] on two [int]s: the correctly rounded quotient. *)
Definition int_truediv (a b : Z) : result float :=
  match b with
  | Z0 => raise_ ZeroDivisionError "division by zero"
  | _ =>
      match a with
      | Z0 => Ok (S754_zero (b <? 0))
      | _ =>
          let q := int_ratio a b in
          if is_finite q then Ok q
          else raise_ OverflowError
                 "integer division result too large for a float"
      end
  end.

(** The double nearest to pi, [0x400921FB54442D18]. *)
Definition pi : float := S754_finite false 0x1921FB54442D18 (-51).

(** [math.radians(x) = x * (pi / 180.0)] *)
Definition degToRad : float := fdiv pi (lit 180).
Definition radians (x : float) : float := fmul x degToRad.

(** The dyadic constant [0.375 = 3 * 2^-3]. *)
Definition c0375 : float := fdiv (lit 3) (lit 8).

End PyFloat.
Import PyFloat.

(** ** Python strings *)

Module PyStr.

Definition code (c : ascii) : Z := Z.of_N (N_of_ascii c).

Definition len (s : string) : Z := Z.of_nat (String.length s).

(** [s.startswith(p)] *)
Definition startswith (p s : string) : bool := String.prefix p s.

(** [s.endswith(p)] *)
Definition endswith (p s : string) : bool :=
  let n := String.length s in
  let k := String.length p in
  (k <=? n)%nat && String.eqb (String.substring (n - k) k s) p.

(** [s.lstrip(c)] for a one-character set. *)
Fixpoint lstrip (c : ascii) (s : string) : string :=
  match s with
  | String d s' => if Ascii.eqb d c then lstrip c s' else s
  | EmptyString => s
  end.

(** [s[n:]] *)
Definition drop (n : nat) (s : string) : string :=
  String.substring n (String.length s - n) s.

(** [str(z)] of an [int]. *)
Definition of_Z (z : Z) : string := NilZero.string_of_int (Z.to_int z).

(** [s[i:j]] for [0 <= i <= j]. *)
Definition slice (s : string) (i j : nat) : string :=
  String.substring i (j - i) s.

(** [s[i]], negative indices counting from the end. *)
Definition getitem (s : string) (i : Z) : result ascii :=
  let k := if i <? 0 then i + len s else i in
  if (k <? 0) || (len s <=? k)
  then raise_ IndexError "string index out of range"
  else match String.get (Z.to_nat k) s with
       | Some c => Ok c
       | None => raise_ IndexError "string index out of range"
       end.

(** [c in s] for a single character [c]. *)
Fixpoint contains (c : ascii) (s : string) : bool :=
  match s with
  | EmptyString => false
  | String d s' => Ascii.eqb c d || contains c s'
  end.

Definition map_chars (f : ascii -> ascii) : string -> string :=
  fix go s := match s with
              | EmptyString => EmptyString
              | String c s' => String (f c) (go s')
              end.

Definition lower_char (c : ascii) : ascii :=
  if (65 <=? code c) && (code c <=? 90)
  then ascii_of_N (N_of_ascii c + 32) else c.
Definition upper_char (c : ascii) : ascii :=
  if (97 <=? code c) && (code c <=? 122)
  then ascii_of_N (N_of_ascii c - 32) else c.

Definition lower : string -> string := map_chars lower_char.
Definition upper : string -> string := map_chars upper_char.

(** *** [int(s, base)] *)

(** The digit table of the interpreter: ['0'-'9'], then letters of either
    case from 10 to 35, and 37 for every other character. *)
Definition digit_value (c : ascii) : Z :=
  let n := code c in
  if (48 <=? n) && (n <=? 57) then n - 48
  else if (97 <=? n) && (n <=? 122) then n - 87
  else if (65 <=? n) && (n <=? 90) then n - 55
  else 37.

(** Whitespace skipped around a literal: tab to carriage return, and
    the space. *)
Definition is_space (c : ascii) : bool :=
  let n := code c in
  ((9 <=? n) && (n <=? 13)) || (n =? 32).

Fixpoint skip_space (s : string) : string :=
  match s with
  | String c s' => if is_space c then skip_space s' else s
  | EmptyString => s
  end.

(** Digits with single underscores between them; returns the value, the
    number of digits read and the unread rest. *)
Fixpoint scan_digits (base : Z) (s : string) (prev_us : bool)
         (acc : Z) (n : nat) : option (Z * nat * string) :=
  match s with
  | EmptyString => if prev_us then None else Some (acc, n, s)
  | String c s' =>
      if digit_value c <? base
      then scan_digits base s' false (acc * base + digit_value c) (S n)
      else if Ascii.eqb c "_"
           then (if prev_us then None else scan_digits base s' true acc n)
           else (if prev_us then None else Some (acc, n, s))
  end.

Definition invalid_literal {A} (s : string) : result A :=
  raise_ ValueError
    ("invalid literal for int() with base 16: '" ++ s ++ "'")%string.

(** [int(s, 16)] on a string of 7-bit characters.  (On other
    characters [int()] knows more blanks and the decimal digits of
    other scripts; these are outside the embedding.) *)
Definition int16 (s : string) : result Z :=
  let s1 := skip_space s in
  let '(neg, s2) :=
    match s1 with
    | String "+" r => (false, r)
    | String "-" r => (true, r)
    | _ => (false, s1)
    end in
  let s3 :=
    match s2 with
    | String "0" (String x r) =>
        if Ascii.eqb x "x" || Ascii.eqb x "X"
        then match r with String "_" r' => r' | _ => r end
        else s2
    | _ => s2
    end in
  match s3 with
  | String "_" _ => invalid_literal s
  | _ =>
      match scan_digits 16 s3 false 0 0 with
      | Some (v, S _, rest) =>
          match skip_space rest with
          | EmptyString => Ok (if neg then - v else v)
          | _ => invalid_literal s
          end
      | _ => invalid_literal s
      end
  end.

End PyStr.

(** ** ColorModel: [_hex_to_rgba] *)

Definition rgba := (Z * Z * Z * Z)%type.

Definition white : rgba := (255, 255, 255, 255).

Definition hex_to_rgba (hex_color : string) : result rgba :=
  if PyStr.startswith "#" hex_color then
    let hex_color := PyStr.lstrip "#" hex_color in
    if PyStr.len hex_color =? 8 then
      r <~ PyStr.int16 (PyStr.slice hex_color 0 2) ;;
      g <~ PyStr.int16 (PyStr.slice hex_color 2 4) ;;
      b <~ PyStr.int16 (PyStr.slice hex_color 4 6) ;;
      a <~ PyStr.int16 (PyStr.slice hex_color 6 8) ;;
      Ok (r, g, b, a)
    else if PyStr.len hex_color =? 6 then
      r <~ PyStr.int16 (PyStr.slice hex_color 0 2) ;;
      g <~ PyStr.int16 (PyStr.slice hex_color 2 4) ;;
      b <~ PyStr.int16 (PyStr.slice hex_color 4 6) ;;
      Ok (r, g, b, 255)
    else if PyStr.len hex_color =? 4 then
      r <~ PyStr.int16 (PyStr.slice hex_color 0 1) ;;
      g <~ PyStr.int16 (PyStr.slice hex_color 1 2) ;;
      b <~ PyStr.int16 (PyStr.slice hex_color 2 3) ;;
      a <~ PyStr.int16 (PyStr.slice hex_color 3 4) ;;
      Ok (r * 17, g * 17, b * 17, a * 17)
    else if PyStr.len hex_color =? 3 then
      r <~ PyStr.int16 (PyStr.slice hex_color 0 1) ;;
      g <~ PyStr.int16 (PyStr.slice hex_color 1 2) ;;
      b <~ PyStr.int16 (PyStr.slice hex_color 2 3) ;;
      Ok (r * 17, g * 17, b * 17, 255)
    else Ok white
  else Ok white.

(** ** Fonts, draw calls and the collaborators of the service *)

(** A font handle: a FreeType face opened from a name or path at a size,
    or the rasteriser's built-in default. *)
Inductive font :=
| TrueType (source : string) (size : Z)
| BuiltinDefault.

(** The [fill] of a draw: a colour string handed to the rasteriser as it
    is, or an RGBA tuple. *)
Inductive fill :=
| FillStr (s : string)
| FillRGBA (c : rgba).

(** One call [draw.text(xy, text, fill=fill, font=font)]. *)
Record draw_call := mkDraw {
  dc_xy : Z * Z;
  dc_text : string;
  dc_fill : fill;
  dc_font : font
}.

(** A decoded RGBA raster: its size and the text draws made on it. *)
Record image := mkImage {
  im_width : Z;
  im_height : Z;
  im_draws : list draw_call
}.

(** What the service reaches outside the repository: libm, the
    rasteriser, the file system, the network and the storage service.
    [upload_image] gives the answer of the storage service, an object
    of a class that is not part of the repository; [add_text] and
    [create_template] hand it on as it is, [compose_final_image] and
    [add_multiple_text_layers] return its item ['url'], and
    [result_url] is that subscript, which can raise. *)
Record env := mkEnv {
  math_cos : float -> float;
  math_sin : float -> float;
  textbbox : string -> font -> Z * Z * Z * Z;
  truetype : string -> Z -> result font;
  path_exists : string -> bool;
  isfile : string -> bool;
  path_join : string -> string -> string;
  base_dir : string;
  http_download : string -> result string;
  image_open : string -> result image;
  mkdir_processed : result unit;
  output_stem : string -> string;
  time_now : Z;
  save_png : string -> image -> result unit;
  upload_image : string -> result string;
  result_url : string -> result string
}.

(** The wrapper of the [math] module around a libm function that cannot
    overflow: a NaN from a non-NaN argument, or an infinity from a finite
    one, is a [ValueError]. *)
Definition math_call (f : float -> float) (x : float) : result float :=
  let r := f x in
  if is_nan r && negb (is_nan x) then raise_ ValueError "math domain error"
  else if is_inf r && is_finite x then raise_ ValueError "math domain error"
  else Ok r.

(** [range(a, b)] *)
Definition range (a b : Z) : list Z :=
  map (fun k => a + Z.of_nat k) (seq 0 (Z.to_nat (b - a))).

(** [range(a, b, step)] for [step <> 0] *)
Definition range_step (a b step : Z) : list Z :=
  let n := if 0 <? step then (b - a + step - 1) / step
           else (a - b - step - 1) / (- step) in
  map (fun k => a + Z.of_nat k * step) (seq 0 (Z.to_nat n)).

(** [xs[i]] on a list, negative indices counting from the end. *)
Definition list_getitem {A} (xs : list A) (i : Z) : result A :=
  let n := Z.of_nat (List.length xs) in
  let k := if i <? 0 then i + n else i in
  if (k <? 0) || (n <=? k) then raise_ IndexError "list index out of range"
  else match nth_error xs (Z.to_nat k) with
       | Some a => Ok a
       | None => raise_ IndexError "list index out of range"
       end.

(** ** FontResolver: [_get_font] *)

Definition dramatic_fonts : list (string * string) :=
  [ ("anton", "Anton-Regular.ttf");
    ("sixcaps", "SixCaps.ttf");
    ("impact", "Impact");
    ("arial_bold", "Arial Bold");
    ("helvetica_bold", "Helvetica Bold");
    ("boldonse", "Boldonse.ttf") ].

Fixpoint dict_get {V} (d : list (string * V)) (k : string) : option V :=
  match d with
  | [] => None
  | (k', v) :: d' => if String.eqb k k' then Some v else dict_get d' k
  end.

(** [self.fonts_dir / font_file] for a bare file name. *)
Definition fonts_dir_file (font_file : string) : string :=
  ("assets/fonts/" ++ font_file)%string.

Definition get_font (E : env) (font_name : string) (font_size : Z)
  : result font :=
  rtry
    (match dict_get dramatic_fonts (PyStr.lower font_name) with
     | Some font_file =>
         if (PyStr.endswith ".ttf" font_file || PyStr.endswith ".otf" font_file)
            && path_exists E (fonts_dir_file font_file)
         then truetype E (fonts_dir_file font_file) font_size
         else truetype E font_file font_size
     | None => truetype E font_name font_size
     end)
    (fun _ =>
       rtry (truetype E "Arial" font_size) (fun _ => Ok BuiltinDefault)).

(** ** EffectRenderer: [_apply_text_effects] *)

(** The [position] argument: a tuple, a dict that may hold ['x'] and
    ['y'], or any other value. *)
Inductive position :=
| PosTuple (items : list Z)
| PosDict (x y : option Z)
| PosOther.

(** The ['settings'] dict of an effect; a key that is absent is [None]. *)
Record settings := mkSettings {
  st_offset : option (list Z);
  st_color : option string;
  st_opacity : option float;
  st_blur : option Z;
  st_width : option Z;
  st_radius : option Z;
  st_layers : option Z;
  st_angle : option float;
  st_distance : option float;
  st_color_gradient : option (list string)
}.

Definition no_settings : settings :=
  mkSettings None None None None None None None None None None.

(** The value under the legacy key ['shadow']. *)
Record legacy_shadow := mkLegacyShadow {
  ls_offset : option (list Z);
  ls_color : option string
}.

(** The [effects] dict: the keys the renderer reads, and whether the dict
    holds any other key. *)
Record effects_dict := mkEffects {
  ef_type : option string;
  ef_settings : option settings;
  ef_shadow : option legacy_shadow;
  ef_other : bool
}.

Definition is_some {A} (o : option A) : bool :=
  match o with Some _ => true | None => false end.

(** [d.get(key, default)] on a field. *)
Definition get_or {A} (o : option A) (default : A) : A :=
  match o with Some a => a | None => default end.

(** Truth value of [effects]: [None] and the empty dict are false. *)
Definition truthy (effects : option effects_dict) : bool :=
  match effects with
  | None => false
  | Some d =>
      is_some (ef_type d) || is_some (ef_settings d)
      || is_some (ef_shadow d) || ef_other d
  end.

(** The canvas lists the calls of [draw.text] in the order they are
    issued, and [draw_text] issues one.  Whether the rasteriser accepts
    the fill of a call is not decided here: [rasterised], further down,
    cuts a run at the first call whose fill is refused. *)
Definition canvas := list draw_call.

Definition draw_text (xy : Z * Z) (text : string) (f : fill) (fnt : font)
  : M canvas unit :=
  fun cv => (Ok tt, cv ++ [mkDraw xy text f fnt]).

(** Floating-point literals of the source. *)
Definition f0_5 : float := fdiv (lit 1) (lit 2).
Definition f0_7 : float := fdiv (lit 7) (lit 10).

(** [int(text_height * 0.375)] *)
Definition vertical_adjustment (text_height : Z) : result Z :=
  hf <~ of_int text_height ;;
  py_int (fmul hf c0375).

(** [(r, g, b, int(255 * opacity))] from a settings colour. *)
Definition color_with_opacity (color : string) (opacity : float)
  : result rgba :=
  c <~ hex_to_rgba color ;;
  let '(r, g, b, _) := c in
  a <~ py_int (fmul (lit 255) opacity) ;;
  Ok (r, g, b, a).

Section Renderer.

Variable E : env.
Variables (text : string) (fnt : font) (color : string).
(** The corrected origin [(centered_x, centered_y)]. *)
Variables (cx cy : Z).

Definition draw_base : M canvas unit :=
  draw_text (cx, cy) text (FillStr color) fnt.

Definition shadow_effect (st : settings) : M canvas unit :=
  let shadow_offset := get_or (st_offset st) [5; 5] in
  let shadow_color := get_or (st_color st) "#000000" in
  let shadow_opacity := get_or (st_opacity st) f0_5 in
  let '(offset_x, offset_y) :=
    match shadow_offset with
    | a :: b :: _ => (a, b)
    | _ => (5, 5)
    end in
  shadow_rgba <- lift (color_with_opacity shadow_color shadow_opacity) ;;
  draw_text (cx + offset_x, cy + offset_y) text (FillRGBA shadow_rgba) fnt ;;;
  draw_base.

Definition outline_effect (st : settings) : M canvas unit :=
  let outline_width := get_or (st_width st) 2 in
  let outline_color := get_or (st_color st) "#000000" in
  let outline_opacity := get_or (st_opacity st) (lit 1) in
  outline_rgba <- lift (color_with_opacity outline_color outline_opacity) ;;
  for_each (range (- outline_width) (outline_width + 1)) (fun offset_x =>
    for_each (range (- outline_width) (outline_width + 1)) (fun offset_y =>
      if (offset_x =? 0) && (offset_y =? 0) then ret tt
      else draw_text (cx + offset_x, cy + offset_y) text
                     (FillRGBA outline_rgba) fnt)) ;;;
  draw_base.

(** One offset draw of the glow: the point of the ring at [angle]
    degrees. *)
Definition glow_point (current_radius : float) (current_rgba : rgba)
           (angle : Z) : M canvas unit :=
  af <- lift (of_int angle) ;;
  c <- lift (math_call (math_cos E) (radians af)) ;;
  offset_x <- lift (py_int (fmul current_radius c)) ;;
  s <- lift (math_call (math_sin E) (radians af)) ;;
  offset_y <- lift (py_int (fmul current_radius s)) ;;
  draw_text (cx + offset_x, cy + offset_y) text (FillRGBA current_rgba) fnt.

Definition glow_ring (glow_rgba : rgba) (glow_radius : Z)
           (glow_opacity : float) (steps i : Z) : M canvas unit :=
  q <- lift (int_truediv i steps) ;;
  rf <- lift (of_int glow_radius) ;;
  let current_radius := fmul q rf in
  let current_opacity := fmul glow_opacity (fsub (lit 1) q) in
  a <- lift (py_int (fmul (lit 255) current_opacity)) ;;
  let '(r, g, b, _) := glow_rgba in
  let current_rgba := (r, g, b, a) in
  for_each (range_step 0 360 30) (glow_point current_radius current_rgba).

Definition glow_effect (st : settings) : M canvas unit :=
  let glow_color := get_or (st_color st) "#FFFFFF" in
  let glow_radius := get_or (st_radius st) 10 in
  let glow_opacity := get_or (st_opacity st) f0_7 in
  glow_rgba <- lift (color_with_opacity glow_color glow_opacity) ;;
  let steps := Z.min glow_radius 20 in
  for_each (range 1 (steps + 1))
           (glow_ring glow_rgba glow_radius glow_opacity steps) ;;;
  draw_base.

Definition depth_layer (layers : Z) (color_gradient : list string)
           (dx dy : float) (i : Z) : M canvas unit :=
  let n := Z.of_nat (List.length color_gradient) in
  q <- lift (int_truediv i layers) ;;
  nf <- lift (of_int (n - 1)) ;;
  k <- lift (py_int (fmul q nf)) ;;
  let color_index := Z.min k (n - 1) in
  layer_color <- lift (list_getitem color_gradient color_index) ;;
  fi <- lift (of_int i) ;;
  ix <- lift (py_int (fmul fi dx)) ;;
  iy <- lift (py_int (fmul fi dy)) ;;
  draw_text (cx - ix, cy - iy) text (FillStr layer_color) fnt.

Definition depth_effect (st : settings) : M canvas unit :=
  let layers := get_or (st_layers st) 10 in
  let angle := get_or (st_angle st) (lit 45) in
  let distance := get_or (st_distance st) (lit 2) in
  let color_gradient :=
    get_or (st_color_gradient st) ["#333333"; "#666666"; "#999999"] in
  let angle_rad := radians angle in
  c <- lift (math_call (math_cos E) angle_rad) ;;
  let dx := fmul c distance in
  s <- lift (math_call (math_sin E) angle_rad) ;;
  let dy := fmul s distance in
  for_each (range_step layers 0 (-1))
           (depth_layer layers color_gradient dx dy) ;;;
  draw_base.

Definition legacy_effect (d : effects_dict) : M canvas unit :=
  match ef_shadow d with
  | Some sh =>
      let shadow_offset := get_or (ls_offset sh) [5; 5] in
      let shadow_color := get_or (ls_color sh) "#000000" in
      o0 <- lift (list_getitem shadow_offset 0) ;;
      o1 <- lift (list_getitem shadow_offset 1) ;;
      draw_text (cx + o0, cy + o1) text (FillStr shadow_color) fnt
  | None => ret tt
  end ;;;
  draw_base.

Definition typed_effect (effect_type : string) (st : settings)
  : M canvas unit :=
  if String.eqb effect_type "shadow" then shadow_effect st
  else if String.eqb effect_type "outline" then outline_effect st
  else if String.eqb effect_type "glow" then glow_effect st
  else if String.eqb effect_type "3d_depth" then depth_effect st
  else draw_base.

End Renderer.

Definition text_size (E : env) (text : string) (fnt : font) : Z * Z :=
  let '(x0, y0, x1, y1) := textbbox E text fnt in
  (x1 - x0, y1 - y0).

Definition anchor_of (p : position) : Z * Z :=
  match p with
  | PosTuple [x; y] => (x, y)
  | PosDict (Some x) (Some y) => (x, y)
  | _ => (0, 0)
  end.

Definition apply_text_effects (E : env) (text : string) (p : position)
           (fnt : font) (color : string) (effects : option effects_dict)
  : M canvas unit :=
  let '(text_width, text_height) := text_size E text fnt in
  let '(x, y) := anchor_of p in
  let centered_x := x - text_width / 2 in
  adj <- lift (vertical_adjustment text_height) ;;
  let centered_y := y - text_height / 2 - adj in
  match effects with
  | Some d =>
      if truthy effects then
        match ef_type d with
        | Some effect_type =>
            typed_effect E text fnt color centered_x centered_y effect_type
                         (get_or (ef_settings d) no_settings)
        | None => legacy_effect text fnt color centered_x centered_y d
        end
      else draw_base text fnt color centered_x centered_y
  | None => draw_base text fnt color centered_x centered_y
  end.

(** ** The render entry points *)

(** A JSON number. *)
Inductive num :=
| NInt (z : Z)
| NFloat (x : float).

(** [int(v)] *)
Definition int_of_num (v : num) : result Z :=
  match v with
  | NInt z => Ok z
  | NFloat x => py_int x
  end.

(** The [position] dict of a request. *)
Record pos_dict := mkPos { pd_x : option num; pd_y : option num }.

(** The [style] dict of a text layer. *)
Record style := mkStyle {
  sy_font_size : option Z;
  sy_color : option string;
  sy_font_name : option string;
  sy_effects : option effects_dict
}.

Record TextLayer := mkTextLayer {
  tl_text : string;
  tl_position : pos_dict;
  tl_style : style
}.

(** The dict returned next to the path by [add_text]. *)
Record text_info := mkInfo {
  info_path : string;
  info_cloud_url : string;
  info_text_size : Z * Z;
  info_position : Z * Z;
  info_image_size : Z * Z
}.

(** What a render leaves behind: the files written under [uploads/] and
    the objects published to the storage service, newest first. *)
Record world := mkWorld {
  w_files : list (string * image);
  w_uploads : list (string * string)
}.

Section Service.

Variable E : env.

Definition resolve_image_path (image_path : string) : result string :=
  if PyStr.startswith "http://" image_path
     || PyStr.startswith "https://" image_path
  then
    rtry (http_download E image_path)
         (fun e => raise_ ValueError
                     ("Failed to download image from URL: " ++ exn_str e)%string)
  else if PyStr.startswith "/uploads/" image_path then
    let possible_paths :=
      [ image_path;
        path_join E (base_dir E) (PyStr.drop 1 image_path);
        path_join E "uploads" (PyStr.drop 9 image_path) ] in
    match filter (isfile E) possible_paths with
    | path :: _ => Ok path
    | [] =>
        raise_ FileNotFoundError
          ("Could not locate image file at any of these locations: "
             ++ String.concat ", " possible_paths)%string
    end
  else if isfile E image_path then Ok image_path
  else
    let full_path := path_join E (base_dir E) image_path in
    if isfile E full_path then Ok full_path
    else raise_ FileNotFoundError ("File not found: " ++ image_path)%string.

(** Runs the renderer on the draw object of an image held in a local
    variable. *)
Definition draw_on (im : image) (m : M canvas unit) : result image :=
  match m (im_draws im) with
  | (Ok _, ds) => Ok (mkImage (im_width im) (im_height im) ds)
  | (Raise e, _) => Raise e
  end.

(** [canvas.save(path, "PNG")] *)
Definition save (path : string) (im : image) : M world unit :=
  fun w => match save_png E path im with
           | Ok _ => (Ok tt, mkWorld ((path, im) :: w_files w) (w_uploads w))
           | Raise e => (Raise e, w)
           end.

(** [await self.s3.upload_image(path)] *)
Definition upload (path : string) : M world string :=
  fun w => match upload_image E path with
           | Ok url => (Ok url, mkWorld (w_files w) ((path, url) :: w_uploads w))
           | Raise e => (Raise e, w)
           end.

Definition add_text_body (background_path text : string)
           (pos : pos_dict) (font_size : Z) (color font_name : string)
           (effects : option effects_dict) : M world (string * text_info) :=
  resolved_path <- lift (resolve_image_path background_path) ;;
  background <- lift (image_open E resolved_path) ;;
  let canvas := background in
  fnt <- lift (get_font E font_name font_size) ;;
  let '(text_width, text_height) := text_size E text fnt in
  pos_x <- lift (int_of_num (get_or (pd_x pos) (NInt 10))) ;;
  pos_y <- lift (int_of_num (get_or (pd_y pos) (NInt 10))) ;;
  canvas <- lift (draw_on canvas
                    (apply_text_effects E text (PosTuple [pos_x; pos_y])
                                        fnt color effects)) ;;
  lift (mkdir_processed E) ;;;
  let text_path :=
    ("uploads/processed/" ++ output_stem E background_path ++ "_text_"
       ++ PyStr.of_Z (time_now E) ++ ".png")%string in
  save text_path canvas ;;;
  cloud_url <- upload text_path ;;
  ret (text_path,
       mkInfo text_path cloud_url (text_width, text_height) (pos_x, pos_y)
              (im_width background, im_height background)).

Definition add_text (background_path text : string) (pos : pos_dict)
           (font_size : Z) (color font_name : string)
           (effects : option effects_dict) : M world (string * text_info) :=
  try_except
    (add_text_body background_path text pos font_size color font_name effects)
    (fun e => throw ValueError ("Failed to add text: " ++ exn_str e)%string).

(** The default effect of [add_dramatic_text]. *)
Definition dramatic_shadow : effects_dict :=
  mkEffects (Some "shadow")
    (Some (mkSettings (Some [5; 5]) (Some "#000000") (Some f0_5) (Some 3)
                      None None None None None None))
    None false.

Definition add_dramatic_text (background_path text : string)
           (pos : pos_dict) (font_size : Z) (color font_name : string)
           (with_period to_uppercase : bool)
           (effects : option effects_dict) : M world (string * text_info) :=
  try_except
    (let processed_text := text in
     let processed_text :=
       if to_uppercase then PyStr.upper processed_text else processed_text in
     add_period <-
       (if with_period
        then last <- lift (PyStr.getitem processed_text (-1)) ;;
             ret (negb (PyStr.contains last ".!?"))
        else ret false) ;;
     let processed_text :=
       if add_period then (processed_text ++ ".")%string
       else processed_text in
     let final_effects :=
       if truthy effects then effects else Some dramatic_shadow in
     add_text background_path processed_text pos font_size color font_name
              final_effects)
    (fun e =>
       throw ValueError ("Failed to add dramatic text: " ++ exn_str e)%string).

(** The body of the loop over the layers. *)
Definition render_layer (layer : TextLayer) : M canvas unit :=
  let text := tl_text layer in
  pos_x <- lift (int_of_num (get_or (pd_x (tl_position layer)) (NInt 10))) ;;
  pos_y <- lift (int_of_num (get_or (pd_y (tl_position layer)) (NInt 10))) ;;
  let position := PosTuple [pos_x; pos_y] in
  let font_size := get_or (sy_font_size (tl_style layer)) 120 in
  let color := get_or (sy_color (tl_style layer)) "#FFFFFF" in
  let font_name := get_or (sy_font_name (tl_style layer)) "anton" in
  let effects := sy_effects (tl_style layer) in
  fnt <- lift (get_font E font_name font_size) ;;
  apply_text_effects E text position fnt color effects.

Definition render_layers (text_layers : list TextLayer) : M canvas unit :=
  for_each text_layers render_layer.

Definition add_multiple_text_layers (background_path : string)
           (text_layers : list TextLayer) : M world string :=
  try_except
    (resolved_path <- lift (resolve_image_path background_path) ;;
     background <- lift (image_open E resolved_path) ;;
     background <- lift (draw_on background (render_layers text_layers)) ;;
     let result_path :=
       ("uploads/public/multilayer_" ++ PyStr.of_Z (time_now E) ++ ".png")%string in
     save result_path background ;;;
     result_info <- upload result_path ;;
     (* the log line reads the item first *)
     lift (result_url E result_info) ;;;
     lift (result_url E result_info))
    (fun e =>
       throw ValueError
             ("Failed to add multiple text layers: " ++ exn_str e)%string).

End Service.

(** ** The operations as the specification words them

    Definitions written from the prose of the specification, to be
    compared with the embedded code above. *)

Module Spec.

Definition is_hex (c : ascii) : bool := PyStr.digit_value c <? 16.

Fixpoint all_hex (s : string) : bool :=
  match s with
  | EmptyString => true
  | String c s' => is_hex c && all_hex s'
  end.

Definition nibble (c : ascii) : Z := PyStr.digit_value c.

(** A short-form nibble [n] duplicated: [0xn] becomes [0xnn]. *)
Definition dup (c : ascii) : Z := 16 * nibble c + nibble c.

(** Two hex digits read as one channel. *)
Definition pair (c1 c2 : ascii) : Z := 16 * nibble c1 + nibble c2.

(** [parse]: an optional leading ['#'] is stripped; 3, 4, 6 or 8 hex
    digits of either case give the channels, a missing alpha is 255;
    anything else is opaque white. *)
Definition parse (s : string) : rgba :=
  let body := match s with String "#" r => r | _ => s end in
  if all_hex body then
    match list_ascii_of_string body with
    | [r; g; b] => (dup r, dup g, dup b, 255)
    | [r; g; b; a] => (dup r, dup g, dup b, dup a)
    | [r1; r2; g1; g2; b1; b2] => (pair r1 r2, pair g1 g2, pair b1 b2, 255)
    | [r1; r2; g1; g2; b1; b2; a1; a2] =>
        (pair r1 r2, pair g1 g2, pair b1 b2, pair a1 a2)
    | _ => white
    end
  else white.

(** [floor(x)] of a finite float: the largest [int] not above it. *)
Definition floor (x : float) : Z :=
  match x with
  | S754_finite s m e =>
      let z := if s then Zneg m else Zpos m in
      match e with
      | Zneg p => z / 2 ^ Zpos p
      | _ => z * 2 ^ e
      end
  | _ => 0
  end.

(** [math.floor(x)]: a NaN and an infinity raise as for [int(x)]. *)
Definition math_floor (x : float) : result Z :=
  match py_int x with
  | Ok _ => Ok (floor x)
  | Raise e => Raise e
  end.

(** [applyOpacity]: the alpha channel scaled by the opacity,
    [alpha' = floor(alpha * opacity)]; the colour channels unchanged. *)
Definition applyOpacity (c : rgba) (opacity : float) : result rgba :=
  let '(r, g, b, a) := c in
  af <~ of_int a ;;
  a' <~ math_floor (fmul af opacity) ;;
  Ok (r, g, b, a').

(** The glow as it is worded: [currentRadius = radius * i / steps],
    the product first, and the alpha
    [floor(255 * o * (1 - i / steps))], multiplied from the left. *)
Definition currentRadius (radius i steps : Z) : float :=
  int_ratio (radius * i) steps.

Definition ringAlpha (o : float) (i steps : Z) : Z :=
  floor (fmul (fmul (lit 255) o) (fsub (lit 1) (int_ratio i steps))).

(** The depth offset as it is worded: [int(layer * t * d)] for [t]
    the cosine or the sine, multiplied from the left. *)
Definition depthOffset (layer : Z) (t d : float) : Z :=
  trunc (fmul (fmul (lit layer) t) d).

(** *** Font resolution *)

(** A letter [A] .. [Z] as its lower-case letter, any other character
    as itself. *)
Definition fold_letter (c : ascii) : ascii :=
  match String.index 0 (String c EmptyString) "ABCDEFGHIJKLMNOPQRSTUVWXYZ" with
  | Some i =>
      match String.get i "abcdefghijklmnopqrstuvwxyz" with
      | Some l => l
      | None => c
      end
  | None => c
  end.

Fixpoint fold_case (s : string) : string :=
  match s with
  | EmptyString => EmptyString
  | String c s' => String (fold_letter c) (fold_case s')
  end.

(** What a symbolic name stands for: a file of the fonts directory,
    with the name that is loaded as a system font when the file is
    not there, or a system font. *)
Inductive alias_target :=
| FontFile (path system_name : string)
| SystemFont (name : string).

Definition aliases : list (string * alias_target) :=
  [ ("anton", FontFile "assets/fonts/Anton-Regular.ttf" "Anton-Regular.ttf");
    ("sixcaps", FontFile "assets/fonts/SixCaps.ttf" "SixCaps.ttf");
    ("impact", SystemFont "Impact");
    ("arial_bold", SystemFont "Arial Bold");
    ("helvetica_bold", SystemFont "Helvetica Bold");
    ("boldonse", FontFile "assets/fonts/Boldonse.ttf" "Boldonse.ttf") ].

(** The one name that is loaded first: that of the alias the
    identifier matches without regard to case, or the identifier
    itself when it matches none. *)
Definition first_choice (E : env) (fontId : string) : string :=
  match find (fun a => String.eqb (fold_case fontId) (fst a)) aliases with
  | Some (_, FontFile path system_name) =>
      if path_exists E path then path else system_name
  | Some (_, SystemFont name) => name
  | None => fontId
  end.

(** The first of the names that loads, or the built-in default font. *)
Fixpoint first_loaded (E : env) (names : list string) (size : Z) : font :=
  match names with
  | [] => BuiltinDefault
  | name :: rest =>
      match truetype E name size with
      | Ok f => f
      | Raise _ => first_loaded E rest size
      end
  end.

(** [resolve]: the first choice, then ["Arial"], then the built-in
    default. *)
Definition resolve (E : env) (fontId : string) (size : Z) : font :=
  first_loaded E [first_choice E fontId; "Arial"] size.

End Spec.

(** The characters that are hex digits. *)
Definition hex_chars : list ascii :=
  list_ascii_of_string "0123456789abcdefABCDEF".

(** What [_hex_to_rgba] returns on a string that starts with ['#'], as a
    function of the characters left after the leading ['#']s. *)
Definition channels (body : string) : rgba :=
  match list_ascii_of_string body with
  | [r; g; b] =>
      (Spec.nibble r * 17, Spec.nibble g * 17, Spec.nibble b * 17, 255)
  | [r; g; b; a] =>
      (Spec.nibble r * 17, Spec.nibble g * 17, Spec.nibble b * 17,
       Spec.nibble a * 17)
  | [r1; r2; g1; g2; b1; b2] =>
      (Spec.pair r1 r2, Spec.pair g1 g2, Spec.pair b1 b2, 255)
  | [r1; r2; g1; g2; b1; b2; a1; a2] =>
      (Spec.pair r1 r2, Spec.pair g1 g2, Spec.pair b1 b2, Spec.pair a1 a2)
  | _ => white
  end.

(** ** Auxiliary notions used in the statements *)

(** [m] ends with outcome [r] after issuing exactly the draws [ds],
    whatever the canvas held before. *)
Definition emits {A} (m : M canvas A) (r : result A) (ds : list draw_call)
  : Prop :=
  forall cv, m cv = (r, cv ++ ds).

(** [m] only appends to the canvas, and neither its outcome nor what it
    appends depends on what the canvas held. *)
Definition appends {A} (m : M canvas A) : Prop :=
  exists r ds, emits m r ds.

(** The draw of the base text at [(cx, cy)]. *)
Definition base_draw (text : string) (fnt : font) (color : string)
           (cx cy : Z) : draw_call :=
  mkDraw (cx, cy) text (FillStr color) fnt.

(** If [m] returns, the last draw it made is the base text at
    [(cx, cy)]. *)
Definition base_last (text : string) (fnt : font) (color : string)
           (cx cy : Z) (m : M canvas unit) : Prop :=
  exists r ds,
    emits m r ds
    /\ (r = Ok tt -> exists ds', ds = ds' ++ [base_draw text fnt color cx cy]).

(** The offsets of the outline: the square [[-w, w] x [-w, w]] in the
    order of the two nested loops, without its centre. *)
Definition outline_offsets (w : Z) : list (Z * Z) :=
  filter (fun d => negb ((fst d =? 0) && (snd d =? 0)))
         (list_prod (range (- w) (w + 1)) (range (- w) (w + 1))).

(** The corrected origin, from the anchor and the measured size. *)
Definition origin (x y text_width text_height : Z) : Z * Z :=
  (x - text_width / 2, y - text_height / 2 - 3 * text_height / 8).

(** [x] is finite and [|x| < 2^B]. *)
Definition bounded_by (B : Z) (x : float) : bool :=
  match x with
  | S754_finite _ m e => Zpos (digits2_pos m) + e <=? B
  | S754_zero _ => true
  | _ => false
  end.

(** [x] is finite and not negative. *)
Definition nonneg (x : float) : bool :=
  match x with
  | S754_finite false _ _ | S754_zero _ => true
  | _ => false
  end.

(** The libm of [E] returns finite values of magnitude below 2 for the
    cosine and the sine of each of the given arguments. *)
Definition trig_bounded (E : env) (args : list float) : bool :=
  forallb (fun x => bounded_by 1 (math_cos E x) && bounded_by 1 (math_sin E x))
          args.

(** The angles of a glow ring, in degrees. *)
Definition ring_angles : list Z :=
  [0; 30; 60; 90; 120; 150; 180; 210; 240; 270; 300; 330].

(** The first attempt of [_get_font]: the aliased file or system font, or
    the name itself when no alias matches. *)
Definition primary_font (E : env) (font_name : string) (font_size : Z)
  : result font :=
  match dict_get dramatic_fonts (PyStr.lower font_name) with
  | Some font_file =>
      if (PyStr.endswith ".ttf" font_file || PyStr.endswith ".otf" font_file)
         && path_exists E (fonts_dir_file font_file)
      then truetype E (fonts_dir_file font_file) font_size
      else truetype E font_file font_size
  | None => truetype E font_name font_size
  end.

(** The handle the fallback chain ends on. *)
Definition resolved_font (E : env) (font_name : string) (font_size : Z)
  : font :=
  match primary_font E font_name font_size with
  | Ok f => f
  | Raise _ =>
      match truetype E "Arial" font_size with
      | Ok f => f
      | Raise _ => BuiltinDefault
      end
  end.

(** The stages of [add_text] at which a collaborator or the renderer can
    fail. *)
Inductive stage :=
| PathResolution | ImageDecoding | Layout | EffectApplication | Saving
| Upload.

(** The path [add_text] saves under. *)
Definition text_path (E : env) (background_path : string) : string :=
  ("uploads/processed/" ++ output_stem E background_path ++ "_text_"
     ++ PyStr.of_Z (time_now E) ++ ".png")%string.

(** The first stage of an [add_text] call that raises, with what it
    raises and the canvas rendered so far when there is one; [None] when
    every stage passes. *)
Definition first_failure (E : env) (background_path text : string)
           (pos : pos_dict) (font_size : Z) (color font_name : string)
           (effects : option effects_dict)
  : option (stage * exn * option image) :=
  match resolve_image_path E background_path with
  | Raise e => Some (PathResolution, e, None)
  | Ok resolved_path =>
  match image_open E resolved_path with
  | Raise e => Some (ImageDecoding, e, None)
  | Ok background =>
  let fnt := resolved_font E font_name font_size in
  match int_of_num (get_or (pd_x pos) (NInt 10)) with
  | Raise e => Some (Layout, e, None)
  | Ok pos_x =>
  match int_of_num (get_or (pd_y pos) (NInt 10)) with
  | Raise e => Some (Layout, e, None)
  | Ok pos_y =>
  match draw_on background
                (apply_text_effects E text (PosTuple [pos_x; pos_y]) fnt
                                    color effects) with
  | Raise e => Some (EffectApplication, e, None)
  | Ok canvas =>
  match mkdir_processed E with
  | Raise e => Some (Saving, e, None)
  | Ok _ =>
  match save_png E (text_path E background_path) canvas with
  | Raise e => Some (Saving, e, None)
  | Ok _ =>
  match upload_image E (text_path E background_path) with
  | Raise e => Some (Upload, e, Some canvas)
  | Ok _ => None
  end end end end end end end end.

(** ** A concrete environment

    A small instance of the collaborators, used to evaluate the model on
    concrete requests: [cos] and [sin] are tabulated at the angles the
    renderer uses (the doubles a common libm returns), every string
    measures 40 by 20, every font opens, every file exists, and the
    storage service answers with an object that stands for its URL. *)

Definition trig_table : list (Z * (float * float)) :=
  [ (0,   (S754_finite false 4503599627370496 (-52), S754_zero false));
    (30,  (S754_finite false 7800463371553963 (-53),
           S754_finite false 9007199254740991 (-54)));
    (60,  (S754_finite false 4503599627370497 (-53),
           S754_finite false 7800463371553962 (-53)));
    (90,  (S754_finite false 4967757600021511 (-106),
           S754_finite false 4503599627370496 (-52)));
    (120, (S754_finite true 9007199254740988 (-54),
           S754_finite false 7800463371553963 (-53)));
    (150, (S754_finite true 7800463371553963 (-53),
           S754_finite false 9007199254740991 (-54)));
    (180, (S754_finite true 4503599627370496 (-52),
           S754_finite false 4967757600021511 (-105)));
    (210, (S754_finite true 7800463371553962 (-53),
           S754_finite true 4503599627370497 (-53)));
    (240, (S754_finite true 4503599627370500 (-53),
           S754_finite true 7800463371553960 (-53)));
    (270, (S754_finite true 7451636400032266 (-105),
           S754_finite true 4503599627370496 (-52)));
    (300, (S754_finite false 4503599627370497 (-53),
           S754_finite true 7800463371553962 (-53)));
    (330, (S754_finite false 7800463371553960 (-53),
           S754_finite true 4503599627370500 (-53)));
    (45,  (S754_finite false 6369051672525773 (-53),
           S754_finite false 6369051672525772 (-53))) ].

Definition demo_trig (x : float) : float * float :=
  match find (fun row => SFeqb x (radians (lit (fst row)))) trig_table with
  | Some row => snd row
  | None => (lit 1, lit 0)
  end.

Definition demo_env : env :=
  {| math_cos := fun x => fst (demo_trig x);
     math_sin := fun x => snd (demo_trig x);
     textbbox := fun _ _ => (0, 0, 40, 20);
     truetype := fun name size => Ok (TrueType name size);
     path_exists := fun _ => true;
     isfile := fun _ => true;
     path_join := fun a b => (a ++ "/" ++ b)%string;
     base_dir := "/srv/app";
     http_download := fun _ => Ok "/tmp/download.png";
     image_open := fun _ => Ok (mkImage 800 600 []);
     mkdir_processed := Ok tt;
     output_stem := fun _ => "photo";
     time_now := 1700000000;
     save_png := fun _ _ => Ok tt;
     upload_image := fun path => Ok ("https://cdn.example/" ++ path)%string;
     result_url := fun info => Ok info |}.

(** The same environment with a storage service that is down. *)
Definition demo_env_no_upload : env :=
  {| math_cos := math_cos demo_env;
     math_sin := math_sin demo_env;
     textbbox := textbbox demo_env;
     truetype := truetype demo_env;
     path_exists := path_exists demo_env;
     isfile := isfile demo_env;
     path_join := path_join demo_env;
     base_dir := base_dir demo_env;
     http_download := http_download demo_env;
     image_open := image_open demo_env;
     mkdir_processed := mkdir_processed demo_env;
     output_stem := output_stem demo_env;
     time_now := time_now demo_env;
     save_png := save_png demo_env;
     upload_image := fun _ => raise_ Exception "S3 upload failed";
     result_url := result_url demo_env |}.

(** The same environment without any font file or system font. *)
Definition demo_env_no_fonts : env :=
  {| math_cos := math_cos demo_env;
     math_sin := math_sin demo_env;
     textbbox := textbbox demo_env;
     truetype := fun _ _ => raise_ OSError "cannot open resource";
     path_exists := fun _ => false;
     isfile := isfile demo_env;
     path_join := path_join demo_env;
     base_dir := base_dir demo_env;
     http_download := http_download demo_env;
     image_open := image_open demo_env;
     mkdir_processed := mkdir_processed demo_env;
     output_stem := output_stem demo_env;
     time_now := time_now demo_env;
     save_png := save_png demo_env;
     upload_image := upload_image demo_env;
     result_url := result_url demo_env |}.

Definition empty_world : world := mkWorld [] [].

(** Requests on that environment: the text ["Hi"] anchored at
    (100, 100), plain and with each effect. *)

Definition demo_anchor : position := PosTuple [100; 100].

Definition unified (effect_type : string) (st : settings)
  : option effects_dict :=
  Some (mkEffects (Some effect_type) (Some st) None false).

Definition demo_render (effects : option effects_dict)
  : result unit * canvas :=
  apply_text_effects demo_env "Hi" demo_anchor BuiltinDefault "#FFFFFF"
                     effects [].

Definition demo_shadow : settings :=
  mkSettings (Some [5; 5]) (Some "#FF0000") (Some f0_5) (Some 3)
             None None None None None None.

Definition demo_outline : settings :=
  mkSettings None (Some "#000000") (Some (lit 1)) None (Some 2)
             None None None None None.

Definition demo_glow : settings :=
  mkSettings None (Some "#FFFFFF") (Some f0_7) None None (Some 10)
             None None None None.

Definition demo_depth : settings :=
  mkSettings None None None None None None (Some 10) (Some (lit 45))
             (Some (lit 2)) (Some ["#333333"; "#666666"; "#999999"]).

Definition sparkle : effects_dict := mkEffects (Some "sparkle") None None false.

Definition demo_layer (text : string) (effects : option effects_dict)
  : TextLayer :=
  mkTextLayer text (mkPos (Some (NInt 100)) (Some (NInt 100)))
              (mkStyle None None None effects).

Definition anton_120 : font := TrueType "assets/fonts/Anton-Regular.ttf" 120.

Definition no_draw : draw_call := mkDraw (0, 0) "" (FillStr "") BuiltinDefault.

(** ** Previews: [generate_font_size_previews] *)

Definition preview_sizes : list Z := [80; 100; 120; 150; 180; 220].

(** [d[k] = v] on a dict, kept in insertion order. *)
Fixpoint dict_set {V} (d : list (string * V)) (k : string) (v : V)
  : list (string * V) :=
  match d with
  | [] => [(k, v)]
  | (k', v') :: d' =>
      if String.eqb k k' then (k', v) :: d' else (k', v') :: dict_set d' k v
  end.

Section Previews.

(** The renders of one call come one after the other: [Es size] is the
    environment (clock, file system, network) that the render of [size]
    runs in. *)
Variable Es : Z -> env.
Variables (background_path text : string) (pos : pos_dict)
          (font_name : string).

(** The loop over the sizes, with the dict of previews built so far. *)
Fixpoint previews_loop (sizes : list Z) (previews : list (string * string))
  : M world (list (string * string)) :=
  match sizes with
  | [] => ret previews
  | size :: rest =>
      r <- add_text (Es size) background_path text pos size "#FFFFFF"
                    font_name None ;;
      let info := snd r in
      previews_loop rest
        (dict_set previews (PyStr.of_Z size) (info_cloud_url info))
  end.

Definition generate_font_size_previews
  : M world (list Z * list (string * string)) :=
  let sizes := preview_sizes in
  previews <- previews_loop sizes [] ;;
  ret (sizes, previews).

End Previews.

(** ** Position suggestions: [_suggest_text_positions] *)

Definition fadd : float -> float -> float := SFadd prec emax.

(** The pixels of a decoded image, as [np.array] reads them: an array of
    shape [(height, width, bands)] whose element [[y][x][b]] is
    [px_at y x b]; an image of a single band gives an array of two
    dimensions. *)
Record pixels := mkPixels {
  px_width : Z;
  px_height : Z;
  px_bands : Z;
  px_at : Z -> Z -> Z -> Z
}.

(** One suggested position: the dict with ['x'], ['y'] and ['score']. *)
Record suggestion := mkSuggestion {
  sg_x : Z;
  sg_y : Z;
  sg_score : num
}.

(** A bound [i] of a slice [a[i:j]] on an axis of length [n]. *)
Definition slice_index (i n : Z) : Z :=
  if i <? 0 then Z.max (i + n) 0 else Z.min i n.

(** The indices [a[i:j]] selects on an axis of length [n]. *)
Definition slice_range (i j n : Z) : list Z :=
  range (slice_index i n) (slice_index j n).

(** The values of the bands [bands] over the rows [ys] and the columns
    [xs], row by row. *)
Definition region_values (a : pixels) (ys xs bands : list Z) : list Z :=
  flat_map (fun y => flat_map (fun x => map (px_at a y x) bands) xs) ys.

(** A number as a float, for a comparison or a subtraction with a
    float. *)
Definition num_float (v : num) : float :=
  match v with
  | NInt z => lit z
  | NFloat x => x
  end.

(** [a < b] on numbers. *)
Definition num_lt (a b : num) : bool := SFltb (num_float a) (num_float b).

(** [255 - avg] *)
Definition score_of (avg : num) : num :=
  match avg with
  | NInt z => NInt (255 - z)
  | NFloat x => NFloat (fsub (lit 255) x)
  end.

(** [int(extent * (idx + 0.5) / grid_size - text_extent / 2)] with
    [grid_size = 3] *)
Definition grid_coordinate (extent text_extent idx : Z) : result Z :=
  ef <~ of_int extent ;;
  let cell := fdiv (fmul ef (fadd (lit idx) f0_5)) (lit 3) in
  half <~ int_truediv text_extent 2 ;;
  py_int (fsub cell half).

(** [positions.sort(key=lambda p: p["score"], reverse=True)]: a stable
    sort by descending score, written as the insertion of each element
    behind the elements that are not below it. *)
Fixpoint insert_by_score (p : suggestion) (l : list suggestion)
  : list suggestion :=
  match l with
  | [] => [p]
  | q :: l' =>
      if num_lt (sg_score q) (sg_score p) then p :: q :: l'
      else q :: insert_by_score p l'
  end.

Definition sort_by_score (l : list suggestion) : list suggestion :=
  fold_left (fun sorted p => insert_by_score p sorted) l [].

Section Suggestions.

(** [np.mean] over the values of a region that is not empty. *)
Variable np_mean : list Z -> float.

Variable background : pixels.
Variable text_size : Z * Z.

(** The body of the two loops: the candidate of one cell of the grid, if
    it is kept. *)
Definition grid_candidate (has_alpha : bool) (y_idx x_idx : Z)
  : result (option suggestion) :=
  let width := px_width background in
  let height := px_height background in
  x_pos <~ grid_coordinate width (fst text_size) x_idx ;;
  y_pos <~ grid_coordinate height (snd text_size) y_idx ;;
  let x_pos := Z.max 10 (Z.min (width - fst text_size - 10) x_pos) in
  let y_pos := Z.max 10 (Z.min (height - snd text_size - 10) y_pos) in
  let ys := slice_range y_pos (Z.min (y_pos + snd text_size) height) height in
  let xs := slice_range x_pos (Z.min (x_pos + fst text_size) width) width in
  let size :=
    Z.of_nat (List.length ys) * Z.of_nat (List.length xs)
    * px_bands background in
  if has_alpha then
    let avg_alpha :=
      if 0 <? size then NFloat (np_mean (region_values background ys xs [3]))
      else NInt 0 in
    if num_lt avg_alpha (NInt 128)
    then Ok (Some (mkSuggestion x_pos y_pos (score_of avg_alpha)))
    else Ok None
  else
    let avg_brightness :=
      if 0 <? size
      then NFloat (np_mean (region_values background ys xs
                                          (range 0 (px_bands background))))
      else NInt 0 in
    Ok (Some (mkSuggestion x_pos y_pos (score_of avg_brightness))).

(** The two loops over the grid, with the positions collected so far. *)
Fixpoint grid_loop (has_alpha : bool) (cells : list (Z * Z))
         (positions : list suggestion) : result (list suggestion) :=
  match cells with
  | [] => Ok positions
  | (y_idx, x_idx) :: rest =>
      c <~ grid_candidate has_alpha y_idx x_idx ;;
      grid_loop has_alpha rest
                (match c with
                 | Some p => positions ++ [p]
                 | None => positions
                 end)
  end.

Definition _suggest_text_positions : result (list suggestion) :=
  if px_bands background <=? 1
  then raise_ IndexError "tuple index out of range"
  else
    let has_alpha := px_bands background =? 4 in
    positions <~ grid_loop has_alpha (list_prod (range 0 3) (range 0 3)) [] ;;
    Ok (firstn 3 (sort_by_score positions)).

End Suggestions.

(** ** Templates *)

(** [_get_social_media_dimensions]: the sizes by template name, the
    square one for a name that is not listed. *)
Definition templates : list (string * (Z * Z)) :=
  [ ("instagram_post", (1080, 1080));
    ("instagram_story", (1080, 1920));
    ("facebook_post", (1200, 630));
    ("twitter_post", (1600, 900));
    ("linkedin_post", (1200, 627));
    ("youtube_thumbnail", (1280, 720));
    ("tiktok_video", (1080, 1920)) ].

Definition _get_social_media_dimensions (template_name : string) : Z * Z :=
  match dict_get templates template_name with
  | Some size => size
  | None => (1080, 1080)
  end.

(** [a / b] on two floats *)
Definition float_truediv (a b : float) : result float :=
  match b with
  | S754_zero _ => raise_ ZeroDivisionError "float division by zero"
  | _ => Ok (fdiv a b)
  end.

(** The arithmetic of [create_template]: from the template size, the
    size of the foreground and the padding, the size the foreground is
    resized to and the corner it is pasted at. *)
Definition template_layout (width height fg_width fg_height
                            padding_percent : Z)
  : result ((Z * Z) * (Z * Z)) :=
  fg_aspect <~ int_truediv fg_width fg_height ;;
  let padding_px := Z.min width height * padding_percent / 100 in
  let avail_width := width - 2 * padding_px in
  let avail_height := height - 2 * padding_px in
  box_aspect <~ int_truediv avail_width avail_height ;;
  size <~ (if SFltb fg_aspect box_aspect
           then
             let new_height := avail_height in
             hf <~ of_int new_height ;;
             new_width <~ py_int (fmul hf fg_aspect) ;;
             Ok (new_width, new_height)
           else
             let new_width := avail_width in
             wf <~ of_int new_width ;;
             q <~ float_truediv wf fg_aspect ;;
             new_height <~ py_int q ;;
             Ok (new_width, new_height)) ;;
  let '(new_width, new_height) := size in
  let pos_x := (width - new_width) / 2 in
  let pos_y := (height - new_height) / 2 in
  Ok ((new_width, new_height), (pos_x, pos_y)).

(** What [_get_image_from_url] gets from the network: an image, a failed
    request, or a response that is no image. *)
Inductive fetched :=
| Fetched (im : image)
| RequestFailed (msg : string)
| NotAnImage (msg : string).

(** The raster operations of the imaging library the templates and the
    compositions use. *)
Record raster := mkRaster {
  requests_get : string -> fetched;
  image_new : Z * Z -> string -> result image;
  image_resize : image -> Z * Z -> result image;
  image_paste : image -> image -> Z * Z -> result image;
  alpha_composite : image -> image -> result image
}.

Section Templates.

Variable E : env.
Variable R : raster.

Definition _get_image_from_url (url : string) : result image :=
  match requests_get R url with
  | Fetched im => Ok im
  | RequestFailed msg =>
      raise_ ValueError ("Failed to fetch image from URL: " ++ msg)%string
  | NotAnImage msg =>
      raise_ ValueError ("Failed to process image: " ++ msg)%string
  end.

Definition create_template (foreground_path background_color
                            template_name : string) (padding_percent : Z)
  : M world string :=
  foreground <- lift (if PyStr.startswith "http" foreground_path
                      then _get_image_from_url foreground_path
                      else image_open E foreground_path) ;;
  let '(width, height) := _get_social_media_dimensions template_name in
  background <- lift (image_new R (width, height) background_color) ;;
  layout <- lift (template_layout width height (im_width foreground)
                    (im_height foreground) padding_percent) ;;
  let '(new_size, pos) := layout in
  foreground_resized <- lift (image_resize R foreground new_size) ;;
  background <- lift (image_paste R background foreground_resized pos) ;;
  let template_path :=
    ("uploads/processed/template_" ++ template_name ++ "_"
       ++ PyStr.of_Z (time_now E) ++ ".png")%string in
  save E template_path background ;;;
  cloud_url <- upload E template_path ;;
  ret cloud_url.


End Templates.

(** ** Position suggestions: the entry point *)

Section SuggestPositions.

Variable E : env.
Variable R : raster.

(** [np.array(background)] *)
Variable np_array : image -> pixels.

Variable np_mean : list Z -> float.

(** [suggest_text_positions]: the text is measured on a scratch image
    of one pixel, and the positions are those of
    [_suggest_text_positions] on the decoded background. *)
Definition suggest_text_positions (background_path text : string)
           (font_size : Z) (font_name : string)
  : result (list suggestion) :=
  background <~ (if PyStr.startswith "http" background_path
                 then _get_image_from_url R background_path
                 else image_open E background_path) ;;
  font <~ get_font E font_name font_size ;;
  let '(x0, y0, x1, y1) := textbbox E text font in
  let text_width := x1 - x0 in
  let text_height := y1 - y0 in
  _suggest_text_positions np_mean (np_array background)
                          (text_width, text_height).

End SuggestPositions.

(** ** Further notions used in the statements *)

(** Every character. *)
Definition all_ascii : list ascii := map ascii_of_nat (seq 0 256).

(** What [hex_color.lstrip('#')] leaves. *)
Definition hex_body (hex_color : string) : string := PyStr.lstrip "#" hex_color.

(** A literal of at most two characters read by [int(s, 16)] stays
    within these bounds. *)
Definition int16_in_range (s : string) : bool :=
  match PyStr.int16 s with
  | Ok v => (-15 <=? v) && (v <=? 255)
  | Raise _ => true
  end.

(** The colour and the opacity an effect of the unified format reads
    from its settings, with the defaults of its branch. *)
Definition effect_color (effect_type : string) (st : settings) : string :=
  get_or (st_color st)
         (if String.eqb effect_type "glow" then "#FFFFFF" else "#000000").

Definition effect_opacity (effect_type : string) (st : settings) : float :=
  get_or (st_opacity st)
         (if String.eqb effect_type "shadow" then f0_5
          else if String.eqb effect_type "outline" then lit 1
          else f0_7).

(** [image_path.startswith(('http://', 'https://'))] *)
Definition is_url (image_path : string) : bool :=
  PyStr.startswith "http://" image_path
  || PyStr.startswith "https://" image_path.

(** The paths [_resolve_image_path] probes for a path that is not a URL,
    in the order it probes them. *)
Definition candidate_paths (E : env) (image_path : string) : list string :=
  if PyStr.startswith "/uploads/" image_path
  then [ image_path;
         path_join E (base_dir E) (PyStr.drop 1 image_path);
         path_join E "uploads" (PyStr.drop 9 image_path) ]
  else [ image_path; path_join E (base_dir E) image_path ].

(** The last character of a string. *)
Fixpoint last_char (s : string) : option ascii :=
  match s with
  | EmptyString => None
  | String c EmptyString => Some c
  | String _ s' => last_char s'
  end.

Definition ends_with_punctuation (s : string) : bool :=
  match last_char s with
  | Some c => PyStr.contains c ".!?"
  | None => false
  end.

(** The text [add_dramatic_text] hands to [add_text]. *)
Definition dramatic_processed_text (text : string)
           (with_period to_uppercase : bool) : string :=
  let processed_text := if to_uppercase then PyStr.upper text else text in
  if with_period && negb (ends_with_punctuation processed_text)
  then (processed_text ++ ".")%string
  else processed_text.

(** The effects [add_dramatic_text] hands to [add_text]. *)
Definition final_effects (effects : option effects_dict)
  : option effects_dict :=
  if truthy effects then effects else Some dramatic_shadow.

(** An error re-raised by an entry point under its own prefix. *)
Definition rewrap {A} (prefix : string) (r : result A) : result A :=
  match r with
  | Ok a => Ok a
  | Raise e => Raise (mkExn ValueError (prefix ++ exn_str e))
  end.

(** The path [add_multiple_text_layers] saves under. *)
Definition multilayer_path (E : env) : string :=
  ("uploads/public/multilayer_" ++ PyStr.of_Z (time_now E) ++ ".png")%string.

(** The arguments [add_multiple_text_layers] renders a layer with. *)
Definition layer_font_size (layer : TextLayer) : Z :=
  get_or (sy_font_size (tl_style layer)) 120.
Definition layer_color (layer : TextLayer) : string :=
  get_or (sy_color (tl_style layer)) "#FFFFFF".
Definition layer_font_name (layer : TextLayer) : string :=
  get_or (sy_font_name (tl_style layer)) "anton".

(** The files and uploads of [d], newest first, on top of those of [w]. *)
Definition world_app (d w : world) : world :=
  mkWorld (w_files d ++ w_files w) (w_uploads d ++ w_uploads w).

(** A call of [generate_font_size_previews]: its arguments, and the
    environment each of its renders runs in. *)
Record preview_call := mkPreviewCall {
  pc_env : Z -> env;
  pc_background_path : string;
  pc_text : string;
  pc_position : pos_dict;
  pc_font_name : string
}.

Definition run_previews (c : preview_call)
  : M world (list Z * list (string * string)) :=
  generate_font_size_previews (pc_env c) (pc_background_path c) (pc_text c)
                              (pc_position c) (pc_font_name c).

(** The render of one size, started from a world without files. *)
Definition preview_run (c : preview_call) (size : Z)
  : result (string * text_info) * world :=
  add_text (pc_env c size) (pc_background_path c) (pc_text c) (pc_position c)
           size "#FFFFFF" (pc_font_name c) None empty_world.

Definition preview_succeeds (c : preview_call) (size : Z) : bool :=
  match fst (preview_run c size) with
  | Ok _ => true
  | Raise _ => false
  end.

(** The URL of the preview of one size, and what its render leaves
    behind. *)
Definition preview_url (c : preview_call) (size : Z) : string :=
  match fst (preview_run c size) with
  | Ok r => info_cloud_url (snd r)
  | Raise _ => ""
  end.

Definition preview_delta (c : preview_call) (size : Z) : world :=
  snd (preview_run c size).

(** The world after the renders of [sizes], in that order. *)
Definition after_previews (c : preview_call) (sizes : list Z) (w : world)
  : world :=
  fold_left (fun w size => world_app (preview_delta c size) w) sizes w.

(** The text box of a suggestion keeps clear of the left and the top
    edge by 10 pixels, and of the right and the bottom edge wherever the
    image has room for the text and both margins. *)
Definition within_margins (background : pixels) (tw th : Z) (p : suggestion)
  : Prop :=
  10 <= sg_x p /\ 10 <= sg_y p
  /\ (tw + 20 <= px_width background ->
      sg_x p + tw <= px_width background - 10)
  /\ (th + 20 <= px_height background ->
      sg_y p + th <= px_height background - 10).

(** The scores never increase along the list. *)
Fixpoint never_increases (l : list suggestion) : bool :=
  match l with
  | p :: (q :: _) as l' =>
      negb (num_lt (sg_score p) (sg_score q)) && never_increases l'
  | _ => true
  end.

(** ** Notions of the renderer's arithmetic *)

(** [0 <= o <= 1] for a double [o]. *)
Definition in_unit_interval (o : float) : bool :=
  valid_binary prec emax o && SFleb (lit 0) o && SFleb o (lit 1).

(** [pi / 180] as [math.radians] has it: the double
    0.017453292519943295, [0x3F91DF46A2529D39]. *)
Definition pi_over_180 : float := S754_finite false 5030569068109113 (-58).

(** [math.radians] of the twelve angles of a glow ring: the doubles
    0.0, 0.5235987755982988, 1.0471975511965976, 1.5707963267948966,
    2.0943951023931953, 2.6179938779914944, 3.141592653589793,
    3.6651914291880923, 4.1887902047863905, 4.71238898038469,
    5.235987755982989 and 5.759586531581287. *)
Definition ring_radians : list float :=
  [ S754_zero false;
    S754_finite false 4716158501352293 (-53);
    S754_finite false 4716158501352293 (-52);
    S754_finite false 7074237752028440 (-52);
    S754_finite false 4716158501352293 (-51);
    S754_finite false 5895198126690367 (-51);
    S754_finite false 7074237752028440 (-51);
    S754_finite false 8253277377366514 (-51);
    S754_finite false 4716158501352293 (-50);
    S754_finite false 5305678314021330 (-50);
    S754_finite false 5895198126690367 (-50);
    S754_finite false 6484717939359403 (-50) ].

(** A string of 7-bit characters. *)
Definition is_ascii (s : string) : bool :=
  forallb (fun c => PyStr.code c <? 128) (list_ascii_of_string s).

(** ** The rasteriser's check of a fill

    [draw.text] resolves its [fill] to an ink before it draws, and
    raises [ValueError] for a colour string it does not know (the
    string ["FF0000"], without its ['#'], is one).  Which fills it
    knows is the imaging library's matter: the check is a parameter,
    [getink].  The canvas of the embedding lists the calls in the order
    they are issued.  The renderer has no handler around a draw and
    never reads the canvas, so a run of it against the rasteriser is
    its run in the embedding cut at the first call whose fill is
    refused: the calls before that one are made, that one raises, and
    nothing after it happens. *)

Section Rasteriser.

Variable getink : fill -> result unit.

(** The calls of [ds] the rasteriser makes, and the error that ends
    them when one is refused. *)
Fixpoint made (ds : list draw_call) : list draw_call * option exn :=
  match ds with
  | [] => ([], None)
  | d :: ds' =>
      match getink (dc_fill d) with
      | Ok _ => let '(ms, e) := made ds' in (d :: ms, e)
      | Raise e => ([], Some e)
      end
  end.

(** A run that issues the calls [ds] and then ends with [r], on the
    rasteriser: what it ends with, and the calls that are made. *)
Definition cut {A} (r : result A) (ds : list draw_call)
  : result A * list draw_call :=
  match made ds with
  | (ms, None) => (r, ms)
  | (ms, Some e) => (Raise e, ms)
  end.

Definition rasterised {A} (m : M canvas A) : M canvas A :=
  fun cv =>
    let '(r, cv') := m cv in
    let '(r', ms) := cut r (skipn (List.length cv) cv') in
    (r', cv ++ ms).

End Rasteriser.

(** ** Further concrete requests *)

Definition bad_glow : settings :=
  mkSettings None (Some "#GGGGGG") None None None None None None None None.

Definition flat_depth : settings :=
  mkSettings None None None None None None (Some 0) None None (Some []).

Definition no_glow : settings :=
  mkSettings None None None None None (Some 0) None None None None.

Definition thin_outline : settings :=
  mkSettings None None None None (Some (-3)) None None None None None.

Definition legacy_red : effects_dict :=
  mkEffects None None (Some (mkLegacyShadow (Some [3; 4; 9]) (Some "red")))
            false.

Definition legacy_short : effects_dict :=
  mkEffects None None (Some (mkLegacyShadow (Some [3]) None)) false.

(** Six previews of ["Hi"] on the concrete environment, whose clock
    stands still; and the same with a storage service that is down
    during the render of size 120. *)
Definition demo_previews : preview_call :=
  mkPreviewCall (fun _ => demo_env) "photo.png" "Hi"
                (mkPos (Some (NInt 100)) (Some (NInt 100))) "anton".

Definition demo_previews_outage : preview_call :=
  mkPreviewCall (fun size => if size =? 120 then demo_env_no_upload
                             else demo_env)
                "photo.png" "Hi"
                (mkPos (Some (NInt 100)) (Some (NInt 100))) "anton".

(** A mean for the concrete environment: the quotient of the sum by the
    count, rounded once. *)
Definition demo_mean (vs : list Z) : float :=
  match int_truediv (fold_right Z.add 0 vs) (Z.of_nat (List.length vs)) with
  | Ok q => q
  | Raise _ => S754_zero false
  end.

(** An RGBA image of 300 by 200 pixels, opaque on its left half, and
    more and more transparent towards the bottom of its right half. *)
Definition demo_pixels : pixels :=
  mkPixels 300 200 4
           (fun y x b => if b =? 3 then (if x <? 150 then 255 else 100 - y / 2)
                         else 128).

(** The same image without its alpha band. *)
Definition demo_pixels_rgb : pixels :=
  mkPixels 300 200 3 (fun y x b => (x + y + b) mod 256).

(** Raster operations that keep sizes only: a new image and a resized
    one have the size asked for, a paste and a composite keep the
    background. *)
Definition demo_raster : raster :=
  {| requests_get := fun _ => Fetched (mkImage 640 480 []);
     image_new := fun size _ => Ok (mkImage (fst size) (snd size) []);
     image_resize := fun im size =>
                       Ok (mkImage (fst size) (snd size) (im_draws im));
     image_paste := fun background _ _ => Ok background;
     alpha_composite := fun background _ => Ok background |}.

(** Every decoded image read as an opaque grey RGBA array of its size. *)
Definition demo_array (im : image) : pixels :=
  mkPixels (im_width im) (im_height im) 4
           (fun _ _ b => if b =? 3 then 255 else 128).

(** A rasteriser that knows the colour strings that start with ['#']
    and every RGBA tuple. *)
Definition demo_getink (f : fill) : result unit :=
  match f with
  | FillRGBA _ => Ok tt
  | FillStr s =>
      if PyStr.startswith "#" s then Ok tt
      else raise_ ValueError ("unknown color specifier: '" ++ s ++ "'")
  end.

(** A glow of radius 90, a depth effect of thirty layers at 30 degrees
    and distance 0.2, and a depth effect without colours. *)
Definition f0_2 : float := fdiv (lit 1) (lit 5).

Definition wide_glow : settings :=
  mkSettings None None None None None (Some 90) None None None None.

Definition steep_depth : settings :=
  mkSettings None None None None None None (Some 30) (Some (lit 30))
             (Some f0_2) None.

Definition no_colours : settings :=
  mkSettings None None None None None None (Some 1) None None (Some []).

(** A glow of radius 10 with the negative opacity -0.5. *)
Definition dark_glow : settings :=
  mkSettings None None (Some (fdiv (lit (-1)) (lit 2))) None None None
             None None None None.

(** The concrete environment with a storage service whose answer is a
    plain string, which has no item ['url']. *)
Definition demo_env_plain_answer : env :=
  {| math_cos := math_cos demo_env;
     math_sin := math_sin demo_env;
     textbbox := textbbox demo_env;
     truetype := truetype demo_env;
     path_exists := path_exists demo_env;
     isfile := isfile demo_env;
     path_join := path_join demo_env;
     base_dir := base_dir demo_env;
     http_download := http_download demo_env;
     image_open := image_open demo_env;
     mkdir_processed := mkdir_processed demo_env;
     output_stem := output_stem demo_env;
     time_now := time_now demo_env;
     save_png := save_png demo_env;
     upload_image := upload_image demo_env;
     result_url := fun _ =>
       raise_ Exception "string indices must be integers, not 'str'" |}.

(** The concrete environment after the upload [/uploads/a.png] was
    moved: the path as given is no file, the two other locations are. *)
Definition demo_env_moved : env :=
  {| math_cos := math_cos demo_env;
     math_sin := math_sin demo_env;
     textbbox := textbbox demo_env;
     truetype := truetype demo_env;
     path_exists := path_exists demo_env;
     isfile := fun path => negb (String.eqb path "/uploads/a.png");
     path_join := path_join demo_env;
     base_dir := base_dir demo_env;
     http_download := http_download demo_env;
     image_open := image_open demo_env;
     mkdir_processed := mkdir_processed demo_env;
     output_stem := output_stem demo_env;
     time_now := time_now demo_env;
     save_png := save_png demo_env;
     upload_image := upload_image demo_env;
     result_url := result_url demo_env |}.

(** * Lemmas on binary64 arithmetic *)

Module FloatFacts.

(** The embedding computes what the interpreter computes. *)
Example third : int_truediv 1 3 = Ok (S754_finite false 0x15555555555555 (-54)).
Proof. reflexivity. Qed.

Example half_turn : radians (lit 180) = pi.
Proof. reflexivity. Qed.

Example alpha_of_0_7 : py_int (fmul (lit 255) f0_7) = Ok 178.
Proof. reflexivity. Qed.

(** [(1 / 49) * 49] is just below 1: truncation sees the rounding. *)
Example rounding_shows :
  (q <~ int_truediv 1 49 ;; n <~ of_int 49 ;; py_int (fmul q n)) = Ok 0.
Proof. reflexivity. Qed.

Lemma digits2_log2 (p : positive) :
  Zpos (digits2_pos p) = Z.log2 (Zpos p) + 1.
Proof.
  induction p as [p IH | p IH | ].
  - cbn [digits2_pos]. rewrite Pos2Z.inj_succ, IH.
    rewrite (Pos2Z.inj_xI p), Z.log2_succ_double by lia. lia.
  - cbn [digits2_pos]. rewrite Pos2Z.inj_succ, IH.
    rewrite (Pos2Z.inj_xO p), Z.log2_double by lia. lia.
  - reflexivity.
Qed.

Lemma nat_iter_xO (k : nat) (m : positive) :
  Zpos (Nat.iter k xO m) = Zpos m * 2 ^ Z.of_nat k.
Proof.
  induction k as [ | k IH].
  - cbn. lia.
  - change (Nat.iter (S k) xO m) with (xO (Nat.iter k xO m)).
    rewrite Pos2Z.inj_xO, IH, Nat2Z.inj_succ, Z.pow_succ_r by lia.
    lia.
Qed.

Lemma pos_iter_xO (n m : positive) :
  Zpos (Pos.iter xO m n) = Zpos m * 2 ^ Zpos n.
Proof.
  rewrite Pos2Nat.inj_iter.
  change (nat_rect (fun _ => positive) m (fun _ => xO) (Pos.to_nat n))
    with (Nat.iter (Pos.to_nat n) xO m).
  rewrite nat_iter_xO, positive_nat_Z. reflexivity.
Qed.

(** [iter_pos] iterates [Pos.to_nat p] times. *)
Lemma iter_pos_nat {A} (f : A -> A) (p : positive) (x : A) :
  iter_pos f p x = Nat.iter (Pos.to_nat p) f x.
Proof.
  revert x. induction p as [p IH | p IH | ]; intros x; cbn [iter_pos].
  - rewrite !IH, Pos2Nat.inj_xI.
    replace (S (2 * Pos.to_nat p)) with (Pos.to_nat p + (Pos.to_nat p + 1))%nat by lia.
    rewrite !Nat.iter_add. reflexivity.
  - rewrite !IH, Pos2Nat.inj_xO.
    replace (2 * Pos.to_nat p)%nat with (Pos.to_nat p + Pos.to_nat p)%nat by lia.
    rewrite Nat.iter_add. reflexivity.
  - reflexivity.
Qed.

(** Shifting out [k] zero bits leaves no round or sticky bit. *)
Lemma shr_exact (k : nat) (M X : positive) :
  Zpos X = Zpos M * 2 ^ Z.of_nat k ->
  Nat.iter k shr_1 (Build_shr_record (Zpos X) false false)
  = Build_shr_record (Zpos M) false false.
Proof.
  intros HX. rewrite <- nat_iter_xO in HX. injection HX as ->.
  induction k as [ | k IH].
  - reflexivity.
  - rewrite Nat.iter_succ_r.
    change (Nat.iter (S k) xO M) with (xO (Nat.iter k xO M)).
    cbn [shr_1 orb]. exact IH.
Qed.

(** Rounding a mantissa that is a 53-bit number followed by zero bits
    drops the zero bits. *)
Lemma round_exact (s : bool) (X M : positive) (k e : Z) :
  Zpos X = Zpos M * 2 ^ k -> 0 <= k ->
  Zpos (digits2_pos M) = 53 ->
  -1074 <= e + k <= 971 ->
  binary_round_aux prec emax s (Zpos X) e loc_Exact = S754_finite s M (e + k).
Proof.
  intros HX Hk HM He.
  assert (HdX : Zdigits2 (Zpos X) = 53 + k).
  { cbn [Zdigits2]. rewrite digits2_log2, HX, Z.log2_mul_pow2 by lia.
    rewrite digits2_log2 in HM. lia. }
  unfold binary_round_aux, shr_fexp. rewrite HdX.
  assert (Hf1 : fexp prec emax (53 + k + e) - e = k).
  { unfold fexp, emin, prec, emax. lia. }
  rewrite Hf1.
  assert (Hs : shr (shr_record_of_loc (Zpos X) loc_Exact) e k
               = (Build_shr_record (Zpos M) false false, e + k)).
  { unfold shr, shr_record_of_loc. destruct k as [ | p | p ]; [ | | lia ].
    - rewrite Z.pow_0_r, Z.mul_1_r in HX. injection HX as ->.
      rewrite Z.add_0_r. reflexivity.
    - rewrite iter_pos_nat, (shr_exact _ M); [ reflexivity | ].
      rewrite positive_nat_Z. exact HX. }
  rewrite Hs. cbn [shr_m loc_of_shr_record round_nearest_even Zdigits2].
  rewrite HM.
  assert (Hf2 : fexp prec emax (53 + (e + k)) - (e + k) = 0).
  { unfold fexp, emin, prec, emax. lia. }
  rewrite Hf2. cbn [shr shr_record_of_loc shr_m].
  replace (e + k <=? emax - prec) with true; [ reflexivity | ].
  unfold emax, prec. symmetry. apply Z.leb_le. lia.
Qed.

(** A positive [int] below [2^53] converts exactly. *)
Lemma of_int_exact (p : positive) :
  Zpos p < 2 ^ 53 ->
  exists M e,
    of_int (Zpos p) = Ok (S754_finite false M e)
    /\ Zpos (digits2_pos M) = 53
    /\ -52 <= e <= 0
    /\ Zpos M = Zpos p * 2 ^ (- e).
Proof.
  intros Hp.
  pose proof (digits2_log2 p) as Hd.
  assert (Hl : 0 <= Z.log2 (Zpos p) < 53).
  { split; [ apply Z.log2_nonneg | ]. apply Z.log2_lt_pow2; lia. }
  set (d := Zpos (digits2_pos p)) in *.
  assert (Hr : exists M, binary_round prec emax false p 0
                         = S754_finite false M (d - 53)
                         /\ Zpos (digits2_pos M) = 53
                         /\ Zpos M = Zpos p * 2 ^ (53 - d)).
  { unfold binary_round, shl_align.
    assert (Hf : fexp prec emax (d + 0) = d - 53).
    { unfold fexp, emin, prec, emax. lia. }
    fold d. rewrite Hf, Z.sub_0_r.
    destruct (d - 53) as [ | q | q ] eqn:Hq; [ | lia | ].
    - exists p. replace (53 - d) with 0 by lia.
      rewrite (round_exact false p p 0 0); try lia.
      split; [ reflexivity | ]. split; lia.
    - exists (Pos.iter xO p q).
      assert (HM : Zpos (Pos.iter xO p q) = Zpos p * 2 ^ (53 - d)).
      { rewrite pos_iter_xO. f_equal. f_equal. lia. }
      assert (HdM : Zpos (digits2_pos (Pos.iter xO p q)) = 53).
      { rewrite digits2_log2, HM, Z.log2_mul_pow2 by lia. lia. }
      rewrite (round_exact false _ (Pos.iter xO p q) 0 (Zneg q)); try lia.
      rewrite Z.add_0_r. auto. }
  destruct Hr as (M & HR & HdM & HM).
  exists M, (d - 53). unfold of_int, lit, binary_normalize. rewrite HR.
  cbn [is_finite]. repeat split; try lia. rewrite HM. f_equal. f_equal. lia.
Qed.

(** [int(h * 0.375)] is [floor(3h/8)] for every height below [2^51]. *)
Lemma vertical_adjustment_exact (h : Z) :
  0 <= h < 2 ^ 51 -> vertical_adjustment h = Ok (3 * h / 8).
Proof.
  intros Hh. destruct h as [ | p | p ]; [ reflexivity | | lia ].
  destruct (of_int_exact p) as (M & e & Hof & HdM & He & HM); [ lia | ].
  unfold vertical_adjustment. rewrite Hof. cbn [rbind].
  change c0375 with (S754_finite false 6755399441055744 (-54)).
  unfold fmul. cbn [SFmul xorb].
  set (D3 := Z.log2 (3 * Zpos p) + 1).
  assert (HD3 : 2 <= D3 <= 53).
  { unfold D3. split.
    - assert (1 <= Z.log2 (3 * Zpos p)); [ | lia ].
      apply Z.log2_le_pow2; lia.
    - assert (Z.log2 (3 * Zpos p) < 53); [ | lia ].
      apply Z.log2_lt_pow2; lia. }
  set (M' := Z.to_pos (3 * Zpos p * 2 ^ (53 - D3))).
  assert (HM' : Zpos M' = 3 * Zpos p * 2 ^ (53 - D3)).
  { unfold M'. rewrite Z2Pos.id; [ reflexivity | ].
    apply Z.mul_pos_pos; [ lia | apply Z.pow_pos_nonneg; lia ]. }
  assert (HdM' : Zpos (digits2_pos M') = 53).
  { rewrite digits2_log2, HM', Z.log2_mul_pow2 by lia. unfold D3. lia. }
  rewrite (round_exact false _ M' (D3 - 2 - e)); try lia.
  - replace (e + -54 + (D3 - 2 - e)) with (D3 - 56) by lia.
    destruct (D3 - 56) as [ | q | q ] eqn:Hq; [ lia | lia | ].
    cbn [py_int trunc]. f_equal.
    rewrite Z.shiftr_div_pow2, HM' by lia.
    replace (Zpos q) with (53 - D3 + 3) by lia.
    rewrite Z.pow_add_r by lia.
    rewrite (Z.mul_comm (2 ^ (53 - D3)) (2 ^ 3)).
    rewrite Z.div_mul_cancel_r; [ reflexivity | lia | ].
    apply Z.pow_nonzero; lia.
  - rewrite Pos2Z.inj_mul, HM, HM'.
    change (Zpos 6755399441055744) with (3 * 2 ^ 51).
    replace (53 - D3) with (53 - D3 + 0) by lia.
    replace (3 * Zpos p * 2 ^ (53 - D3 + 0) * 2 ^ (D3 - 2 - e))
      with (3 * Zpos p * (2 ^ (53 - D3 + 0) * 2 ^ (D3 - 2 - e))) by ring.
    rewrite <- Z.pow_add_r by lia.
    replace (Zpos p * 2 ^ (- e) * (3 * 2 ^ 51))
      with (3 * Zpos p * (2 ^ (- e) * 2 ^ 51)) by ring.
    rewrite <- Z.pow_add_r by lia.
    f_equal. f_equal. lia.
Qed.

End FloatFacts.

(** * Magnitude bounds: when binary64 arithmetic stays finite *)

Module FloatBounds.

Import FloatFacts.

Lemma Zdigits2_pos_log2 (m : Z) : 0 < m -> Zdigits2 m = Z.log2 m + 1.
Proof. destruct m as [ | p | p ]; try lia. intros _. apply digits2_log2. Qed.

Lemma Zdigits2_nonneg (m : Z) : 0 <= Zdigits2 m.
Proof. destruct m; cbn; lia. Qed.

Lemma Zdigits2_lt_pow2 (m k : Z) : 0 <= m < 2 ^ k -> 0 <= k -> Zdigits2 m <= k.
Proof.
  intros Hm Hk. destruct (Z.eq_dec m 0) as [-> | Hne]; [ cbn; lia | ].
  rewrite Zdigits2_pos_log2 by lia.
  assert (Z.log2 m < k) by (apply Z.log2_lt_pow2; lia). lia.
Qed.

Lemma lt_pow2_Zdigits2 (m : Z) : 0 <= m -> m < 2 ^ Zdigits2 m.
Proof.
  intros Hm. destruct (Z.eq_dec m 0) as [-> | Hne]; [ cbn; lia | ].
  rewrite Zdigits2_pos_log2 by lia.
  apply Z.log2_spec. lia.
Qed.

Lemma Zdigits2_le (a b : Z) : 0 <= a <= b -> Zdigits2 a <= Zdigits2 b.
Proof.
  intros H. apply Zdigits2_lt_pow2; [ | apply Zdigits2_nonneg ].
  pose proof (lt_pow2_Zdigits2 b). lia.
Qed.

Lemma Zdigits2_succ (m : Z) : 0 <= m -> Zdigits2 (m + 1) <= Zdigits2 m + 1.
Proof.
  intros Hm. apply Zdigits2_lt_pow2.
  - pose proof (lt_pow2_Zdigits2 m Hm) as H.
    rewrite Z.pow_add_r by (try apply Zdigits2_nonneg; lia). lia.
  - pose proof (Zdigits2_nonneg m). lia.
Qed.

Lemma Zdigits2_mul (a b : Z) :
  0 <= a -> 0 <= b -> Zdigits2 (a * b) <= Zdigits2 a + Zdigits2 b.
Proof.
  intros Ha Hb. pose proof (Zdigits2_nonneg a). pose proof (Zdigits2_nonneg b).
  apply Zdigits2_lt_pow2; [ | lia ].
  pose proof (lt_pow2_Zdigits2 a Ha). pose proof (lt_pow2_Zdigits2 b Hb).
  rewrite Z.pow_add_r by lia. nia.
Qed.

Lemma Zdigits2_add (a b : Z) :
  0 <= a -> 0 <= b ->
  Zdigits2 (a + b) <= Z.max (Zdigits2 a) (Zdigits2 b) + 1.
Proof.
  intros Ha Hb. pose proof (Zdigits2_nonneg a). pose proof (Zdigits2_nonneg b).
  apply Zdigits2_lt_pow2; [ | lia ].
  pose proof (lt_pow2_Zdigits2 a Ha). pose proof (lt_pow2_Zdigits2 b Hb).
  rewrite Z.pow_add_r by lia.
  assert (2 ^ Zdigits2 a <= 2 ^ Z.max (Zdigits2 a) (Zdigits2 b))
    by (apply Z.pow_le_mono_r; lia).
  assert (2 ^ Zdigits2 b <= 2 ^ Z.max (Zdigits2 a) (Zdigits2 b))
    by (apply Z.pow_le_mono_r; lia).
  lia.
Qed.

Lemma Zdigits2_div_pow2 (m k : Z) :
  0 <= m -> 0 <= k -> 0 < m / 2 ^ k ->
  Zdigits2 (m / 2 ^ k) = Zdigits2 m - k.
Proof.
  intros Hm Hk Hq.
  assert (0 < m).
  { destruct (Z.eq_dec m 0) as [-> | ]; [ | lia ].
    rewrite Z.div_0_l in Hq; [ lia | ]. apply Z.pow_nonzero; lia. }
  assert (Hk2 : k <= Z.log2 m).
  { apply Z.log2_le_pow2; [ lia | ].
    destruct (Z.lt_ge_cases m (2 ^ k)) as [Hlt | ]; [ | lia ].
    rewrite Z.div_small in Hq by lia. lia. }
  rewrite !Zdigits2_pos_log2 by lia.
  rewrite <- Z.shiftr_div_pow2, Z.log2_shiftr by lia. lia.
Qed.

Lemma shr_1_m (mrs : shr_record) :
  0 <= shr_m mrs -> shr_m (shr_1 mrs) = shr_m mrs / 2.
Proof.
  destruct mrs as [m r s]. cbn [shr_m]. intros Hm.
  destruct m as [ | [p | p | ] | p ]; cbn [shr_1 shr_m]; try lia.
  - reflexivity.
  - rewrite Pos2Z.inj_xI. symmetry.
    rewrite Z.add_comm, Z.mul_comm, Z.div_add by lia. reflexivity.
  - rewrite Pos2Z.inj_xO, Z.mul_comm, Z.div_mul by lia. reflexivity.
  - reflexivity.
Qed.

Lemma shr_iter_m (k : nat) (mrs : shr_record) :
  0 <= shr_m mrs ->
  shr_m (Nat.iter k shr_1 mrs) = shr_m mrs / 2 ^ Z.of_nat k.
Proof.
  intros Hm. induction k as [ | k IH].
  - cbn. now rewrite Z.div_1_r.
  - change (Nat.iter (S k) shr_1 mrs) with (shr_1 (Nat.iter k shr_1 mrs)).
    rewrite shr_1_m, IH.
    + rewrite Nat2Z.inj_succ, Z.pow_succ_r, Z.div_div by lia.
      f_equal. lia.
    + rewrite IH. apply Z.div_pos; lia.
Qed.

Lemma round_nearest_even_bounds (m : Z) (l : location) :
  m <= round_nearest_even m l <= m + 1.
Proof.
  destruct l as [ | [ | | ]]; cbn [round_nearest_even]; try lia.
  destruct (Z.even m); lia.
Qed.

Lemma fexp_le (x B : Z) : x <= B -> 0 <= B -> fexp prec emax x <= B - 53 \/ fexp prec emax x = -1074.
Proof. unfold fexp, emin, prec, emax. lia. Qed.

(** One shift to the target exponent keeps the magnitude. *)
Lemma shr_fexp_bounds (m e : Z) (l : location) (B : Z) :
  0 <= m -> Zdigits2 m + e <= B -> e <= 971 -> 0 <= B <= 1024 ->
  0 <= shr_m (fst (shr_fexp prec emax m e l))
  /\ Zdigits2 (shr_m (fst (shr_fexp prec emax m e l)))
     + snd (shr_fexp prec emax m e l) <= B
  /\ snd (shr_fexp prec emax m e l) <= 971.
Proof.
  intros Hm Hd He HB. unfold shr_fexp, shr.
  assert (Hrec : shr_m (shr_record_of_loc m l) = m)
    by (destruct l as [ | [ | | ]]; reflexivity).
  destruct (fexp prec emax (Zdigits2 m + e) - e) as [ | p | p ] eqn:Hn;
    cbn [fst snd]; rewrite ?Hrec; try (repeat split; lia).
  rewrite iter_pos_nat, shr_iter_m, Hrec, positive_nat_Z by (rewrite Hrec; lia).
  assert (Hq : 0 <= m / 2 ^ Zpos p) by (apply Z.div_pos; lia).
  destruct (fexp_le (Zdigits2 m + e) B Hd ltac:(lia)) as [Hf | Hf].
  - split; [ exact Hq | ]. split; [ | lia ].
    destruct (Z.eq_dec (m / 2 ^ Zpos p) 0) as [-> | Hne]; [ cbn; lia | ].
    rewrite Zdigits2_div_pow2 by lia. lia.
  - split; [ exact Hq | ]. split; [ | lia ].
    destruct (Z.eq_dec (m / 2 ^ Zpos p) 0) as [-> | Hne]; [ cbn; lia | ].
    rewrite Zdigits2_div_pow2 by lia. lia.
Qed.

(** Rounding keeps the sign and at most doubles the magnitude. *)
Lemma round_aux_bounded (s : bool) (m e : Z) (l : location) (B : Z) :
  0 <= m -> Zdigits2 m + e <= B -> e <= 971 -> 0 <= B <= 1023 ->
  let x := binary_round_aux prec emax s m e l in
  bounded_by (B + 1) x = true
  /\ (s = false -> nonneg x = true).
Proof.
  intros Hm Hd He HB. unfold binary_round_aux.
  pose proof (shr_fexp_bounds m e l B Hm Hd He ltac:(lia)) as (H1 & H2 & H3).
  destruct (shr_fexp prec emax m e l) as [mrs' e'] eqn:E1.
  cbn [fst snd] in H1, H2, H3.
  set (m2 := round_nearest_even (shr_m mrs') (loc_of_shr_record mrs')).
  pose proof (round_nearest_even_bounds (shr_m mrs') (loc_of_shr_record mrs')) as Hr.
  fold m2 in Hr.
  assert (Hd2 : Zdigits2 m2 + e' <= B + 1).
  { pose proof (Zdigits2_le m2 (shr_m mrs' + 1) ltac:(lia)).
    pose proof (Zdigits2_succ (shr_m mrs') H1). lia. }
  pose proof (shr_fexp_bounds m2 e' loc_Exact (B + 1) ltac:(lia) Hd2 H3 ltac:(lia))
    as (H4 & H5 & H6).
  destruct (shr_fexp prec emax m2 e' loc_Exact) as [mrs'' e''] eqn:E2.
  cbn [fst snd] in H4, H5, H6. cbn zeta.
  destruct (shr_m mrs'') as [ | p | p ] eqn:Em; [ | | lia ].
  - split; [ reflexivity | intros ->; reflexivity ].
  - replace (e'' <=? emax - prec) with true
      by (symmetry; apply Z.leb_le; unfold emax, prec; lia).
    cbn [bounded_by nonneg]. cbn [Zdigits2] in H5.
    split; [ apply Z.leb_le; lia | intros ->; reflexivity ].
Qed.

Lemma bounded_by_mono (B B' : Z) (x : float) :
  B <= B' -> bounded_by B x = true -> bounded_by B' x = true.
Proof.
  intros HB. destruct x; cbn [bounded_by]; try easy.
  rewrite !Z.leb_le. lia.
Qed.

Lemma bounded_finite (B : Z) (x : float) :
  bounded_by B x = true -> is_finite x = true.
Proof. destruct x; easy. Qed.

Lemma nonneg_trunc (x : float) : nonneg x = true -> 0 <= trunc x.
Proof.
  destruct x as [ | | | [] m e]; cbn [nonneg trunc]; try easy.
  intros _. destruct e; [ | | apply Z.shiftr_nonneg ];
    try apply Z.shiftl_nonneg; lia.
Qed.

(** A product stays finite while the magnitudes add up below the
    largest exponent. *)
Lemma fmul_bounded (Bx By : Z) (x y : float) :
  bounded_by Bx x = true -> bounded_by By y = true ->
  0 <= Bx + By <= 973 ->
  bounded_by (Bx + By + 1) (fmul x y) = true
  /\ (nonneg x = true -> nonneg y = true -> nonneg (fmul x y) = true).
Proof.
  intros Hx Hy HB.
  destruct x as [sx | | | sx mx ex], y as [sy | | | sy my ey];
    try discriminate; cbn [fmul SFmul bounded_by];
    try (split; [ reflexivity | intros; reflexivity ]).
  cbn [bounded_by] in Hx, Hy. apply Z.leb_le in Hx, Hy.
  pose proof (Zdigits2_mul (Zpos mx) (Zpos my) ltac:(lia) ltac:(lia)) as Hd.
  rewrite <- Pos2Z.inj_mul in Hd. cbn [Zdigits2] in Hd.
  destruct (round_aux_bounded (xorb sx sy) (Zpos (mx * my)) (ex + ey)
                              loc_Exact (Bx + By))
    as [Hb Hs]; try (cbn [Zdigits2]; lia).
  split; [ exact Hb | ].
  destruct sx, sy; try discriminate. intros _ _. now apply Hs.
Qed.

Lemma binary_round_bounded (s : bool) (p : positive) (e B : Z) :
  Zpos (digits2_pos p) + e <= B -> 0 <= B <= 1023 ->
  bounded_by (B + 1) (binary_round prec emax s p e) = true
  /\ (s = false -> nonneg (binary_round prec emax s p e) = true).
Proof.
  intros Hd HB. unfold binary_round, shl_align.
  destruct (fexp_le (Zpos (digits2_pos p) + e) B Hd ltac:(lia)) as [Hf | Hf];
    destruct (fexp prec emax (Zpos (digits2_pos p) + e) - e)
    as [ | q | q ] eqn:Hn;
    try (apply round_aux_bounded; cbn [Zdigits2]; lia);
    (apply round_aux_bounded; [ lia | | lia | lia ];
     cbn [Zdigits2]; rewrite digits2_log2, pos_iter_xO, Z.log2_mul_pow2 by lia;
     rewrite digits2_log2 in Hd; lia).
Qed.

(** An [int] below [2^k] converts to a finite double. *)
Lemma lit_bounded (z k : Z) :
  Z.abs z < 2 ^ k -> 0 <= k <= 1023 ->
  bounded_by (k + 1) (lit z) = true
  /\ (0 <= z -> nonneg (lit z) = true).
Proof.
  intros Hz Hk. unfold lit, binary_normalize.
  destruct z as [ | p | p ]; [ easy | | ].
  - destruct (binary_round_bounded false p 0 k) as [Hb Hs]; [ | lia | ].
    + pose proof (Zdigits2_lt_pow2 (Zpos p) k ltac:(lia) ltac:(lia)) as H.
      cbn [Zdigits2] in H. lia.
    + split; [ exact Hb | intros _; now apply Hs ].
  - destruct (binary_round_bounded true p 0 k) as [Hb Hs]; [ | lia | ].
    + pose proof (Zdigits2_lt_pow2 (Zpos p) k ltac:(lia) ltac:(lia)) as H.
      cbn [Zdigits2] in H. lia.
    + split; [ exact Hb | lia ].
Qed.

(** The quotient of two positive [int]s, the first at most the second,
    is a finite double in [[0, 2]]. *)
Lemma int_ratio_bounded (i n : Z) :
  1 <= i <= n ->
  bounded_by 2 (int_ratio i n) = true /\ nonneg (int_ratio i n) = true.
Proof.
  intros Hi. destruct i as [ | pi | pi ]; try lia.
  destruct n as [ | pn | pn ]; try lia.
  unfold int_ratio, fdiv. cbn [Z.ltb Z.compare Z.abs Z.to_pos SFdiv xorb].
  unfold SFdiv_core_binary.
  set (e' := Z.min (fexp prec emax (Zdigits2 (Zpos pi) + 0 - (Zdigits2 (Zpos pn) + 0)))
                   (0 - 0)).
  assert (He' : e' <= 0) by (unfold e'; lia).
  set (m' := match 0 - 0 - e' with
             | 0 => Zpos pi
             | Zpos _ => Z.shiftl (Zpos pi) (0 - 0 - e')
             | Zneg _ => 0
             end).
  assert (Hm' : m' = Zpos pi * 2 ^ (- e')).
  { unfold m'. destruct (0 - 0 - e') as [ | q | q ] eqn:Hq; try lia.
    - replace (- e') with 0 by lia. lia.
    - rewrite Z.shiftl_mul_pow2 by lia. f_equal. f_equal. lia. }
  pose proof (Z_div_mod m' (Zpos pn) ltac:(lia)) as Hdm.
  destruct (Z.div_eucl m' (Zpos pn)) as [q r]. destruct Hdm as [Hq Hr].
  assert (H2 : 0 < 2 ^ (- e')) by (apply Z.pow_pos_nonneg; lia).
  assert (Hq0 : 0 <= q) by nia.
  assert (Hq1 : q <= 2 ^ (- e')) by nia.
  destruct (round_aux_bounded false q e' (new_location (Zpos pn) r) 1)
    as [Hb Hs]; try lia.
  - assert (Zdigits2 q <= - e' + 1); [ | lia ].
    apply Zdigits2_lt_pow2; [ | lia ].
    rewrite Z.pow_add_r by lia. lia.
  - split; [ exact Hb | now apply Hs ].
Qed.

Lemma shl_align_value (m : positive) (e e' : Z) :
  e' <= e ->
  Zpos (fst (shl_align m e e')) = Zpos m * 2 ^ (e - e').
Proof.
  intros He. unfold shl_align.
  destruct (e' - e) as [ | q | q ] eqn:Hq; cbn [fst]; try lia.
  - replace (e - e') with 0 by lia. lia.
  - rewrite pos_iter_xO. f_equal. f_equal. lia.
Qed.

(** A difference stays finite. *)
Lemma fsub_bounded (Bx By : Z) (x y : float) :
  bounded_by Bx x = true -> bounded_by By y = true ->
  0 <= Z.max Bx By + 1 <= 1023 ->
  bounded_by (Z.max Bx By + 2) (fsub x y) = true.
Proof.
  intros Hx Hy HB.
  destruct x as [sx | | | sx mx ex], y as [sy | | | sy my ey];
    try discriminate; cbn [fsub SFsub].
  - destruct sx, sy; reflexivity.
  - cbn [bounded_by] in *. apply Z.leb_le in Hy. apply Z.leb_le. lia.
  - cbn [bounded_by] in *. apply Z.leb_le in Hx. apply Z.leb_le. lia.
  - cbn [bounded_by] in Hx, Hy. apply Z.leb_le in Hx, Hy.
    set (ez := Z.min ex ey).
    pose proof (shl_align_value mx ex ez ltac:(unfold ez; lia)) as Hmx.
    pose proof (shl_align_value my ey ez ltac:(unfold ez; lia)) as Hmy.
    set (ax := Zpos (fst (shl_align mx ex ez))) in *.
    set (ay := Zpos (fst (shl_align my ey ez))) in *.
    assert (Hdx : Zdigits2 ax + ez <= Bx).
    { rewrite Zdigits2_pos_log2, Hmx, Z.log2_mul_pow2 by (unfold ax, ez; lia).
      rewrite digits2_log2 in Hx. lia. }
    assert (Hdy : Zdigits2 ay + ez <= By).
    { rewrite Zdigits2_pos_log2, Hmy, Z.log2_mul_pow2 by (unfold ay, ez; lia).
      rewrite digits2_log2 in Hy. lia. }
    pose proof (Zdigits2_add ax ay ltac:(unfold ax; lia) ltac:(unfold ay; lia))
      as Hadd.
    set (d := cond_Zopp sx ax - cond_Zopp sy ay).
    assert (Hd : Z.abs d <= ax + ay).
    { unfold d. destruct sx, sy; cbn [cond_Zopp]; unfold ax, ay; lia. }
    assert (Hdd : Zdigits2 (Z.abs d) + ez <= Z.max Bx By + 1).
    { pose proof (Zdigits2_le (Z.abs d) (ax + ay) ltac:(lia)). lia. }
    unfold binary_normalize.
    replace (Z.max Bx By + 2) with (Z.max Bx By + 1 + 1) by lia.
    destruct d as [ | p | p ]; [ reflexivity | | ];
      cbn [Z.abs Zdigits2] in Hdd;
      apply (binary_round_bounded _ p ez (Z.max Bx By + 1)); lia.
Qed.

(** Every double in [[0, 1]] is below 2 in magnitude. *)
Lemma unit_interval_bounded (o : float) :
  valid_binary prec emax o = true ->
  SFleb (lit 0) o = true -> SFleb o (lit 1) = true ->
  bounded_by 1 o = true /\ nonneg o = true.
Proof.
  intros Hv H0 H1.
  destruct o as [s | [] | | [] m e]; try discriminate; try (now split).
  change (lit 1) with (S754_finite false 4503599627370496 (-52)) in H1.
  unfold SFleb, SFcompare in H1. cbn [valid_binary] in Hv.
  unfold bounded, canonical_mantissa in Hv.
  apply andb_prop in Hv as [Hc _]. apply Z.eqb_eq in Hc.
  unfold fexp, emin, prec, emax in Hc.
  split; [ | reflexivity ]. cbn [bounded_by]. apply Z.leb_le.
  destruct (Z.compare_spec e (-52)); try discriminate; lia.
Qed.

(** In particular every opacity in [[0, 1]] is within the bound the
    theorems on the effects ask of an opacity. *)
Lemma unit_interval_opacity (o : float) :
  valid_binary prec emax o = true ->
  SFleb (lit 0) o = true -> SFleb o (lit 1) = true ->
  bounded_by 900 o = true.
Proof.
  intros Hv H0 H1.
  destruct (unit_interval_bounded o Hv H0 H1) as [H _].
  apply (bounded_by_mono 1); [ lia | exact H ].
Qed.

End FloatBounds.

(** * ColorModel *)

Section HexFacts.

Import PyStr.

Lemma is_hex_cases (c : ascii) : Spec.is_hex c = true -> In c hex_chars.
Proof.
  destruct c as [[] [] [] [] [] [] [] []]; intros H;
    try discriminate H; cbn; tauto.
Qed.

Lemma int16_digit (c : ascii) :
  Spec.is_hex c = true -> int16 (String c "") = Ok (digit_value c).
Proof.
  intros H. apply is_hex_cases in H. cbn in H.
  repeat (destruct H as [<- | H]; [ reflexivity | ]). contradiction.
Qed.

Lemma int16_pair (c1 c2 : ascii) :
  Spec.is_hex c1 = true -> Spec.is_hex c2 = true ->
  int16 (String c1 (String c2 "")) = Ok (Spec.pair c1 c2).
Proof.
  intros H1 H2. apply is_hex_cases in H1, H2. cbn in H1, H2.
  repeat (destruct H1 as [<- | H1];
          [ repeat (destruct H2 as [<- | H2]; [ reflexivity | ]);
            contradiction | ]).
  contradiction.
Qed.

End HexFacts.

Lemma nibble_upper (c : ascii) :
  Spec.nibble (PyStr.upper_char c) = Spec.nibble c.
Proof. destruct c as [[] [] [] [] [] [] [] []]; reflexivity. Qed.

(** * The draw log of a computation *)

Section Emits.

Lemma emits_ret {A} (a : A) : emits (ret a) (Ok a) [].
Proof. intros cv. unfold ret. now rewrite app_nil_r. Qed.

Lemma emits_lift {A} (r : result A) : emits (lift r) r [].
Proof. intros cv. unfold lift. now rewrite app_nil_r. Qed.

Lemma emits_draw xy text f fnt :
  emits (draw_text xy text f fnt) (Ok tt) [mkDraw xy text f fnt].
Proof. intros cv. reflexivity. Qed.

Lemma emits_bind_ok {A B} (m : M canvas A) (k : A -> M canvas B)
      a ds1 r ds2 :
  emits m (Ok a) ds1 -> emits (k a) r ds2 ->
  emits (bind m k) r (ds1 ++ ds2).
Proof.
  intros Hm Hk cv. unfold bind. rewrite Hm, Hk, app_assoc. reflexivity.
Qed.

Lemma emits_bind_raise {A B} (m : M canvas A) (k : A -> M canvas B) e ds :
  emits m (Raise e) ds -> emits (bind m k) (Raise e) ds.
Proof. intros Hm cv. unfold bind. rewrite Hm. reflexivity. Qed.

(** A step that cannot touch the canvas, followed by the rest. *)
Lemma emits_lift_ok {A B} (r : result A) (k : A -> M canvas B) a r' ds :
  r = Ok a -> emits (k a) r' ds -> emits (bind (lift r) k) r' ds.
Proof.
  intros -> Hk.
  exact (emits_bind_ok (lift (Ok a)) k a [] r' ds (emits_lift _) Hk).
Qed.

Lemma emits_for_each {A} (xs : list A) (body : A -> M canvas unit)
      (f : A -> list draw_call) :
  (forall x, In x xs -> emits (body x) (Ok tt) (f x)) ->
  emits (for_each xs body) (Ok tt) (flat_map f xs).
Proof.
  induction xs as [ | x xs IH]; intros Hb.
  - apply emits_ret.
  - cbn [for_each flat_map].
    eapply emits_bind_ok; [ apply Hb; now left | ].
    apply IH. intros y Hy. apply Hb. now right.
Qed.

(** Every computation built from the operations of the monad only
    appends to the canvas. *)
Lemma appends_ret {A} (a : A) : appends (ret (S := canvas) a).
Proof. eexists _, _. apply emits_ret. Qed.

Lemma appends_lift {A} (r : result A) : appends (lift r).
Proof. eexists _, _. apply emits_lift. Qed.

Lemma appends_draw xy text f fnt : appends (draw_text xy text f fnt).
Proof. eexists _, _. apply emits_draw. Qed.

Lemma appends_bind {A B} (m : M canvas A) (k : A -> M canvas B) :
  appends m -> (forall a, appends (k a)) -> appends (bind m k).
Proof.
  intros (r & ds & Hm) Hk. destruct r as [a | e].
  - destruct (Hk a) as (r' & ds' & Hk').
    eexists _, _. eapply emits_bind_ok; eassumption.
  - eexists _, _. eapply emits_bind_raise; eassumption.
Qed.

Lemma appends_for_each {A} (xs : list A) (body : A -> M canvas unit) :
  (forall x, appends (body x)) -> appends (for_each xs body).
Proof.
  intros Hb. induction xs as [ | x xs IH].
  - apply appends_ret.
  - cbn [for_each]. apply appends_bind; [ apply Hb | intros _; exact IH ].
Qed.

End Emits.

(** * Ranges *)

Section Ranges.

Lemma length_range (a b : Z) : List.length (range a b) = Z.to_nat (b - a).
Proof. unfold range. now rewrite length_map, length_seq. Qed.

Lemma in_range (a b k : Z) : In k (range a b) <-> a <= k < b.
Proof.
  unfold range. rewrite in_map_iff. split.
  - intros (n & <- & Hn). apply in_seq in Hn. lia.
  - intros Hk. exists (Z.to_nat (k - a)). split; [ lia | ].
    apply in_seq. lia.
Qed.

Lemma NoDup_range (a b : Z) : NoDup (range a b).
Proof.
  unfold range. apply Injective_map_NoDup; [ | apply seq_NoDup ].
  intros n m H. lia.
Qed.

Lemma NoDup_list_prod {A B} (xs : list A) (ys : list B) :
  NoDup xs -> NoDup ys -> NoDup (list_prod xs ys).
Proof.
  intros Hx Hy. induction Hx as [ | x xs Hnin Hx IH]; cbn [list_prod].
  - constructor.
  - apply NoDup_app; [ | exact IH | ].
    + apply Injective_map_NoDup; [ | exact Hy ].
      intros y1 y2 H. now injection H.
    + intros [x' y'] H1 H2. apply in_map_iff in H1 as (y & Heq & _).
      injection Heq as <- <-. apply in_prod_iff in H2 as [H2 _].
      contradiction.
Qed.

(** Filtering out the one element a test rejects shortens a
    duplicate-free list by one. *)
Lemma length_filter_but_one {A} (f : A -> bool) (x : A) (l : list A) :
  NoDup l -> In x l -> (forall y, f y = false <-> y = x) ->
  S (List.length (filter f l)) = List.length l.
Proof.
  intros Hnd Hin Hf. induction Hnd as [ | y l Hnin Hnd IH]; [ easy | ].
  cbn [filter List.length]. destruct Hin as [-> | Hin].
  - replace (f x) with false by (symmetry; now apply Hf).
    f_equal. clear IH. induction l as [ | z l IHl]; [ reflexivity | ].
    cbn [filter]. destruct (f z) eqn:Hz.
    + cbn [List.length]. f_equal. apply IHl.
      * intros H. apply Hnin. now right.
      * now inversion Hnd.
    + apply Hf in Hz. subst z. exfalso. apply Hnin. now left.
  - destruct (f y) eqn:Hy.
    + cbn [List.length]. f_equal. now apply IH.
    + apply Hf in Hy. subst y. contradiction.
Qed.

(** Two nested loops with a skipped cell, as one list. *)
Lemma flat_map_nested {A B C} (skip : A -> B -> bool) (g : A -> B -> C)
      (xs : list A) (ys : list B) :
  flat_map (fun a => flat_map (fun b => if skip a b then [] else [g a b]) ys) xs
  = map (fun d => g (fst d) (snd d))
        (filter (fun d => negb (skip (fst d) (snd d))) (list_prod xs ys)).
Proof.
  induction xs as [ | a xs IH]; [ reflexivity | ].
  cbn [flat_map list_prod]. rewrite filter_app, map_app, IH. f_equal.
  clear IH. induction ys as [ | b ys IHy]; [ reflexivity | ].
  cbn [flat_map map filter fst snd]. rewrite IHy.
  destruct (skip a b); reflexivity.
Qed.

Lemma in_outline_offsets (w dx dy : Z) :
  In (dx, dy) (outline_offsets w)
  <-> - w <= dx <= w /\ - w <= dy <= w /\ (dx, dy) <> (0, 0).
Proof.
  unfold outline_offsets. rewrite filter_In, in_prod_iff, !in_range.
  cbn [fst snd]. split.
  - intros ((Hx & Hy) & Hc). repeat split; try lia.
    intros [= -> ->]. discriminate Hc.
  - intros (Hx & Hy & Hc). repeat split; try lia.
    destruct (Z.eqb_spec dx 0) as [-> | ]; [ | reflexivity ].
    destruct (Z.eqb_spec dy 0) as [-> | ]; [ | reflexivity ].
    now contradiction Hc.
Qed.

Lemma NoDup_outline_offsets (w : Z) : NoDup (outline_offsets w).
Proof.
  apply NoDup_filter, NoDup_list_prod; apply NoDup_range.
Qed.

Lemma length_outline_offsets (w : Z) :
  0 <= w ->
  Z.of_nat (List.length (outline_offsets w)) = (2 * w + 1) ^ 2 - 1.
Proof.
  intros Hw.
  assert (H : S (List.length (outline_offsets w))
              = List.length (list_prod (range (- w) (w + 1))
                                       (range (- w) (w + 1)))).
  { apply (length_filter_but_one _ (0, 0)).
    - apply NoDup_list_prod; apply NoDup_range.
    - apply in_prod_iff. rewrite !in_range. lia.
    - intros [a b]. cbn [fst snd]. split.
      + intros H. apply negb_false_iff, andb_prop in H as [Ha Hb].
        apply Z.eqb_eq in Ha, Hb. now subst.
      + intros [= -> ->]. reflexivity. }
  rewrite length_prod, length_range in H. nia.
Qed.

End Ranges.

(** * The effect renderer *)

Section RendererFacts.

Import FloatFacts.

Lemma py_int_finite (x : float) :
  is_finite x = true -> py_int x = Ok (trunc x).
Proof. destruct x; try discriminate; reflexivity. Qed.

Lemma math_call_finite (f : float -> float) (x : float) :
  is_finite (f x) = true -> math_call f x = Ok (f x).
Proof.
  intros H. unfold math_call. destruct (f x); try discriminate; reflexivity.
Qed.

Lemma color_with_opacity_ok (c : string) (o : float) (r g b a0 : Z) :
  hex_to_rgba c = Ok (r, g, b, a0) ->
  is_finite (fmul (lit 255) o) = true ->
  color_with_opacity c o = Ok (r, g, b, trunc (fmul (lit 255) o)).
Proof.
  intros Hc Ho. unfold color_with_opacity. rewrite Hc. cbn [rbind].
  rewrite (py_int_finite _ Ho). reflexivity.
Qed.

Variable E : env.
Variables (text : string) (fnt : font) (color : string).

(** The renderer first corrects the anchor, then runs the branch of the
    effect at the corrected origin. *)
Lemma apply_text_effects_origin (p : position)
      (effects : option effects_dict) (cv : canvas) :
  let size := text_size E text fnt in
  let o := origin (fst (anchor_of p)) (snd (anchor_of p))
                  (fst size) (snd size) in
  0 <= snd size < 2 ^ 51 ->
  apply_text_effects E text p fnt color effects cv
  = match effects with
    | Some d =>
        if truthy effects then
          match ef_type d with
          | Some effect_type =>
              typed_effect E text fnt color (fst o) (snd o) effect_type
                           (get_or (ef_settings d) no_settings) cv
          | None => legacy_effect text fnt color (fst o) (snd o) d cv
          end
        else draw_base text fnt color (fst o) (snd o) cv
    | None => draw_base text fnt color (fst o) (snd o) cv
    end.
Proof.
  intros size o Hh. unfold apply_text_effects. subst o size.
  destruct (text_size E text fnt) as [tw th].
  destruct (anchor_of p) as [x y]. cbn [fst snd] in *.
  unfold bind, lift. rewrite (vertical_adjustment_exact th Hh).
  unfold origin. cbn [fst snd].
  destruct effects as [d | ]; [ | reflexivity ].
  destruct (truthy (Some d)); [ | reflexivity ].
  destruct (ef_type d); reflexivity.
Qed.

Variables (cx cy : Z).

Let base := mkDraw (cx, cy) text (FillStr color) fnt.

Lemma emits_draw_base :
  emits (draw_base text fnt color cx cy) (Ok tt) [base].
Proof. apply emits_draw. Qed.

Lemma shadow_emits (st : settings) (r g b a0 : Z) :
  let o := get_or (st_opacity st) f0_5 in
  let off := match get_or (st_offset st) [5; 5] with
             | a :: b :: _ => (a, b)
             | _ => (5, 5)
             end in
  hex_to_rgba (get_or (st_color st) "#000000") = Ok (r, g, b, a0) ->
  is_finite (fmul (lit 255) o) = true ->
  emits (shadow_effect text fnt color cx cy st) (Ok tt)
        [ mkDraw (cx + fst off, cy + snd off) text
                 (FillRGBA (r, g, b, trunc (fmul (lit 255) o))) fnt;
          base ].
Proof.
  intros o off Hc Ho. unfold shadow_effect. fold o. fold off.
  destruct off as [ox oy]. cbn [fst snd].
  eapply emits_lift_ok; [ apply (color_with_opacity_ok _ _ _ _ _ _ Hc Ho) | ].
  eapply (emits_bind_ok _ _ tt [_] _ [_]);
    [ apply emits_draw | apply emits_draw_base ].
Qed.

Lemma outline_emits (st : settings) (r g b a0 : Z) :
  let w := get_or (st_width st) 2 in
  let o := get_or (st_opacity st) (lit 1) in
  hex_to_rgba (get_or (st_color st) "#000000") = Ok (r, g, b, a0) ->
  is_finite (fmul (lit 255) o) = true ->
  emits (outline_effect text fnt color cx cy st) (Ok tt)
        (map (fun d => mkDraw (cx + fst d, cy + snd d) text
                              (FillRGBA (r, g, b, trunc (fmul (lit 255) o)))
                              fnt)
             (outline_offsets w)
         ++ [base]).
Proof.
  intros w o Hc Ho. unfold outline_effect. fold w. fold o.
  eapply emits_lift_ok; [ apply (color_with_opacity_ok _ _ _ _ _ _ Hc Ho) | ].
  eapply emits_bind_ok; [ | apply emits_draw_base ].
  unfold outline_offsets.
  rewrite <- (flat_map_nested
                (fun dx dy => (dx =? 0) && (dy =? 0))
                (fun dx dy => mkDraw (cx + dx, cy + dy) text
                              (FillRGBA (r, g, b, trunc (fmul (lit 255) o)))
                              fnt)).
  apply emits_for_each. intros ox _.
  apply emits_for_each. intros oy _.
  destruct ((ox =? 0) && (oy =? 0)); [ apply emits_ret | apply emits_draw ].
Qed.

Lemma of_int_finite (z : Z) :
  is_finite (lit z) = true -> of_int z = Ok (lit z).
Proof. intros H. unfold of_int. fold (lit z). now rewrite H. Qed.

Lemma int_truediv_finite (i n : Z) :
  1 <= i -> 1 <= n -> is_finite (int_ratio i n) = true ->
  int_truediv i n = Ok (int_ratio i n).
Proof.
  intros Hi Hn H. unfold int_truediv.
  destruct n; try lia. destruct i; try lia. now rewrite H.
Qed.

Lemma list_getitem_nth {A} (l : list A) (k : Z) (d : A) :
  0 <= k < Z.of_nat (List.length l) ->
  list_getitem l k = Ok (nth (Z.to_nat k) l d).
Proof.
  intros Hk. unfold list_getitem.
  destruct (Z.ltb_spec k 0); [ lia | ].
  destruct (Z.ltb_spec k 0); [ lia | ].
  destruct (Z.leb_spec (Z.of_nat (List.length l)) k); [ lia | ].
  cbn [orb]. rewrite (nth_error_nth' l d) by lia. reflexivity.
Qed.

Lemma map_as_flat_map {A B} (f : A -> B) (xs : list A) :
  map f xs = flat_map (fun x => [f x]) xs.
Proof. induction xs as [ | x xs IH]; cbn; congruence. Qed.

(** The angles of a glow ring. *)
Lemma glow_angles :
  range_step 0 360 30 = [0; 30; 60; 90; 120; 150; 180; 210; 240; 270; 300; 330].
Proof. reflexivity. Qed.

(** [range(layers, 0, -1)] counts down from [layers] to 1. *)
Lemma range_down (n : Z) :
  range_step n 0 (-1) = map (fun j => n - j) (range 0 n).
Proof.
  unfold range_step, range. cbn [Z.ltb Z.compare].
  replace ((n - 0 - -1 - 1) / - -1) with (n - 0).
  2:{ change (- -1) with 1. rewrite Z.div_1_r. lia. }
  rewrite map_map. apply map_ext. intros k. lia.
Qed.

Section Glow.

Variables (radius : Z) (o : float) (r g b : Z).

Let steps := Z.min radius 20.
Let q (i : Z) := int_ratio i steps.
Let ring_radius (i : Z) := fmul (q i) (lit radius).
Let ring_alpha (i : Z) := trunc (fmul (lit 255) (fmul o (fsub (lit 1) (q i)))).
Let theta (a : Z) := radians (lit a).
Let point (i a : Z) :=
  mkDraw (cx + trunc (fmul (ring_radius i) (math_cos E (theta a))),
          cy + trunc (fmul (ring_radius i) (math_sin E (theta a))))
         text (FillRGBA (r, g, b, ring_alpha i)) fnt.

Hypothesis radius_finite : is_finite (lit radius) = true.
Hypothesis ring_finite : forall i, 1 <= i <= steps ->
  is_finite (q i) = true
  /\ is_finite (fmul (lit 255) (fmul o (fsub (lit 1) (q i)))) = true.
Hypothesis trig_finite : forall a, In a (range_step 0 360 30) ->
  is_finite (math_cos E (theta a)) = true
  /\ is_finite (math_sin E (theta a)) = true.
Hypothesis point_finite : forall i a,
  1 <= i <= steps -> In a (range_step 0 360 30) ->
  is_finite (fmul (ring_radius i) (math_cos E (theta a))) = true
  /\ is_finite (fmul (ring_radius i) (math_sin E (theta a))) = true.

Lemma glow_ring_emits (a0 i : Z) :
  1 <= i <= steps ->
  emits (glow_ring E text fnt cx cy (r, g, b, a0) radius o steps i)
        (Ok tt) (map (point i) (range_step 0 360 30)).
Proof.
  intros Hi. unfold glow_ring.
  destruct (ring_finite i Hi) as [Hq Ha].
  eapply emits_lift_ok; [ apply int_truediv_finite; [ lia | lia | exact Hq ] | ].
  eapply emits_lift_ok; [ apply of_int_finite, radius_finite | ].
  eapply emits_lift_ok; [ apply py_int_finite, Ha | ].
  rewrite map_as_flat_map.
  apply emits_for_each. intros a Ha'.
  destruct (trig_finite a Ha') as [Hc Hs].
  destruct (point_finite i a Hi Ha') as [Hx Hy].
  unfold glow_point.
  eapply emits_lift_ok.
  { apply of_int_finite. rewrite glow_angles in Ha'. cbn in Ha'.
    repeat (destruct Ha' as [<- | Ha']; [ reflexivity | ]). contradiction. }
  eapply emits_lift_ok; [ apply math_call_finite, Hc | ].
  eapply emits_lift_ok; [ apply py_int_finite, Hx | ].
  eapply emits_lift_ok; [ apply math_call_finite, Hs | ].
  eapply emits_lift_ok; [ apply py_int_finite, Hy | ].
  apply emits_draw.
Qed.

Lemma glow_rings_emit (a0 : Z) :
  emits (for_each (range 1 (steps + 1))
                  (glow_ring E text fnt cx cy (r, g, b, a0) radius o steps))
        (Ok tt)
        (flat_map (fun i => map (point i) (range_step 0 360 30))
                  (range 1 (steps + 1))).
Proof.
  apply emits_for_each. intros i Hi. apply in_range in Hi.
  apply glow_ring_emits. lia.
Qed.

End Glow.

Section Depth.

Variables (layers : Z) (angle distance : float) (gradient : list string).

Let n := Z.of_nat (List.length gradient).
Let dx := fmul (math_cos E (radians angle)) distance.
Let dy := fmul (math_sin E (radians angle)) distance.
Let q (i : Z) := int_ratio i layers.
Let color_index (i : Z) := Z.min (trunc (fmul (q i) (lit (n - 1)))) (n - 1).
Let layer_draw (i : Z) :=
  mkDraw (cx - trunc (fmul (lit i) dx), cy - trunc (fmul (lit i) dy))
         text (FillStr (nth (Z.to_nat (color_index i)) gradient "")) fnt.

Hypothesis gradient_nonempty : 1 <= n.
Hypothesis top_index_finite : is_finite (lit (n - 1)) = true.
Hypothesis layer_finite : forall i, 1 <= i <= layers ->
  is_finite (q i) = true
  /\ is_finite (fmul (q i) (lit (n - 1))) = true
  /\ 0 <= trunc (fmul (q i) (lit (n - 1)))
  /\ is_finite (lit i) = true
  /\ is_finite (fmul (lit i) dx) = true
  /\ is_finite (fmul (lit i) dy) = true.

Lemma depth_layer_emits (i : Z) :
  1 <= i <= layers ->
  emits (depth_layer text fnt cx cy layers gradient dx dy i)
        (Ok tt) [layer_draw i].
Proof.
  intros Hi. unfold depth_layer. fold n.
  destruct (layer_finite i Hi) as (Hq & Hk & Hk0 & Hfi & Hx & Hy).
  eapply emits_lift_ok; [ apply int_truediv_finite; [ lia | lia | exact Hq ] | ].
  eapply emits_lift_ok; [ apply of_int_finite, top_index_finite | ].
  eapply emits_lift_ok; [ apply py_int_finite, Hk | ].
  eapply emits_lift_ok.
  { apply (list_getitem_nth gradient _ ""). fold n. fold (q i). lia. }
  eapply emits_lift_ok; [ apply of_int_finite, Hfi | ].
  eapply emits_lift_ok; [ apply py_int_finite, Hx | ].
  eapply emits_lift_ok; [ apply py_int_finite, Hy | ].
  apply emits_draw.
Qed.

Lemma depth_layers_emit :
  emits (for_each (range_step layers 0 (-1))
                  (depth_layer text fnt cx cy layers gradient dx dy))
        (Ok tt)
        (map (fun j => layer_draw (layers - j)) (range 0 layers)).
Proof.
  rewrite range_down, <- (map_map (fun j => layers - j) layer_draw).
  rewrite (map_as_flat_map layer_draw).
  apply emits_for_each. intros i Hi.
  apply in_map_iff in Hi as (j & <- & Hj). apply in_range in Hj.
  apply depth_layer_emits. lia.
Qed.

End Depth.

End RendererFacts.

(** * The renderer only appends to the canvas *)

Section AppendOnly.

Ltac appends_step :=
  first
    [ apply appends_ret
    | apply appends_lift
    | apply appends_draw
    | apply appends_for_each; intros
    | apply appends_bind; [ | intros ]
    | match goal with
      | |- appends (if ?c then _ else _) => destruct c
      | |- appends (match ?x with _ => _ end) => destruct x
      | |- appends (let '(_, _) := ?x in _) => destruct x
      end ].

Variable E : env.
Variables (text : string) (fnt : font) (color : string) (cx cy : Z).

Lemma appends_shadow st : appends (shadow_effect text fnt color cx cy st).
Proof. unfold shadow_effect, draw_base. repeat appends_step. Qed.

Lemma appends_outline st : appends (outline_effect text fnt color cx cy st).
Proof. unfold outline_effect, draw_base. repeat appends_step. Qed.

Lemma appends_glow st : appends (glow_effect E text fnt color cx cy st).
Proof.
  unfold glow_effect, glow_ring, glow_point, draw_base.
  repeat appends_step.
Qed.

Lemma appends_depth st : appends (depth_effect E text fnt color cx cy st).
Proof.
  unfold depth_effect, depth_layer, draw_base. repeat appends_step.
Qed.

Lemma appends_legacy d : appends (legacy_effect text fnt color cx cy d).
Proof. unfold legacy_effect, draw_base. repeat appends_step. Qed.

Lemma appends_typed ty st :
  appends (typed_effect E text fnt color cx cy ty st).
Proof.
  unfold typed_effect.
  repeat match goal with
         | |- appends (if ?c then _ else _) => destruct c
         end;
    auto using appends_shadow, appends_outline, appends_glow, appends_depth.
  unfold draw_base. apply appends_draw.
Qed.

(** If a branch of the renderer returns, the last draw it made is the
    base text at the origin it was given. *)
Let base_last := base_last text fnt color cx cy.

Lemma base_last_base : base_last (draw_base text fnt color cx cy).
Proof.
  exists (Ok tt), [mkDraw (cx, cy) text (FillStr color) fnt].
  unfold base_draw. split; [ apply emits_draw | ]. intros _. now exists [].
Qed.

Lemma base_last_bind {A} (m : M canvas A) (k : A -> M canvas unit) :
  appends m -> (forall a, base_last (k a)) -> base_last (bind m k).
Proof.
  intros (r & ds & Hm) Hk. destruct r as [a | e].
  - destruct (Hk a) as (r' & ds2 & Hk' & Hlast).
    exists r', (ds ++ ds2). split; [ eapply emits_bind_ok; eassumption | ].
    intros Hr. destruct (Hlast Hr) as (ds' & ->).
    exists (ds ++ ds'). now rewrite app_assoc.
  - exists (Raise e), ds. split; [ now apply emits_bind_raise | easy ].
Qed.

Ltac base_last_step :=
  first
    [ apply base_last_base
    | apply base_last_bind;
      [ repeat appends_step | intros ]
    | match goal with
      | |- base_last (if ?c then _ else _) => destruct c
      | |- base_last (let '(_, _) := ?x in _) => destruct x
      end ].

Lemma base_last_typed ty st :
  base_last (typed_effect E text fnt color cx cy ty st).
Proof.
  unfold typed_effect, shadow_effect, outline_effect, glow_effect,
    depth_effect, glow_ring, glow_point, depth_layer.
  repeat base_last_step.
Qed.

Lemma base_last_legacy d :
  base_last (legacy_effect text fnt color cx cy d).
Proof. unfold legacy_effect. repeat base_last_step. Qed.

End AppendOnly.

(** * The claims *)

Import FloatFacts FloatBounds.

(** ** C1: the draw origin *)

(** C1. For every anchor [(x, y)] and measured text size [(w, h)] (a height
    is never negative; it is below [2^51] for any raster), the vertical
    adjustment [int(h * 0.375)] is [floor(3h/8)], that is
    [floor(h * 0.375)]; plain text is drawn exactly once, at
    [(x - w//2, y - h//2 - floor(h * 0.375))]; and whatever the effect,
    a render that returns has drawn the base text last, at that very
    origin.  The draws of the effects are placed relative to the same
    origin (see the theorems on the outline, the glow and the depth
    effect). *)
Theorem draw_origin_formula (E : env) (text : string) (p : position)
        (fnt : font) (color : string) (effects : option effects_dict)
        (x y w h : Z) :
  anchor_of p = (x, y) ->
  text_size E text fnt = (w, h) ->
  0 <= h < 2 ^ 51 ->
  let o := (x - w / 2, y - h / 2 - 3 * h / 8) in
  vertical_adjustment h = Ok (3 * h / 8)
  /\ (forall cv,
         apply_text_effects E text p fnt color None cv
         = (Ok tt, cv ++ [mkDraw o text (FillStr color) fnt]))
  /\ (forall cv cv',
         apply_text_effects E text p fnt color effects cv = (Ok tt, cv') ->
         exists ds, cv' = cv ++ ds ++ [mkDraw o text (FillStr color) fnt]).
Proof.
  intros Ha Hs Hh o.
  split; [ now apply vertical_adjustment_exact | ].
  assert (Ho : forall eff cv,
             apply_text_effects E text p fnt color eff cv
             = match eff with
               | Some d =>
                   if truthy eff then
                     match ef_type d with
                     | Some ty =>
                         typed_effect E text fnt color (fst o) (snd o) ty
                                      (get_or (ef_settings d) no_settings) cv
                     | None => legacy_effect text fnt color (fst o) (snd o) d cv
                     end
                   else draw_base text fnt color (fst o) (snd o) cv
               | None => draw_base text fnt color (fst o) (snd o) cv
               end).
  { intros eff cv.
    rewrite apply_text_effects_origin by (rewrite Hs; exact Hh).
    rewrite Hs, Ha. reflexivity. }
  split.
  - intros cv. rewrite Ho. reflexivity.
  - intros cv cv' Hrun. rewrite Ho in Hrun.
    assert (Hlast : forall m, base_last text fnt color (fst o) (snd o) m ->
                              m cv = (Ok tt, cv') ->
                              exists ds, cv' = cv ++ ds ++ [mkDraw o text (FillStr color) fnt]).
    { intros m (r & ds & Hm & Hl) Hmcv. rewrite Hm in Hmcv.
      injection Hmcv as -> <-. destruct (Hl eq_refl) as (ds' & ->).
      exists ds'. reflexivity. }
    destruct effects as [d | ];
      [ | exact (Hlast _ (base_last_base _ _ _ _ _) Hrun) ].
    destruct (truthy (Some d));
      [ | exact (Hlast _ (base_last_base _ _ _ _ _) Hrun) ].
    destruct (ef_type d) as [ty | ].
    + exact (Hlast _ (base_last_typed E _ _ _ _ _ ty _) Hrun).
    + exact (Hlast _ (base_last_legacy _ _ _ _ _ d) Hrun).
Qed.

(** The spec's example: anchor (100, 100), size 40 by 20, gives the
    origin (80, 83). *)
Lemma draw_origin_formula_witness :
  anchor_of demo_anchor = (100, 100)
  /\ text_size demo_env "Hi" BuiltinDefault = (40, 20)
  /\ 0 <= 20 < 2 ^ 51
  /\ vertical_adjustment 20 = Ok 7
  /\ demo_render None
     = (Ok tt, [mkDraw (80, 83) "Hi" (FillStr "#FFFFFF") BuiltinDefault]).
Proof.
  assert (Hh : 0 <= 20 < 2 ^ 51) by lia.
  destruct (draw_origin_formula demo_env "Hi" demo_anchor
              BuiltinDefault "#FFFFFF" None 100 100 40 20
              eq_refl eq_refl Hh) as (H1 & H2 & _).
  exact (conj eq_refl (conj eq_refl (conj Hh (conj H1 (H2 []))))).
Defined.

(** ** C2: parsing a hex colour *)

(** C2 (as amended). For every string that starts with ['#'] and, once
    its leading ['#']s are removed, is 3, 4, 6 or 8 hex digits of either
    case, [_hex_to_rgba] returns the channels: a short-form nibble [n]
    becomes [17 * n] (so [0xF] becomes [0xFF]), a pair of digits [hl]
    becomes [16 * h + l], and a missing alpha is 255.  For every string
    that does not start with ['#'], or whose length after the ['#']s is
    none of 3, 4, 6, 8, it returns opaque white without raising. *)
Theorem hex_to_rgba_on_domain (s : string) :
  let body := PyStr.lstrip "#" s in
  PyStr.startswith "#" s = false
  \/ ~ In (String.length body) [3; 4; 6; 8]%nat
  \/ Spec.all_hex body = true ->
  hex_to_rgba s
  = Ok (if PyStr.startswith "#" s then channels body else white).
Proof.
  intros body Hdom. unfold hex_to_rgba.
  destruct (PyStr.startswith "#" s) eqn:Hsw; [ | reflexivity ].
  fold body.
  assert (Hhex : In (String.length body) [3; 4; 6; 8]%nat ->
                 Spec.all_hex body = true).
  { intros Hin. destruct Hdom as [H | [H | H]];
      [ discriminate | contradiction | exact H ]. }
  clearbody body. clear Hdom Hsw s.
  destruct body as [ | c1 [ | c2 [ | c3 [ | c4 [ | c5 [ | c6 [ | c7 [ | c8 [ | c9 rest]]]]]]]]];
    try reflexivity.
  - (* three digits *)
    specialize (Hhex ltac:(cbn; tauto)). cbn in Hhex.
    repeat (apply andb_prop in Hhex; destruct Hhex as [?H Hhex]).
    cbn -[PyStr.int16]. rewrite !int16_digit by assumption. reflexivity.
  - (* four digits *)
    specialize (Hhex ltac:(cbn; tauto)). cbn in Hhex.
    repeat (apply andb_prop in Hhex; destruct Hhex as [?H Hhex]).
    cbn -[PyStr.int16]. rewrite !int16_digit by assumption. reflexivity.
  - (* six digits *)
    specialize (Hhex ltac:(cbn; tauto)). cbn in Hhex.
    repeat (apply andb_prop in Hhex; destruct Hhex as [?H Hhex]).
    cbn -[PyStr.int16]. rewrite !int16_pair by assumption. reflexivity.
  - (* eight digits *)
    specialize (Hhex ltac:(cbn; tauto)). cbn in Hhex.
    repeat (apply andb_prop in Hhex; destruct Hhex as [?H Hhex]).
    cbn -[PyStr.int16]. rewrite !int16_pair by assumption. reflexivity.
  - (* nine characters or more *)
    unfold PyStr.len, channels. cbn [String.length list_ascii_of_string].
    repeat match goal with
           | |- context [Z.of_nat ?n =? ?k] =>
               destruct (Z.eqb_spec (Z.of_nat n) k) as [Hk | _]; [ lia | ]
           end.
    reflexivity.
Qed.

Lemma hex_to_rgba_on_domain_witness :
  hex_to_rgba "#F00" = Ok (255, 0, 0, 255)
  /\ hex_to_rgba "#FF0000" = Ok (255, 0, 0, 255)
  /\ hex_to_rgba "#ff000080" = Ok (255, 0, 0, 128)
  /\ hex_to_rgba "not-a-color" = Ok (255, 255, 255, 255)
  /\ hex_to_rgba "#12345" = Ok (255, 255, 255, 255).
Proof.
  refine (conj _ (conj _ (conj _ (conj _ _)))).
  - exact (hex_to_rgba_on_domain "#F00" (or_intror (or_intror eq_refl))).
  - exact (hex_to_rgba_on_domain "#FF0000" (or_intror (or_intror eq_refl))).
  - exact (hex_to_rgba_on_domain "#ff000080" (or_intror (or_intror eq_refl))).
  - exact (hex_to_rgba_on_domain "not-a-color" (or_introl eq_refl)).
  - refine (hex_to_rgba_on_domain "#12345" (or_intror (or_introl _))).
    cbn. intros [H | [H | [H | [H | []]]]]; discriminate H.
Defined.

(** The claim as stated fails on a well-formed colour without the leading
    ['#']: the guard on ['#'] sends it to the white fallback. *)
Lemma hex_without_hash_is_white :
  hex_to_rgba "FF0000" = Ok (255, 255, 255, 255)
  /\ Spec.parse "FF0000" = (255, 0, 0, 255)
  /\ hex_to_rgba "FF0000" <> Ok (Spec.parse "FF0000").
Proof.
  refine (conj eq_refl (conj eq_refl _)). discriminate.
Qed.

(** Digits are read without regard to case. *)
Lemma channels_upper (body : string) :
  channels (PyStr.upper body) = channels body.
Proof.
  destruct body as [ | c1 [ | c2 [ | c3 [ | c4 [ | c5 [ | c6 [ | c7 [ | c8 [ | c9 rest]]]]]]]]];
    unfold channels, Spec.pair; cbn [PyStr.upper PyStr.map_chars list_ascii_of_string];
    rewrite ?nibble_upper; reflexivity.
Qed.

(** On every string the two agree on, the code computes the parse of the
    specification. *)
Lemma channels_is_parse (body : string) :
  Spec.all_hex body = true ->
  channels body = Spec.parse (String "#" body).
Proof.
  intros Hhex. unfold Spec.parse. rewrite Hhex. unfold channels.
  assert (Hdup : forall c, Spec.dup c = Spec.nibble c * 17)
    by (intros c; unfold Spec.dup; lia).
  destruct body as [ | c1 [ | c2 [ | c3 [ | c4 [ | c5 [ | c6 [ | c7 [ | c8 [ | c9 rest]]]]]]]]];
    cbn [list_ascii_of_string]; rewrite ?Hdup; reflexivity.
Qed.

(** A digit that is not hexadecimal, in a string of an accepted length,
    raises instead of falling back to white. *)
Lemma hex_to_rgba_non_hex_raises :
  hex_to_rgba "#GGGGGG"
  = Raise (mkExn ValueError "invalid literal for int() with base 16: 'GG'").
Proof. reflexivity. Qed.

(** ** C3: opacity and the alpha channel *)

Lemma alpha_finite (o : float) :
  bounded_by 900 o = true -> is_finite (fmul (lit 255) o) = true.
Proof.
  intros Ho.
  destruct (fmul_bounded 8 900 (lit 255) o eq_refl Ho ltac:(lia)) as [H _].
  exact (bounded_finite _ _ H).
Qed.

Lemma floor_nonneg (x : float) : nonneg x = true -> Spec.floor x = trunc x.
Proof.
  destruct x as [ | | | [] m e]; cbn [nonneg Spec.floor trunc]; try easy.
  intros _. destruct e as [ | q | q ].
  - now rewrite Z.shiftl_mul_pow2.
  - now rewrite Z.shiftl_mul_pow2.
  - now rewrite Z.shiftr_div_pow2.
Qed.

Lemma unit_interval_alpha (o : float) :
  in_unit_interval o = true ->
  is_finite (fmul (lit 255) o) = true
  /\ trunc (fmul (lit 255) o) = Spec.floor (fmul (lit 255) o)
  /\ 0 <= Spec.floor (fmul (lit 255) o).
Proof.
  unfold in_unit_interval. intros H.
  apply andb_prop in H as [H H1]. apply andb_prop in H as [Hv H0].
  destruct (unit_interval_bounded o Hv H0 H1) as [Hb Hn].
  destruct (fmul_bounded 8 1 (lit 255) o eq_refl Hb ltac:(lia)) as [Hf Hp].
  specialize (Hp eq_refl Hn).
  rewrite (floor_nonneg _ Hp).
  split; [ exact (bounded_finite _ _ Hf) | ].
  split; [ reflexivity | now apply nonneg_trunc ].
Qed.

(** C3 (as amended). For every settings colour that parses to
    [(r, g, b, a)] and every opacity [o] in [[0, 1]], the colour that
    the shadow, the outline and the glow build from the two is
    [(r, g, b, floor(255 * o))]: R, G and B are unchanged, and the
    alpha is [255 * o] floored, which [int()] gives as [o] is not
    negative.  The alpha [a] of the colour itself is discarded, not
    scaled; the result is the specification's [applyOpacity], with its
    [floor(a * o)], whenever [a] is 255, as for every colour written
    without an alpha.  This colour is the fill of the shadow draw and
    of every draw of the outline. *)
Theorem opacity_replaces_alpha (E : env) (text : string) (p : position)
        (fnt : font) (color : string) (ost : option settings)
        (sh : option legacy_shadow) (other : bool) (c : string)
        (r g b a : Z) (o : float) :
  let st := get_or ost no_settings in
  let alpha := Spec.floor (fmul (lit 255) o) in
  let off := match get_or (st_offset st) [5; 5] with
             | dx :: dy :: _ => (dx, dy)
             | _ => (5, 5)
             end in
  let size := text_size E text fnt in
  let org := origin (fst (anchor_of p)) (snd (anchor_of p))
                    (fst size) (snd size) in
  let base := mkDraw org text (FillStr color) fnt in
  0 <= snd size < 2 ^ 51 ->
  st_color st = Some c ->
  st_opacity st = Some o ->
  hex_to_rgba c = Ok (r, g, b, a) ->
  in_unit_interval o = true ->
  color_with_opacity c o = Ok (r, g, b, alpha)
  /\ 0 <= alpha
  /\ (a = 255 -> Spec.applyOpacity (r, g, b, a) o = Ok (r, g, b, alpha))
  /\ (forall cv,
         apply_text_effects E text p fnt color
                            (Some (mkEffects (Some "shadow") ost sh other)) cv
         = (Ok tt,
            cv ++ [ mkDraw (fst org + fst off, snd org + snd off) text
                           (FillRGBA (r, g, b, alpha)) fnt;
                    base ]))
  /\ (forall cv,
         apply_text_effects E text p fnt color
                            (Some (mkEffects (Some "outline") ost sh other)) cv
         = (Ok tt,
            cv ++ map (fun d => mkDraw (fst org + fst d, snd org + snd d) text
                                       (FillRGBA (r, g, b, alpha)) fnt)
                      (outline_offsets (get_or (st_width st) 2))
               ++ [base])).
Proof.
  intros st alpha off size org base Hh Hcol Hop Hc Ho.
  destruct (unit_interval_alpha o Ho) as (Hfin & Htr & Hpos).
  pose proof (color_with_opacity_ok c o r g b a Hc Hfin) as Hcw.
  rewrite Htr in Hcw. fold alpha in Hcw.
  split; [ exact Hcw | ]. split; [ exact Hpos | ]. split; [ | split ].
  - intros ->. unfold Spec.applyOpacity, Spec.math_floor.
    change (of_int 255) with (Ok (lit 255)). cbn [rbind].
    rewrite (py_int_finite _ Hfin). reflexivity.
  - intros cv. rewrite apply_text_effects_origin by exact Hh.
    cbn [truthy ef_type ef_settings is_some orb].
    fold size. fold org. unfold typed_effect. cbn [String.eqb Ascii.eqb Bool.eqb].
    fold st.
    assert (Hc' : hex_to_rgba (get_or (st_color st) "#000000") = Ok (r, g, b, a))
      by (rewrite Hcol; exact Hc).
    assert (Hfin' : is_finite (fmul (lit 255) (get_or (st_opacity st) f0_5))
                    = true) by (rewrite Hop; exact Hfin).
    rewrite (shadow_emits text fnt color (fst org) (snd org) st r g b a
                          Hc' Hfin' cv).
    rewrite Hop. cbn [get_or]. rewrite Htr. fold alpha.
    unfold base. destruct org; reflexivity.
  - intros cv. rewrite apply_text_effects_origin by exact Hh.
    cbn [truthy ef_type ef_settings is_some orb].
    fold size. fold org. unfold typed_effect. cbn [String.eqb Ascii.eqb Bool.eqb].
    fold st.
    assert (Hc' : hex_to_rgba (get_or (st_color st) "#000000") = Ok (r, g, b, a))
      by (rewrite Hcol; exact Hc).
    assert (Hfin' : is_finite (fmul (lit 255) (get_or (st_opacity st) (lit 1)))
                    = true) by (rewrite Hop; exact Hfin).
    rewrite (outline_emits text fnt color (fst org) (snd org) st r g b a
                           Hc' Hfin' cv).
    rewrite Hop. cbn [get_or]. rewrite Htr. fold alpha.
    unfold base. destruct org; reflexivity.
Qed.

(** The red shadow at opacity 0.5, and the outline of width 2 drawn
    from the same settings: alpha 127 on every draw but the base. *)
Lemma opacity_replaces_alpha_witness :
  0 <= snd (text_size demo_env "Hi" BuiltinDefault) < 2 ^ 51
  /\ hex_to_rgba "#FF0000" = Ok (255, 0, 0, 255)
  /\ in_unit_interval f0_5 = true
  /\ color_with_opacity "#FF0000" f0_5 = Ok (255, 0, 0, 127)
  /\ Spec.applyOpacity (255, 0, 0, 255) f0_5 = Ok (255, 0, 0, 127)
  /\ demo_render (unified "shadow" demo_shadow)
     = (Ok tt,
        [ mkDraw (85, 88) "Hi" (FillRGBA (255, 0, 0, 127)) BuiltinDefault;
          mkDraw (80, 83) "Hi" (FillStr "#FFFFFF") BuiltinDefault ])
  /\ map dc_fill (snd (demo_render (unified "outline" demo_shadow)))
     = repeat (FillRGBA (255, 0, 0, 127)) 24 ++ [FillStr "#FFFFFF"].
Proof.
  assert (Hh : 0 <= snd (text_size demo_env "Hi" BuiltinDefault) < 2 ^ 51)
    by (cbn; lia).
  destruct (opacity_replaces_alpha demo_env "Hi" demo_anchor
              BuiltinDefault "#FFFFFF" (Some demo_shadow) None false
              "#FF0000" 255 0 0 255 f0_5 Hh eq_refl eq_refl eq_refl eq_refl)
    as (H1 & _ & H2 & H3 & H4).
  refine (conj Hh (conj eq_refl (conj eq_refl (conj H1 (conj (H2 eq_refl)
           (conj (H3 []) _)))))).
  unfold demo_render, unified. rewrite (H4 []). reflexivity.
Defined.

(** The claim as stated scales the alpha of the colour; the code replaces
    it.  With the half-transparent black [#00000080] and opacity 0.5 the
    code builds alpha 127 where scaling gives [floor(128 * 0.5) = 64]. *)
Lemma opacity_does_not_scale_alpha :
  in_unit_interval f0_5 = true
  /\ color_with_opacity "#00000080" f0_5 = Ok (0, 0, 0, 127)
  /\ (c <~ hex_to_rgba "#00000080" ;; Spec.applyOpacity c f0_5)
     = Ok (0, 0, 0, 64)
  /\ color_with_opacity "#00000080" f0_5
     <> (c <~ hex_to_rgba "#00000080" ;; Spec.applyOpacity c f0_5).
Proof.
  refine (conj eq_refl (conj eq_refl (conj eq_refl _))). discriminate.
Qed.

(** ** C4: the outline *)

(** C4. For every outline width [w >= 0] (and every outline colour that
    parses and finite opacity), the outline effect draws the text at
    [origin + (dx, dy)] once for every pair [(dx, dy)] of
    [[-w, w] x [-w, w]] other than [(0, 0)], in the order of the two
    loops, each with the outline colour and [int(255 * opacity)] as
    alpha, and then the base text once at the origin: [(2w+1)^2 - 1]
    offset draws and one base draw. *)
Theorem outline_draws (E : env) (text : string) (p : position)
        (fnt : font) (color : string) (ost : option settings)
        (sh : option legacy_shadow) (other : bool) (r g b a : Z) :
  let st := get_or ost no_settings in
  let w := get_or (st_width st) 2 in
  let o := get_or (st_opacity st) (lit 1) in
  let size := text_size E text fnt in
  let org := origin (fst (anchor_of p)) (snd (anchor_of p))
                    (fst size) (snd size) in
  let outline_fill := FillRGBA (r, g, b, trunc (fmul (lit 255) o)) in
  0 <= snd size < 2 ^ 51 ->
  0 <= w ->
  hex_to_rgba (get_or (st_color st) "#000000") = Ok (r, g, b, a) ->
  bounded_by 900 o = true ->
  (forall cv,
      apply_text_effects E text p fnt color
                         (Some (mkEffects (Some "outline") ost sh other)) cv
      = (Ok tt,
         cv ++ map (fun d => mkDraw (fst org + fst d, snd org + snd d) text
                                    outline_fill fnt)
                   (outline_offsets w)
            ++ [mkDraw org text (FillStr color) fnt]))
  /\ Z.of_nat (List.length (outline_offsets w)) = (2 * w + 1) ^ 2 - 1
  /\ NoDup (outline_offsets w)
  /\ (forall dx dy, In (dx, dy) (outline_offsets w)
                    <-> - w <= dx <= w /\ - w <= dy <= w /\ (dx, dy) <> (0, 0)).
Proof.
  intros st w o size org outline_fill Hh Hw Hc Ho.
  pose proof (alpha_finite o Ho) as Hfin.
  split; [ | split; [ now apply length_outline_offsets | split;
                      [ apply NoDup_outline_offsets
                      | intros; apply in_outline_offsets ] ] ].
  intros cv. rewrite apply_text_effects_origin by exact Hh.
  cbn [truthy ef_type ef_settings is_some orb].
  fold size. fold org. unfold typed_effect. cbn [String.eqb Ascii.eqb Bool.eqb].
  fold st.
  rewrite (outline_emits text fnt color (fst org) (snd org) st r g b a Hc Hfin cv).
  destruct org; reflexivity.
Qed.

(** Width 2: the 24 cells of the 5 by 5 grid around the origin, then the
    base text. *)
Lemma outline_draws_witness :
  0 <= snd (text_size demo_env "Hi" BuiltinDefault) < 2 ^ 51
  /\ 0 <= 2
  /\ hex_to_rgba "#000000" = Ok (0, 0, 0, 255)
  /\ bounded_by 900 (lit 1) = true
  /\ fst (demo_render (unified "outline" demo_outline)) = Ok tt
  /\ List.length (snd (demo_render (unified "outline" demo_outline)))
     = 25%nat
  /\ List.length (outline_offsets 2) = 24%nat
  /\ hd_error (snd (demo_render (unified "outline" demo_outline)))
     = Some (mkDraw (78, 81) "Hi" (FillRGBA (0, 0, 0, 255)) BuiltinDefault)
  /\ last (snd (demo_render (unified "outline" demo_outline))) no_draw
     = mkDraw (80, 83) "Hi" (FillStr "#FFFFFF") BuiltinDefault.
Proof.
  assert (Hh : 0 <= snd (text_size demo_env "Hi" BuiltinDefault) < 2 ^ 51)
    by (cbn; lia).
  assert (Hw : 0 <= 2) by lia.
  destruct (outline_draws demo_env "Hi" demo_anchor BuiltinDefault "#FFFFFF"
              (Some demo_outline) None false 0 0 0 255
              Hh Hw eq_refl eq_refl) as (H1 & _).
  refine (conj Hh (conj Hw (conj eq_refl (conj eq_refl _)))).
  unfold demo_render, unified. rewrite (H1 []).
  refine (conj eq_refl (conj eq_refl (conj eq_refl (conj eq_refl eq_refl)))).
Defined.

(** ** C5: the glow *)

Lemma length_flat_map_const {A B} (f : A -> list B) (xs : list A) (k : nat) :
  (forall x, List.length (f x) = k) ->
  List.length (flat_map f xs) = (List.length xs * k)%nat.
Proof.
  intros Hf. induction xs as [ | x xs IH]; [ reflexivity | ].
  cbn [flat_map List.length]. rewrite length_app, Hf, IH. lia.
Qed.

Lemma trig_bounded_in (E : env) (args : list float) (x : float) :
  trig_bounded E args = true -> In x args ->
  bounded_by 1 (math_cos E x) = true /\ bounded_by 1 (math_sin E x) = true.
Proof.
  unfold trig_bounded. rewrite forallb_forall. intros H Hin.
  now apply andb_prop, H.
Qed.

(** The glow on binary64 arithmetic, with the angles converted by the
    embedded [radians]. *)
Lemma glow_effect_draws (E : env) (text : string) (p : position)
        (fnt : font) (color : string) (ost : option settings)
        (sh : option legacy_shadow) (other : bool) (r g b a : Z) :
  let st := get_or ost no_settings in
  let radius := get_or (st_radius st) 10 in
  let o := get_or (st_opacity st) f0_7 in
  let steps := Z.min radius 20 in
  let size := text_size E text fnt in
  let org := origin (fst (anchor_of p)) (snd (anchor_of p))
                    (fst size) (snd size) in
  let ring_radius i := fmul (int_ratio i steps) (lit radius) in
  let ring_alpha i :=
    trunc (fmul (lit 255) (fmul o (fsub (lit 1) (int_ratio i steps)))) in
  let point i angle :=
    mkDraw (fst org + trunc (fmul (ring_radius i)
                                  (math_cos E (radians (lit angle)))),
            snd org + trunc (fmul (ring_radius i)
                                  (math_sin E (radians (lit angle)))))
           text (FillRGBA (r, g, b, ring_alpha i)) fnt in
  let rings :=
    flat_map (fun i => map (point i) ring_angles) (range 1 (steps + 1)) in
  0 <= snd size < 2 ^ 51 ->
  1 <= radius < 2 ^ 900 ->
  hex_to_rgba (get_or (st_color st) "#FFFFFF") = Ok (r, g, b, a) ->
  bounded_by 900 o = true ->
  trig_bounded E (map (fun angle => radians (lit angle)) ring_angles) = true ->
  (forall cv,
      apply_text_effects E text p fnt color
                         (Some (mkEffects (Some "glow") ost sh other)) cv
      = (Ok tt, cv ++ rings ++ [mkDraw org text (FillStr color) fnt]))
  /\ Z.of_nat (List.length rings) = 12 * steps.
Proof.
  intros st radius o steps size org ring_radius ring_alpha point rings
         Hh Hr Hc Ho Htrig.
  assert (Hsteps : 1 <= steps <= 20) by (unfold steps; lia).
  assert (Hrad : bounded_by 901 (lit radius) = true).
  { apply (lit_bounded radius 900); lia. }
  assert (Hq : forall i, 1 <= i <= steps ->
                         bounded_by 2 (int_ratio i steps) = true).
  { intros i Hi. now apply int_ratio_bounded. }
  assert (Hang : forall angle, In angle (range_step 0 360 30) ->
                   bounded_by 1 (math_cos E (radians (lit angle))) = true
                   /\ bounded_by 1 (math_sin E (radians (lit angle))) = true).
  { intros angle Hin. apply (trig_bounded_in E _ _ Htrig).
    apply (in_map (fun angle => radians (lit angle))).
    rewrite glow_angles in Hin. exact Hin. }
  assert (Hrr : forall i, 1 <= i <= steps ->
                          bounded_by 904 (ring_radius i) = true).
  { intros i Hi. unfold ring_radius.
    now apply (fmul_bounded 2 901 _ _ (Hq i Hi) Hrad). }
  assert (Hem : emits (glow_effect E text fnt color (fst org) (snd org) st)
                      (Ok tt)
                      (rings ++ [mkDraw org text (FillStr color) fnt])).
  { unfold glow_effect. fold radius. fold o. fold steps.
    eapply emits_lift_ok;
      [ exact (color_with_opacity_ok _ _ _ _ _ _ Hc (alpha_finite o Ho)) | ].
    eapply emits_bind_ok; [ | destruct org; apply emits_draw ].
    unfold rings, point, ring_radius, ring_alpha, ring_angles.
    rewrite <- glow_angles.
    apply (glow_rings_emit E text fnt (fst org) (snd org) radius o r g b).
    + exact (bounded_finite _ _ Hrad).
    + intros i Hi. split; [ exact (bounded_finite _ _ (Hq i Hi)) | ].
      pose proof (fsub_bounded 2 2 (lit 1) _ eq_refl (Hq i Hi) ltac:(lia)) as H1.
      destruct (fmul_bounded 900 _ _ _ Ho H1 ltac:(lia)) as [H2 _].
      destruct (fmul_bounded 8 _ (lit 255) _ eq_refl H2 ltac:(lia)) as [H3 _].
      exact (bounded_finite _ _ H3).
    + intros angle Hin. destruct (Hang angle Hin) as [Hcos Hsin].
      split; eapply bounded_finite; eassumption.
    + intros i angle Hi Hin. destruct (Hang angle Hin) as [Hcos Hsin].
      destruct (fmul_bounded 904 1 _ _ (Hrr i Hi) Hcos ltac:(lia)) as [H1 _].
      destruct (fmul_bounded 904 1 _ _ (Hrr i Hi) Hsin ltac:(lia)) as [H2 _].
      split; eapply bounded_finite; eassumption. }
  split.
  - intros cv. rewrite apply_text_effects_origin by exact Hh.
    cbn [truthy ef_type ef_settings is_some orb].
    fold size. fold org. unfold typed_effect. cbn [String.eqb Ascii.eqb Bool.eqb].
    fold st. apply Hem.
  - unfold rings. rewrite (length_flat_map_const _ _ 12).
    + rewrite length_range. lia.
    + intros i. now rewrite length_map.
Qed.

(** [math.radians] multiplies by the double nearest to [pi / 180]. *)
Lemma radians_is_product (x : float) : radians x = fmul x pi_over_180.
Proof.
  assert (H : degToRad = pi_over_180) by (vm_compute; reflexivity).
  unfold radians. now rewrite H.
Qed.

Lemma ring_radians_of_angles :
  map (fun angle => fmul (lit angle) pi_over_180) ring_angles = ring_radians.
Proof. vm_compute. reflexivity. Qed.

(** C5 (as amended). For every glow radius [r] with [1 <= r < 2^900]
    and every finite opacity [o] below [2^900] in magnitude (given a
    glow colour that parses and a libm whose cosine and sine at the
    twelve angles are finite and below 2 in magnitude), the glow effect
    uses [steps = min(r, 20)] rings; for each ring [i = 1 .. steps], in
    that order, it draws the text at the twelve angles 0, 30, ..., 330
    degrees, at the origin plus
    [(int(R * cos(theta)), int(R * sin(theta)))] where
    [R = (i / steps) * r], the quotient first, and
    [theta = angle * (pi / 180)], with alpha
    [int(255 * (o * (1 - i / steps)))], truncated toward zero: all in
    binary64, in this order of evaluation.  Then it draws the base text
    once at the origin.  That is [12 * steps] offset draws and one base
    draw.  The twelve values of [theta] are the doubles of
    [ring_radians]. *)
Theorem glow_draws (E : env) (text : string) (p : position)
        (fnt : font) (color : string) (ost : option settings)
        (sh : option legacy_shadow) (other : bool) (r g b a : Z) :
  let st := get_or ost no_settings in
  let radius := get_or (st_radius st) 10 in
  let o := get_or (st_opacity st) f0_7 in
  let steps := Z.min radius 20 in
  let size := text_size E text fnt in
  let org := origin (fst (anchor_of p)) (snd (anchor_of p))
                    (fst size) (snd size) in
  let ring_radius i := fmul (int_ratio i steps) (lit radius) in
  let ring_alpha i :=
    trunc (fmul (lit 255) (fmul o (fsub (lit 1) (int_ratio i steps)))) in
  let theta angle := fmul (lit angle) pi_over_180 in
  let point i angle :=
    mkDraw (fst org + trunc (fmul (ring_radius i) (math_cos E (theta angle))),
            snd org + trunc (fmul (ring_radius i) (math_sin E (theta angle))))
           text (FillRGBA (r, g, b, ring_alpha i)) fnt in
  let rings :=
    flat_map (fun i => map (point i) ring_angles) (range 1 (steps + 1)) in
  0 <= snd size < 2 ^ 51 ->
  1 <= radius < 2 ^ 900 ->
  hex_to_rgba (get_or (st_color st) "#FFFFFF") = Ok (r, g, b, a) ->
  bounded_by 900 o = true ->
  trig_bounded E ring_radians = true ->
  (forall cv,
      apply_text_effects E text p fnt color
                         (Some (mkEffects (Some "glow") ost sh other)) cv
      = (Ok tt, cv ++ rings ++ [mkDraw org text (FillStr color) fnt]))
  /\ Z.of_nat (List.length rings) = 12 * steps
  /\ map theta ring_angles = ring_radians.
Proof.
  intros st radius o steps size org ring_radius ring_alpha theta point rings
         Hh Hr Hc Ho Htrig.
  assert (Htrig' : trig_bounded E (map (fun angle => radians (lit angle))
                                       ring_angles) = true).
  { rewrite <- ring_radians_of_angles in Htrig.
    erewrite map_ext; [ exact Htrig | ].
    intros angle. apply radians_is_product. }
  destruct (glow_effect_draws E text p fnt color ost sh other r g b a
                              Hh Hr Hc Ho Htrig') as [H1 H2].
  assert (Hrings :
            flat_map (fun i =>
                        map (fun angle =>
                               mkDraw (fst org
                                       + trunc (fmul (ring_radius i)
                                                  (math_cos E (radians (lit angle)))),
                                       snd org
                                       + trunc (fmul (ring_radius i)
                                                  (math_sin E (radians (lit angle)))))
                                      text (FillRGBA (r, g, b, ring_alpha i)) fnt)
                            ring_angles)
                     (range 1 (steps + 1))
            = rings).
  { unfold rings, point, theta. apply flat_map_ext. intros i.
    apply map_ext. intros angle. now rewrite radians_is_product. }
  split; [ | split ].
  - intros cv. rewrite <- Hrings. apply H1.
  - rewrite <- Hrings. exact H2.
  - exact ring_radians_of_angles.
Qed.

(** Radius 10: ten rings of twelve draws, then the base text. *)
Lemma glow_draws_witness :
  0 <= snd (text_size demo_env "Hi" BuiltinDefault) < 2 ^ 51
  /\ 1 <= 10 < 2 ^ 900
  /\ hex_to_rgba "#FFFFFF" = Ok (255, 255, 255, 255)
  /\ bounded_by 900 f0_7 = true
  /\ trig_bounded demo_env ring_radians = true
  /\ fst (demo_render (unified "glow" demo_glow)) = Ok tt
  /\ List.length (snd (demo_render (unified "glow" demo_glow))) = 121%nat
  /\ hd_error (snd (demo_render (unified "glow" demo_glow)))
     = Some (mkDraw (81, 83) "Hi" (FillRGBA (255, 255, 255, 160))
                    BuiltinDefault)
  /\ last (snd (demo_render (unified "glow" demo_glow))) no_draw
     = mkDraw (80, 83) "Hi" (FillStr "#FFFFFF") BuiltinDefault.
Proof.
  assert (Hh : 0 <= snd (text_size demo_env "Hi" BuiltinDefault) < 2 ^ 51)
    by (cbn; lia).
  assert (Hr : 1 <= 10 < 2 ^ 900) by (split; [ lia | reflexivity ]).
  assert (Ht : trig_bounded demo_env ring_radians = true)
    by (vm_compute; reflexivity).
  destruct (glow_draws demo_env "Hi" demo_anchor BuiltinDefault "#FFFFFF"
              (Some demo_glow) None false 255 255 255 255
              Hh Hr eq_refl eq_refl Ht) as (H1 & _).
  refine (conj Hh (conj Hr (conj eq_refl (conj eq_refl (conj Ht _))))).
  unfold demo_render, unified. rewrite (H1 []).
  refine (conj eq_refl (conj _ (conj _ _))); vm_compute; reflexivity.
Defined.

(** The claim as stated has the radius [r * i / steps] and the alpha
    [floor(255 * o * (1 - i / steps))].  With radius 90, ring 14 of 20
    is drawn at angle 0 at the origin plus 62, its radius being
    [(14 / 20) * 90 = 62.99999999999999], where [90 * 14 / 20] is 63.
    With the default opacity 0.7 and radius 7, ring 3 has alpha 101
    where the product taken from the left gives 102; and with the
    opacity -0.5 the first ring has alpha -114, truncated toward zero,
    where the floor is -115. *)
Lemma glow_ring_not_as_worded :
  fst (demo_render (unified "glow" wide_glow)) = Ok tt
  /\ option_map dc_xy
       (nth_error (snd (demo_render (unified "glow" wide_glow))) 156)
     = Some (80 + 62, 83)
  /\ trunc (fmul (int_ratio 14 20) (lit 90)) = 62
  /\ trunc (Spec.currentRadius 90 14 20) = 63
  /\ trunc (fmul (Spec.currentRadius 90 14 20)
                 (math_cos demo_env (radians (lit 0)))) = 63
  /\ trunc (fmul (lit 255) (fmul f0_7 (fsub (lit 1) (int_ratio 3 7)))) = 101
  /\ Spec.ringAlpha f0_7 3 7 = 102
  /\ option_map dc_fill
       (hd_error (snd (demo_render (unified "glow" dark_glow))))
     = Some (FillRGBA (255, 255, 255, -114))
  /\ Spec.ringAlpha (fdiv (lit (-1)) (lit 2)) 1 10 = -115
  /\ option_map dc_xy
       (nth_error (snd (demo_render (unified "glow" wide_glow))) 156)
     <> Some (80 + trunc (fmul (Spec.currentRadius 90 14 20)
                               (math_cos demo_env (radians (lit 0)))), 83).
Proof.
  repeat split; try (vm_compute; reflexivity).
  vm_compute. discriminate.
Qed.

(** ** C6: the depth effect *)

(** The depth effect on binary64 arithmetic, for a colour list that is
    not empty and the angle converted by the embedded [radians]. *)
Lemma depth_effect_draws (E : env) (text : string) (p : position)
        (fnt : font) (color : string) (ost : option settings)
        (sh : option legacy_shadow) (other : bool) :
  let st := get_or ost no_settings in
  let layers := get_or (st_layers st) 10 in
  let angle := get_or (st_angle st) (lit 45) in
  let distance := get_or (st_distance st) (lit 2) in
  let gradient :=
    get_or (st_color_gradient st) ["#333333"; "#666666"; "#999999"] in
  let n := Z.of_nat (List.length gradient) in
  let size := text_size E text fnt in
  let org := origin (fst (anchor_of p)) (snd (anchor_of p))
                    (fst size) (snd size) in
  let dx := fmul (math_cos E (radians angle)) distance in
  let dy := fmul (math_sin E (radians angle)) distance in
  let color_index layer :=
    Z.min (trunc (fmul (int_ratio layer layers) (lit (n - 1)))) (n - 1) in
  let layer_draw layer :=
    mkDraw (fst org - trunc (fmul (lit layer) dx),
            snd org - trunc (fmul (lit layer) dy))
           text (FillStr (nth (Z.to_nat (color_index layer)) gradient "")) fnt in
  0 <= snd size < 2 ^ 51 ->
  layers < 2 ^ 400 ->
  1 <= n < 2 ^ 400 ->
  bounded_by 400 distance = true ->
  trig_bounded E [radians angle] = true ->
  (forall cv,
      apply_text_effects E text p fnt color
                         (Some (mkEffects (Some "3d_depth") ost sh other)) cv
      = (Ok tt,
         cv ++ map (fun j => layer_draw (layers - j)) (range 0 layers)
            ++ [mkDraw org text (FillStr color) fnt]))
  /\ (forall layer, 1 <= layer <= layers -> 0 <= color_index layer <= n - 1).
Proof.
  intros st layers angle distance gradient n size org dx dy color_index
         layer_draw Hh HL Hn Hd Htrig.
  destruct (trig_bounded_in E _ (radians angle) Htrig ltac:(now left))
    as [Hcos Hsin].
  assert (Hdx : bounded_by 402 dx = true).
  { now apply (fmul_bounded 1 400 _ _ Hcos Hd). }
  assert (Hdy : bounded_by 402 dy = true).
  { now apply (fmul_bounded 1 400 _ _ Hsin Hd). }
  destruct (lit_bounded (n - 1) 400 ltac:(lia) ltac:(lia)) as [Hn1 Hn1'].
  specialize (Hn1' ltac:(lia)).
  assert (Hk : forall i, 1 <= i <= layers ->
                 bounded_by 404 (fmul (int_ratio i layers) (lit (n - 1))) = true
                 /\ nonneg (fmul (int_ratio i layers) (lit (n - 1))) = true).
  { intros i Hi. destruct (int_ratio_bounded i layers Hi) as [Hq Hq'].
    destruct (fmul_bounded 2 401 _ _ Hq Hn1 ltac:(lia)) as [H1 H2].
    split; [ exact H1 | now apply H2 ]. }
  assert (Hem : emits (depth_effect E text fnt color (fst org) (snd org) st)
                      (Ok tt)
                      (map (fun j => layer_draw (layers - j)) (range 0 layers)
                       ++ [mkDraw org text (FillStr color) fnt])).
  { unfold depth_effect. fold layers. fold angle. fold distance. fold gradient.
    eapply emits_lift_ok;
      [ exact (math_call_finite _ _ (bounded_finite _ _ Hcos)) | ].
    eapply emits_lift_ok;
      [ exact (math_call_finite _ _ (bounded_finite _ _ Hsin)) | ].
    eapply emits_bind_ok; [ | destruct org; apply emits_draw ].
    unfold layer_draw, color_index, dx, dy, n.
    apply (depth_layers_emit E text fnt (fst org) (snd org) layers angle
                             distance gradient).
    - fold n. lia.
    - exact (bounded_finite _ _ Hn1).
    - intros i Hi. fold n. fold dx. fold dy.
      destruct (int_ratio_bounded i layers Hi) as [Hq _].
      destruct (Hk i Hi) as [Hk1 Hk2].
      destruct (lit_bounded i 400 ltac:(lia) ltac:(lia)) as [Hi1 _].
      destruct (fmul_bounded 401 402 _ _ Hi1 Hdx ltac:(lia)) as [Hx _].
      destruct (fmul_bounded 401 402 _ _ Hi1 Hdy ltac:(lia)) as [Hy _].
      repeat split; try (eapply bounded_finite; eassumption).
      now apply nonneg_trunc. }
  split.
  - intros cv. rewrite apply_text_effects_origin by exact Hh.
    cbn [truthy ef_type ef_settings is_some orb].
    fold size. fold org. unfold typed_effect. cbn [String.eqb Ascii.eqb Bool.eqb].
    fold st. apply Hem.
  - intros i Hi. destruct (Hk i Hi) as [_ Hk2].
    apply nonneg_trunc in Hk2. unfold color_index. lia.
Qed.

Lemma bind_lift_ok {A B} (a : A) (k : A -> M canvas B) (cv : canvas) :
  bind (lift (Ok a)) k cv = k a cv.
Proof. reflexivity. Qed.

Lemma range_empty (a b : Z) : b <= a -> range a b = [].
Proof. intros H. unfold range. replace (Z.to_nat (b - a)) with 0%nat by lia. reflexivity. Qed.

Lemma range_down_empty (n : Z) : n <= 0 -> range_step n 0 (-1) = [].
Proof.
  intros H. unfold range_step. cbn [Z.ltb Z.compare].
  replace ((n - 0 - -1 - 1) / - -1) with n
    by (change (- -1) with 1; rewrite Z.div_1_r; lia).
  replace (Z.to_nat n) with 0%nat by lia. reflexivity.
Qed.

(** C6 (as amended). For every [3d_depth] spec with [L] layers, angle
    [a] (degrees), distance [d] and a list of [N] colours that is not
    empty unless [L <= 0] (sizes below [2^400], and a libm whose cosine
    and sine of [theta = a * (pi / 180)] are finite and below 2 in
    magnitude), the effect draws the text once per layer, for
    [layer = L] down to [1], at the origin minus
    [(int(layer * (cos(theta) * d)), int(layer * (sin(theta) * d)))],
    the product with the distance first, filled with the colour at
    index [min(int((layer / L) * (N - 1)), N - 1)] of the list, an
    index that always lies in [[0, N - 1]]; then it draws the base text
    at the origin.  All arithmetic is binary64, in this order of
    evaluation. *)
Theorem depth_draws (E : env) (text : string) (p : position)
        (fnt : font) (color : string) (ost : option settings)
        (sh : option legacy_shadow) (other : bool) :
  let st := get_or ost no_settings in
  let layers := get_or (st_layers st) 10 in
  let angle := get_or (st_angle st) (lit 45) in
  let distance := get_or (st_distance st) (lit 2) in
  let gradient :=
    get_or (st_color_gradient st) ["#333333"; "#666666"; "#999999"] in
  let n := Z.of_nat (List.length gradient) in
  let size := text_size E text fnt in
  let org := origin (fst (anchor_of p)) (snd (anchor_of p))
                    (fst size) (snd size) in
  let theta := fmul angle pi_over_180 in
  let dx := fmul (math_cos E theta) distance in
  let dy := fmul (math_sin E theta) distance in
  let color_index layer :=
    Z.min (trunc (fmul (int_ratio layer layers) (lit (n - 1)))) (n - 1) in
  let layer_draw layer :=
    mkDraw (fst org - trunc (fmul (lit layer) dx),
            snd org - trunc (fmul (lit layer) dy))
           text (FillStr (nth (Z.to_nat (color_index layer)) gradient "")) fnt in
  0 <= snd size < 2 ^ 51 ->
  layers < 2 ^ 400 ->
  n < 2 ^ 400 ->
  1 <= n \/ layers <= 0 ->
  bounded_by 400 distance = true ->
  trig_bounded E [theta] = true ->
  (forall cv,
      apply_text_effects E text p fnt color
                         (Some (mkEffects (Some "3d_depth") ost sh other)) cv
      = (Ok tt,
         cv ++ map (fun j => layer_draw (layers - j)) (range 0 layers)
            ++ [mkDraw org text (FillStr color) fnt]))
  /\ (forall layer, 1 <= layer <= layers -> 0 <= color_index layer <= n - 1).
Proof.
  intros st layers angle distance gradient n size org theta dx dy color_index
         layer_draw Hh HL Hn Hne Hd Htrig.
  assert (Hth : radians angle = theta) by apply radians_is_product.
  destruct Hne as [Hne | Hzero].
  - pose proof (depth_effect_draws E text p fnt color ost sh other) as H.
    cbv zeta in H. fold st in H. fold layers angle distance gradient in H.
    fold n size in H. fold org in H. rewrite Hth in H.
    exact (H Hh HL (conj Hne Hn) Hd Htrig).
  - split; [ | intros layer Hl; lia ].
    intros cv. rewrite apply_text_effects_origin by exact Hh.
    cbn [truthy ef_type ef_settings is_some orb].
    fold size. fold org. unfold typed_effect. cbn [String.eqb Ascii.eqb Bool.eqb].
    fold st. unfold depth_effect. fold layers. fold angle. rewrite Hth.
    destruct (trig_bounded_in E _ theta Htrig ltac:(now left)) as [Hcos Hsin].
    rewrite (math_call_finite _ _ (bounded_finite _ _ Hcos)), bind_lift_ok.
    rewrite (math_call_finite _ _ (bounded_finite _ _ Hsin)), bind_lift_ok.
    rewrite range_down_empty, range_empty by lia.
    destruct org. reflexivity.
Qed.

(** The preset: ten layers at 45 degrees, distance 2, three colours. *)
Lemma depth_draws_witness :
  0 <= snd (text_size demo_env "Hi" BuiltinDefault) < 2 ^ 51
  /\ 10 < 2 ^ 400
  /\ 3 < 2 ^ 400
  /\ (1 <= 3 \/ 10 <= 0)
  /\ bounded_by 400 (lit 2) = true
  /\ trig_bounded demo_env [fmul (lit 45) pi_over_180] = true
  /\ fst (demo_render (unified "3d_depth" demo_depth)) = Ok tt
  /\ map dc_xy (snd (demo_render (unified "3d_depth" demo_depth)))
     = [ (66, 69); (68, 71); (69, 72); (71, 74); (72, 75); (73, 76);
         (75, 78); (76, 79); (78, 81); (79, 82); (80, 83) ]
  /\ map dc_fill (snd (demo_render (unified "3d_depth" demo_depth)))
     = [ FillStr "#999999"; FillStr "#666666"; FillStr "#666666";
         FillStr "#666666"; FillStr "#666666"; FillStr "#666666";
         FillStr "#333333"; FillStr "#333333"; FillStr "#333333";
         FillStr "#333333"; FillStr "#FFFFFF" ].
Proof.
  assert (Hh : 0 <= snd (text_size demo_env "Hi" BuiltinDefault) < 2 ^ 51)
    by (cbn; lia).
  assert (HL : 10 < 2 ^ 400) by reflexivity.
  assert (Hn : 3 < 2 ^ 400) by reflexivity.
  assert (Hne : 1 <= 3 \/ 10 <= 0) by (left; lia).
  assert (Ht : trig_bounded demo_env [fmul (lit 45) pi_over_180] = true)
    by (vm_compute; reflexivity).
  destruct (depth_draws demo_env "Hi" demo_anchor BuiltinDefault "#FFFFFF"
              (Some demo_depth) None false Hh HL Hn Hne eq_refl Ht)
    as (H1 & _).
  refine (conj Hh (conj HL (conj Hn (conj Hne (conj eq_refl (conj Ht _)))))).
  unfold demo_render, unified. rewrite (H1 []).
  refine (conj eq_refl (conj _ _)); vm_compute; reflexivity.
Defined.

(** The claim as stated has the offset [int(layer * cos(radians(a)) * d)],
    the product taken from the left, and covers every colour list.  At
    30 degrees and distance 0.2, layer 30 of 30 is drawn 2 above the
    origin, [int(30 * (sin * 0.2))] with [30 * 0.09999999999999999]
    just below 3, where [int(30 * sin * 0.2)] is 3.  And with an empty
    colour list and one layer the effect raises [IndexError] and draws
    nothing, not even the base text. *)
Lemma depth_not_as_worded :
  fst (demo_render (unified "3d_depth" steep_depth)) = Ok tt
  /\ option_map dc_xy
       (hd_error (snd (demo_render (unified "3d_depth" steep_depth))))
     = Some (80 - 5, 83 - 2)
  /\ Spec.depthOffset 30 (math_cos demo_env (radians (lit 30))) f0_2 = 5
  /\ Spec.depthOffset 30 (math_sin demo_env (radians (lit 30))) f0_2 = 3
  /\ demo_render (unified "3d_depth" no_colours)
     = (Raise (mkExn IndexError "list index out of range"), [])
  /\ option_map dc_xy
       (hd_error (snd (demo_render (unified "3d_depth" steep_depth))))
     <> Some (80 - Spec.depthOffset 30 (math_cos demo_env (radians (lit 30)))
                                    f0_2,
              83 - Spec.depthOffset 30 (math_sin demo_env (radians (lit 30)))
                                    f0_2).
Proof.
  repeat split; try (vm_compute; reflexivity).
  vm_compute. discriminate.
Qed.

(** * The service *)

Lemma get_font_total (E : env) (font_name : string) (font_size : Z) :
  get_font E font_name font_size = Ok (resolved_font E font_name font_size).
Proof.
  unfold get_font, resolved_font. fold (primary_font E font_name font_size).
  destruct (primary_font E font_name font_size); cbn [rtry]; [ reflexivity | ].
  destruct (truetype E "Arial" font_size); reflexivity.
Qed.

Lemma lower_upper_char (c : ascii) :
  PyStr.lower_char (PyStr.upper_char c) = PyStr.lower_char c.
Proof. destruct c as [[] [] [] [] [] [] [] []]; reflexivity. Qed.

Lemma lower_upper (s : string) : PyStr.lower (PyStr.upper s) = PyStr.lower s.
Proof.
  induction s as [ | c s IH]; [ reflexivity | ].
  cbn [PyStr.lower PyStr.upper PyStr.map_chars].
  rewrite lower_upper_char. f_equal. exact IH.
Qed.

(** ** C8: font resolution *)

Lemma fold_letter_lower (c : ascii) : Spec.fold_letter c = PyStr.lower_char c.
Proof. destruct c as [[] [] [] [] [] [] [] []]; reflexivity. Qed.

Lemma fold_case_lower (s : string) : Spec.fold_case s = PyStr.lower s.
Proof.
  induction s as [ | c s IH]; [ reflexivity | ].
  cbn [Spec.fold_case PyStr.lower PyStr.map_chars].
  rewrite fold_letter_lower. f_equal. exact IH.
Qed.

(** C8. For every font name and every size, [_get_font] returns a handle
    and never raises, and the handle is the one the fallback chain of
    the specification names.  The name is matched against the six
    aliases without regard to the case of its letters; the alias of a
    font file is loaded from [assets/fonts] when the file is there and
    by its file name as a system font when it is not, the alias of a
    system font is loaded by that name, and a name that matches no
    alias is loaded as a system font itself.  If that one load fails,
    the system font ["Arial"] is loaded; if that fails too, the built-in
    default font is returned. *)
Theorem get_font_never_raises (E : env) (font_name : string) (font_size : Z) :
  get_font E font_name font_size = Ok (Spec.resolve E font_name font_size)
  /\ dict_get dramatic_fonts (PyStr.lower (PyStr.upper font_name))
     = dict_get dramatic_fonts (PyStr.lower font_name).
Proof.
  split; [ | now rewrite lower_upper ].
  unfold get_font, Spec.resolve, Spec.first_loaded, Spec.first_choice.
  rewrite fold_case_lower.
  set (k := PyStr.lower font_name).
  cbn [dict_get dramatic_fonts find Spec.aliases fst].
  repeat match goal with
         | |- context [String.eqb k ?s] => destruct (String.eqb k s)
         end;
    cbn [PyStr.endswith];
    repeat match goal with
           | |- context [path_exists E ?q] =>
               let q' := eval vm_compute in q in
               change q with q';
               destruct (path_exists E q')
           end;
    cbn -[truetype];
    repeat match goal with
           | |- context [truetype E ?n font_size] =>
               destruct (truetype E n font_size)
           end;
    reflexivity.
Qed.

(** The chain on concrete requests: an aliased file whatever the case
    of the name, an aliased system font, a raw name, and a machine
    without any font. *)
Lemma get_font_never_raises_witness :
  get_font demo_env "ANTON" 150
  = Ok (TrueType "assets/fonts/Anton-Regular.ttf" 150)
  /\ get_font demo_env "Impact" 120 = Ok (TrueType "Impact" 120)
  /\ get_font demo_env "Comic Sans" 90 = Ok (TrueType "Comic Sans" 90)
  /\ get_font demo_env_no_fonts "anton" 150 = Ok BuiltinDefault.
Proof.
  exact (conj (proj1 (get_font_never_raises demo_env "ANTON" 150))
          (conj (proj1 (get_font_never_raises demo_env "Impact" 120))
             (conj (proj1 (get_font_never_raises demo_env "Comic Sans" 90))
                (proj1 (get_font_never_raises demo_env_no_fonts "anton" 150))))).
Defined.

(** ** C10: dramatic text on the empty string *)

(** C10. With the empty string as text and [with_period] set,
    [add_dramatic_text] raises a [ValueError] that wraps the
    [IndexError] of reading the last character, whatever the other
    arguments, and leaves no file and no upload behind: [add_text] is
    never reached. *)
Theorem add_dramatic_text_empty (E : env) (background_path : string)
        (pos : pos_dict) (font_size : Z) (color font_name : string)
        (to_uppercase : bool) (effects : option effects_dict) (w : world) :
  add_dramatic_text E background_path "" pos font_size color font_name
                    true to_uppercase effects w
  = (Raise (mkExn ValueError
                  "Failed to add dramatic text: string index out of range"),
     w).
Proof. destruct to_uppercase; reflexivity. Qed.

(** ** C9: an unknown effect type *)

Lemma appends_apply_text_effects E text p fnt color effects :
  appends (apply_text_effects E text p fnt color effects).
Proof.
  unfold apply_text_effects.
  destruct (text_size E text fnt) as [tw th]. destruct (anchor_of p) as [x y].
  apply appends_bind; [ apply appends_lift | intros adj ].
  destruct effects as [d | ]; [ | apply appends_draw ].
  destruct (truthy (Some d)); [ | apply appends_draw ].
  destruct (ef_type d); [ apply appends_typed | apply appends_legacy ].
Qed.

Lemma appends_render_layers E layers : appends (render_layers E layers).
Proof.
  apply appends_for_each. intros layer. unfold render_layer.
  repeat (apply appends_bind; [ apply appends_lift | intros ]).
  apply appends_apply_text_effects.
Qed.

Lemma for_each_app {S A} (xs ys : list A) (body : A -> M S unit) (s : S) :
  for_each (xs ++ ys) body s
  = bind (for_each xs body) (fun _ => for_each ys body) s.
Proof.
  revert s. induction xs as [ | x xs IH]; intros s; [ reflexivity | ].
  cbn [app for_each]. unfold bind.
  destruct (body x s) as [[[] | e] s']; [ | reflexivity ].
  rewrite IH. unfold bind. reflexivity.
Qed.

(** An unknown effect type in the embedding: the one call that is
    issued, and the calls of the layers around it. *)
Lemma unknown_effect_issues_plain (E : env) (d : effects_dict)
        (effect_type : string) :
  ef_type d = Some effect_type ->
  ~ In effect_type ["shadow"; "outline"; "glow"; "3d_depth"] ->
  (forall text p fnt color cv,
      let size := text_size E text fnt in
      let org := origin (fst (anchor_of p)) (snd (anchor_of p))
                        (fst size) (snd size) in
      0 <= snd size < 2 ^ 51 ->
      apply_text_effects E text p fnt color (Some d) cv
      = (Ok tt, cv ++ [mkDraw org text (FillStr color) fnt]))
  /\ (forall layer before after x y,
         let fnt :=
           resolved_font E (get_or (sy_font_name (tl_style layer)) "anton")
                         (get_or (sy_font_size (tl_style layer)) 120) in
         let size := text_size E (tl_text layer) fnt in
         let plain :=
           mkDraw (origin x y (fst size) (snd size)) (tl_text layer)
                  (FillStr (get_or (sy_color (tl_style layer)) "#FFFFFF"))
                  fnt in
         sy_effects (tl_style layer) = Some d ->
         int_of_num (get_or (pd_x (tl_position layer)) (NInt 10)) = Ok x ->
         int_of_num (get_or (pd_y (tl_position layer)) (NInt 10)) = Ok y ->
         0 <= snd size < 2 ^ 51 ->
         exists rb db ra da,
           emits (render_layers E before) rb db
           /\ emits (render_layers E after) ra da
           /\ emits (render_layers E (before ++ layer :: after))
                    (match rb with Ok _ => ra | Raise e => Raise e end)
                    (match rb with
                     | Ok _ => db ++ plain :: da
                     | Raise _ => db
                     end)).
Proof.
  intros Hty Hunk.
  assert (Hplain : forall text p fnt color cv,
             0 <= snd (text_size E text fnt) < 2 ^ 51 ->
             apply_text_effects E text p fnt color (Some d) cv
             = (Ok tt,
                cv ++ [mkDraw (origin (fst (anchor_of p)) (snd (anchor_of p))
                                      (fst (text_size E text fnt))
                                      (snd (text_size E text fnt)))
                              text (FillStr color) fnt])).
  { intros text p fnt color cv Hh.
    rewrite apply_text_effects_origin by exact Hh.
    cbn [truthy]. rewrite Hty. cbn [is_some orb].
    unfold typed_effect.
    repeat match goal with
           | |- context [String.eqb effect_type ?s] =>
               destruct (String.eqb_spec effect_type s) as [-> | _];
               [ exfalso; apply Hunk; cbn; tauto | ]
           end.
    destruct (origin _ _ _ _). reflexivity. }
  split; [ intros; now apply Hplain | ].
  intros layer before after x y fnt size plain Heff Hx Hy Hh.
  destruct (appends_render_layers E before) as (rb & db & Hb).
  destruct (appends_render_layers E after) as (ra & da & Ha).
  exists rb, db, ra, da. split; [ exact Hb | ]. split; [ exact Ha | ].
  intros cv. unfold render_layers in *. rewrite for_each_app.
  unfold bind at 1. rewrite Hb. destruct rb as [[] | e]; [ | reflexivity ].
  cbn [for_each]. unfold bind at 1.
  assert (Hlayer : render_layer E layer (cv ++ db)
                   = (Ok tt, (cv ++ db) ++ [plain])).
  { unfold render_layer. unfold bind, lift. rewrite Hx, Hy, get_font_total.
    rewrite Heff. fold fnt. rewrite (Hplain _ _ _ _ _ Hh). reflexivity. }
  rewrite Hlayer, Ha, <- !app_assoc. reflexivity.
Qed.

Section OnTheRasteriser.

Variable getink : fill -> result unit.

Lemma made_none (ds ms : list draw_call) :
  made getink ds = (ms, None) -> ms = ds.
Proof.
  revert ms. induction ds as [ | d ds IH]; intros ms; cbn [made].
  - now intros [= <-].
  - destruct (getink (dc_fill d)) as [[] | e]; [ | discriminate ].
    destruct (made getink ds) as [ms' [e | ]]; [ discriminate | ].
    intros [= <-]. f_equal. now apply IH.
Qed.

Lemma made_app (xs ys : list draw_call) :
  made getink (xs ++ ys)
  = match made getink xs with
    | (ms, None) => let '(ms', e) := made getink ys in (xs ++ ms', e)
    | (ms, Some e) => (ms, Some e)
    end.
Proof.
  induction xs as [ | d xs IH]; cbn [app made].
  - destruct (made getink ys). reflexivity.
  - destruct (getink (dc_fill d)) as [[] | e]; [ | reflexivity ].
    rewrite IH. destruct (made getink xs) as [ms [e | ]]; [ reflexivity | ].
    destruct (made getink ys). reflexivity.
Qed.

Lemma rasterised_emits {A} (m : M canvas A) (r : result A)
      (ds : list draw_call) :
  emits m r ds ->
  emits (rasterised getink m) (fst (cut getink r ds)) (snd (cut getink r ds)).
Proof.
  intros Hm cv. unfold rasterised. rewrite Hm.
  rewrite skipn_app, skipn_all, Nat.sub_diag. cbn [skipn app].
  destruct (cut getink r ds). reflexivity.
Qed.

End OnTheRasteriser.

(** C9. For every effects dict whose ['type'] is none of [shadow],
    [outline], [glow] and [3d_depth], and every base colour the
    rasteriser accepts as a fill, the renderer draws the plain base text
    exactly once, at the corrected origin, and returns without raising.
    In a multi-layer render, a layer with such an effect (a position of
    integers and an accepted colour) adds that single draw, and the
    layers before and after it end as they end without it and draw what
    they draw without it. *)
Theorem unknown_effect_draws_plain (E : env) (getink : fill -> result unit)
        (d : effects_dict) (effect_type : string) :
  ef_type d = Some effect_type ->
  ~ In effect_type ["shadow"; "outline"; "glow"; "3d_depth"] ->
  (forall text p fnt color cv,
      let size := text_size E text fnt in
      let org := origin (fst (anchor_of p)) (snd (anchor_of p))
                        (fst size) (snd size) in
      0 <= snd size < 2 ^ 51 ->
      getink (FillStr color) = Ok tt ->
      rasterised getink (apply_text_effects E text p fnt color (Some d)) cv
      = (Ok tt, cv ++ [mkDraw org text (FillStr color) fnt]))
  /\ (forall layer before after x y,
         let fnt :=
           resolved_font E (get_or (sy_font_name (tl_style layer)) "anton")
                         (get_or (sy_font_size (tl_style layer)) 120) in
         let size := text_size E (tl_text layer) fnt in
         let color := get_or (sy_color (tl_style layer)) "#FFFFFF" in
         let plain :=
           mkDraw (origin x y (fst size) (snd size)) (tl_text layer)
                  (FillStr color) fnt in
         sy_effects (tl_style layer) = Some d ->
         int_of_num (get_or (pd_x (tl_position layer)) (NInt 10)) = Ok x ->
         int_of_num (get_or (pd_y (tl_position layer)) (NInt 10)) = Ok y ->
         0 <= snd size < 2 ^ 51 ->
         getink (FillStr color) = Ok tt ->
         exists rb db ra da,
           emits (rasterised getink (render_layers E before)) rb db
           /\ emits (rasterised getink (render_layers E after)) ra da
           /\ emits (rasterised getink
                       (render_layers E (before ++ layer :: after)))
                    (match rb with Ok _ => ra | Raise e => Raise e end)
                    (match rb with
                     | Ok _ => db ++ plain :: da
                     | Raise _ => db
                     end)).
Proof.
  intros Hty Hunk.
  destruct (unknown_effect_issues_plain E d effect_type Hty Hunk) as [H1 H2].
  split.
  - intros text p fnt color cv size org Hh Hink.
    unfold rasterised. rewrite (H1 text p fnt color cv Hh).
    rewrite skipn_app, skipn_all, Nat.sub_diag. cbn [skipn app].
    unfold cut. cbn [made dc_fill]. rewrite Hink. reflexivity.
  - intros layer before after x y fnt size color plain Heff Hx Hy Hh Hink.
    destruct (H2 layer before after x y Heff Hx Hy Hh)
      as (rb0 & db0 & ra0 & da0 & Hb & Ha & Hall).
    fold fnt in Hall. fold size in Hall. fold color in Hall. fold plain in Hall.
    pose proof (rasterised_emits getink _ _ _ Hb) as Hb'.
    pose proof (rasterised_emits getink _ _ _ Ha) as Ha'.
    pose proof (rasterised_emits getink _ _ _ Hall) as Hall'.
    exists (fst (cut getink rb0 db0)), (snd (cut getink rb0 db0)),
           (fst (cut getink ra0 da0)), (snd (cut getink ra0 da0)).
    split; [ exact Hb' | ]. split; [ exact Ha' | ].
    replace (match fst (cut getink rb0 db0) with
             | Ok _ => fst (cut getink ra0 da0)
             | Raise e => Raise e
             end)
      with (fst (cut getink match rb0 with Ok _ => ra0 | Raise e => Raise e end
                     match rb0 with Ok _ => db0 ++ plain :: da0 | Raise _ => db0 end)).
    1: replace (match fst (cut getink rb0 db0) with
                | Ok _ => snd (cut getink rb0 db0) ++ plain :: snd (cut getink ra0 da0)
                | Raise _ => snd (cut getink rb0 db0)
                end)
         with (snd (cut getink match rb0 with Ok _ => ra0 | Raise e => Raise e end
                        match rb0 with Ok _ => db0 ++ plain :: da0 | Raise _ => db0 end)).
    1: exact Hall'.
    all: unfold cut; destruct rb0 as [[] | e0];
      [ rewrite made_app | ];
      destruct (made getink db0) as [mb [eb | ]] eqn:Hmb; cbn [fst snd];
      try reflexivity;
      apply made_none in Hmb; subst mb;
      cbn [made dc_fill]; unfold plain at 1; cbn [dc_fill]; rewrite Hink;
      destruct (made getink da0) as [ma [ea | ]]; reflexivity.
Qed.

(** A layer with the effect type ["sparkle"] between two plain layers,
    on a rasteriser that knows their colour: three plain draws, in
    order. *)
Lemma unknown_effect_draws_plain_witness :
  ef_type sparkle = Some "sparkle"
  /\ ~ In "sparkle" ["shadow"; "outline"; "glow"; "3d_depth"]
  /\ demo_getink (FillStr "#FFFFFF") = Ok tt
  /\ rasterised demo_getink
       (apply_text_effects demo_env "Hi" demo_anchor anton_120 "#FFFFFF"
                           (Some sparkle)) []
     = (Ok tt, [mkDraw (80, 83) "Hi" (FillStr "#FFFFFF") anton_120])
  /\ rasterised demo_getink
       (render_layers demo_env
          [ demo_layer "one" None; demo_layer "two" (Some sparkle);
            demo_layer "three" None ]) []
     = (Ok tt,
        [ mkDraw (80, 83) "one" (FillStr "#FFFFFF") anton_120;
          mkDraw (80, 83) "two" (FillStr "#FFFFFF") anton_120;
          mkDraw (80, 83) "three" (FillStr "#FFFFFF") anton_120 ]).
Proof.
  assert (Hunk : ~ In "sparkle" ["shadow"; "outline"; "glow"; "3d_depth"]).
  { cbn. intros [H | [H | [H | [H | []]]]]; discriminate H. }
  assert (Hh : 0 <= 20 < 2 ^ 51) by lia.
  destruct (unknown_effect_draws_plain demo_env demo_getink sparkle "sparkle"
              eq_refl Hunk) as [H1 H2].
  refine (conj eq_refl (conj Hunk (conj eq_refl (conj _ _)))).
  - exact (H1 "Hi" demo_anchor anton_120 "#FFFFFF" [] Hh eq_refl).
  - destruct (H2 (demo_layer "two" (Some sparkle)) [demo_layer "one" None]
                 [demo_layer "three" None] 100 100 eq_refl eq_refl eq_refl Hh
                 eq_refl)
      as (rb & db & ra & da & Hb & Ha & Hall).
    specialize (Hb []). specialize (Ha []). specialize (Hall []).
    vm_compute in Hb. vm_compute in Ha.
    injection Hb as <- <-. injection Ha as <- <-. exact Hall.
Defined.

(** The proviso on the colour is needed: a base colour the rasteriser
    refuses (["FF0000"], without its ['#']) makes the one draw raise. *)
Lemma refused_base_colour_raises :
  rasterised demo_getink
    (apply_text_effects demo_env "Hi" demo_anchor anton_120 "FF0000"
                        (Some sparkle)) []
  = (Raise (mkExn ValueError "unknown color specifier: 'FF0000'"), []).
Proof. reflexivity. Qed.

(** ** C7: a failed render returns nothing *)

(** C7. Whatever the stage at which a render fails (path resolution,
    image decoding, layout, effect application, saving, or the upload
    after rendering), [add_text] raises a [ValueError] that wraps the
    cause, so the caller receives no path, no info dict and no URL, and
    nothing has been published.  (A failure of the upload comes after
    [canvas.save]: the PNG it wrote stays in [uploads/processed], but no
    path to it is returned.)  When no stage fails, the caller receives
    the path of the saved file and the URL of the upload. *)
Theorem add_text_failure_returns_nothing (E : env)
        (background_path text : string) (pos : pos_dict) (font_size : Z)
        (color font_name : string) (effects : option effects_dict)
        (w : world) :
  let run :=
    add_text E background_path text pos font_size color font_name effects w in
  let path := text_path E background_path in
  match first_failure E background_path text pos font_size color font_name
                      effects with
  | Some (_, cause, saved) =>
      fst run
      = Raise (mkExn ValueError ("Failed to add text: " ++ exn_str cause))
      /\ w_uploads (snd run) = w_uploads w
      /\ w_files (snd run)
         = match saved with
           | Some canvas => (path, canvas) :: w_files w
           | None => w_files w
           end
  | None =>
      exists info canvas,
        fst run = Ok (path, info)
        /\ info_path info = path
        /\ upload_image E path = Ok (info_cloud_url info)
        /\ snd run = mkWorld ((path, canvas) :: w_files w)
                             ((path, info_cloud_url info) :: w_uploads w)
  end.
Proof.
  cbv zeta.
  unfold first_failure, add_text, add_text_body, try_except, throw, bind, lift,
    ret, save, upload, raise_.
  fold (text_path E background_path).
  rewrite get_font_total.
  destruct (resolve_image_path E background_path) as [resolved | e];
    [ | now cbn ].
  destruct (image_open E resolved) as [background | e]; [ | now cbn ].
  destruct (text_size E text (resolved_font E font_name font_size))
    as [tw th].
  destruct (int_of_num (get_or (pd_x pos) (NInt 10))) as [pos_x | e];
    [ | now cbn ].
  destruct (int_of_num (get_or (pd_y pos) (NInt 10))) as [pos_y | e];
    [ | now cbn ].
  destruct (draw_on background _) as [canvas | e]; [ | now cbn ].
  destruct (mkdir_processed E) as [[] | e]; [ | now cbn ].
  destruct (save_png E (text_path E background_path) canvas) as [[] | e];
    [ | now cbn ].
  destruct (upload_image E (text_path E background_path)) as [url | e];
    [ | now cbn ].
  eexists _, canvas. cbn. repeat split.
Qed.

(** A render whose upload fails: the caller gets the error, and the file
    written before the upload is still there. *)
Lemma add_text_upload_failure :
  add_text demo_env_no_upload "photo.png" "Hi"
           (mkPos (Some (NInt 100)) (Some (NInt 100))) 120 "#FFFFFF" "Impact"
           None empty_world
  = (Raise (mkExn ValueError "Failed to add text: S3 upload failed"),
     mkWorld [ ("uploads/processed/photo_text_1700000000.png",
                mkImage 800 600
                        [mkDraw (80, 83) "Hi" (FillStr "#FFFFFF")
                                (TrueType "Impact" 120)]) ]
             []).
Proof. reflexivity. Qed.

(** A failure at each of the other stages: a missing file, and a
    position that is not a finite number. *)
Lemma add_text_layout_failure :
  fst (add_text demo_env "photo.png" "Hi"
                (mkPos (Some (NFloat (S754_infinity false))) None) 120
                "#FFFFFF" "Impact" None empty_world)
  = Raise (mkExn ValueError
             "Failed to add text: cannot convert float infinity to integer").
Proof. reflexivity. Qed.

(** * Further properties of the code

    Properties read off the source, beyond the claims above. *)

(** ** Colour parsing: errors and ranges *)

Section HexEdges.

Import PyStr.

Lemma in_all_ascii (c : ascii) : In c all_ascii.
Proof.
  unfold all_ascii. rewrite <- (ascii_nat_embedding c).
  apply in_map, in_seq. pose proof (nat_ascii_bounded c). lia.
Qed.

Lemma int16_raises_ValueError (s : string) (e : exn) :
  int16 s = Raise e -> exn_cls e = ValueError.
Proof.
  unfold int16.
  destruct (skip_space s) as [ | c r ] eqn:Hs.
  - cbn. intros H. injection H as <-. reflexivity.
  - set (ns := match String c r with
               | String "+" r0 => (false, r0)
               | String "-" r0 => (true, r0)
               | _ => (false, String c r)
               end).
    destruct ns as [neg s2].
    set (s3 := match s2 with
               | String "0" (String x r0) =>
                   if (Ascii.eqb x "x" || Ascii.eqb x "X")%bool
                   then match r0 with String "_" r' => r' | _ => r0 end
                   else s2
               | _ => s2
               end).
    assert (Hgen : forall t : result Z,
               (t = invalid_literal s \/ exists v, t = Ok v) ->
               t = Raise e -> exn_cls e = ValueError).
    { intros t [-> | [v ->]] H; [ | discriminate ].
      injection H as <-. reflexivity. }
    apply Hgen.
    destruct s3 as [ | c3 r3 ].
    + cbn. now left.
    + destruct (Ascii.eqb_spec c3 "_") as [-> | Hne].
      * now left.
      * assert (Hm : forall (k : result Z),
                   match String c3 r3 with String "_" _ => invalid_literal s | _ => k end
                   = k).
        { intros k. destruct c3 as [[] [] [] [] [] [] [] []]; try reflexivity.
          now contradiction Hne. }
        rewrite Hm.
        destruct (scan_digits 16 (String c3 r3) false 0 0) as [[[v [ | n]] rest] | ];
          try (now left).
        destruct (skip_space rest); [ right; eauto | now left ].
Qed.

Lemma int16_in_range_1 :
  forallb (fun c => int16_in_range (String c "")) all_ascii = true.
Proof. vm_compute. reflexivity. Qed.

Lemma int16_in_range_2 :
  forallb (fun c1 =>
             forallb (fun c2 => int16_in_range (String c1 (String c2 "")))
                     all_ascii)
          all_ascii = true.
Proof. vm_compute. reflexivity. Qed.

Lemma int16_pair_range (c1 c2 : ascii) (v : Z) :
  int16 (String c1 (String c2 "")) = Ok v -> -15 <= v <= 255.
Proof.
  intros H. pose proof int16_in_range_2 as Hall.
  rewrite forallb_forall in Hall. specialize (Hall c1 (in_all_ascii c1)).
  rewrite forallb_forall in Hall. specialize (Hall c2 (in_all_ascii c2)).
  unfold int16_in_range in Hall. rewrite H in Hall. lia.
Qed.

(** A single character is read as a number exactly when it is a hex
    digit: no sign, no blank. *)
Lemma int16_char (c : ascii) :
  int16 (String c "")
  = if Spec.is_hex c then Ok (digit_value c)
    else invalid_literal (String c "").
Proof. destruct c as [[] [] [] [] [] [] [] []]; reflexivity. Qed.

Lemma digit_value_hex (c : ascii) :
  Spec.is_hex c = true -> 0 <= digit_value c <= 15.
Proof.
  unfold Spec.is_hex, digit_value. intros H. apply Z.ltb_lt in H. revert H.
  repeat match goal with
         | |- context [if ?b then _ else _] => destruct b eqn:?
         end; lia.
Qed.

End HexEdges.
Section HexTheorems.

Import PyStr.

Ltac split_body body :=
  destruct body as [ | ?c [ | ?c [ | ?c [ | ?c [ | ?c [ | ?c [ | ?c [ | ?c [ | ?c ?rest]]]]]]]]].

Lemma hex_to_rgba_too_long (c1 c2 c3 c4 c5 c6 c7 c8 c9 : ascii) (rest : string) :
  let body := String c1 (String c2 (String c3 (String c4 (String c5
                (String c6 (String c7 (String c8 (String c9 rest)))))))) in
  (len body =? 8) = false /\ (len body =? 6) = false
  /\ (len body =? 4) = false /\ (len body =? 3) = false.
Proof.
  cbv zeta. unfold len. cbn [String.length].
  repeat split; apply Z.eqb_neq; lia.
Qed.

(** Whenever [_hex_to_rgba] returns, every channel is at most 255 and at
    least -15: a two-character slice such as ["-F"] is a literal that
    [int(s, 16)] accepts. *)
Theorem hex_to_rgba_channel_range (s : string) (r g b a : Z) :
  hex_to_rgba s = Ok (r, g, b, a) ->
  -15 <= r <= 255 /\ -15 <= g <= 255 /\ -15 <= b <= 255 /\ -15 <= a <= 255.
Proof.
  unfold hex_to_rgba.
  destruct (startswith "#" s); [ | intros H; injection H as <- <- <- <-; lia ].
  generalize (lstrip "#" s) as body. intros body.
  split_body body;
    try (intros H; injection H as <- <- <- <-; lia).
  - (* three characters *)
    cbn -[int16]. rewrite !int16_char.
    destruct (Spec.is_hex c) eqn:H1; [ | discriminate ].
    destruct (Spec.is_hex c0) eqn:H2; [ | discriminate ].
    destruct (Spec.is_hex c1) eqn:H3; [ | discriminate ].
    cbn [rbind]. intros H. injection H as <- <- <- <-.
    apply digit_value_hex in H1, H2, H3. lia.
  - (* four characters *)
    cbn -[int16]. rewrite !int16_char.
    destruct (Spec.is_hex c) eqn:H1; [ | discriminate ].
    destruct (Spec.is_hex c0) eqn:H2; [ | discriminate ].
    destruct (Spec.is_hex c1) eqn:H3; [ | discriminate ].
    destruct (Spec.is_hex c2) eqn:H4; [ | discriminate ].
    cbn [rbind]. intros H. injection H as <- <- <- <-.
    apply digit_value_hex in H1, H2, H3, H4. lia.
  - (* six characters *)
    cbn -[int16].
    destruct (int16 (String c (String c0 ""))) as [v1 | ] eqn:H1; [ | discriminate ].
    destruct (int16 (String c1 (String c2 ""))) as [v2 | ] eqn:H2; [ | discriminate ].
    destruct (int16 (String c3 (String c4 ""))) as [v3 | ] eqn:H3; [ | discriminate ].
    cbn [rbind]. intros H. injection H as <- <- <- <-.
    apply int16_pair_range in H1, H2, H3. lia.
  - (* eight characters *)
    cbn -[int16].
    destruct (int16 (String c (String c0 ""))) as [v1 | ] eqn:H1; [ | discriminate ].
    destruct (int16 (String c1 (String c2 ""))) as [v2 | ] eqn:H2; [ | discriminate ].
    destruct (int16 (String c3 (String c4 ""))) as [v3 | ] eqn:H3; [ | discriminate ].
    destruct (int16 (String c5 (String c6 ""))) as [v4 | ] eqn:H4; [ | discriminate ].
    cbn [rbind]. intros H. injection H as <- <- <- <-.
    apply int16_pair_range in H1, H2, H3, H4. lia.
  - (* nine characters or more *)
    destruct (hex_to_rgba_too_long c c0 c1 c2 c3 c4 c5 c6 c7 rest)
      as (-> & -> & -> & ->).
    intros H; injection H as <- <- <- <-; lia.
Qed.

Lemma hex_to_rgba_channel_range_witness :
  hex_to_rgba "#-F00FF" = Ok (-15, 0, 255, 255)
  /\ (-15 <= -15 <= 255 /\ -15 <= 0 <= 255
      /\ -15 <= 255 <= 255 /\ -15 <= 255 <= 255).
Proof.
  refine (conj eq_refl _).
  exact (hex_to_rgba_channel_range "#-F00FF" (-15) 0 255 255 eq_refl).
Defined.

End HexTheorems.
Section HexErrors.

Import PyStr.

Ltac split_body body :=
  destruct body as [ | ?c [ | ?c [ | ?c [ | ?c [ | ?c [ | ?c [ | ?c [ | ?c [ | ?c ?rest]]]]]]]]].

Lemma rbind_raises {A B} (r : result A) (k : A -> result B) (e : exn) :
  rbind r k = Raise e ->
  r = Raise e \/ exists a, r = Ok a /\ k a = Raise e.
Proof. destruct r as [a | e0]; cbn; [ eauto | intros [= ->]; now left ]. Qed.

Ltac raise_cases H :=
  repeat (apply rbind_raises in H;
          destruct H as [H | (? & _ & H)];
          [ now apply int16_raises_ValueError in H | ]);
  try discriminate H.

(** [_hex_to_rgba] raises nothing but [ValueError], and only on a string
    that starts with ['#'], has 3, 4, 6 or 8 characters after the
    ['#']s, and holds a character that is not a hex digit. *)
Theorem hex_to_rgba_raises (s : string) (e : exn) :
  hex_to_rgba s = Raise e ->
  exn_cls e = ValueError
  /\ startswith "#" s = true
  /\ In (String.length (hex_body s)) [3; 4; 6; 8]%nat
  /\ Spec.all_hex (hex_body s) = false.
Proof.
  unfold hex_to_rgba, hex_body.
  destruct (startswith "#" s); [ | discriminate ].
  generalize (lstrip "#" s) as body. intros body.
  split_body body; try discriminate.
  - cbn -[int16 Spec.is_hex]. intros H.
    split; [ raise_cases H | ]. split; [ reflexivity | ]. split; [ tauto | ].
    destruct (Spec.is_hex c) eqn:H1; [ | reflexivity ].
    destruct (Spec.is_hex c0) eqn:H2; [ | reflexivity ].
    destruct (Spec.is_hex c1) eqn:H3; [ | reflexivity ].
    rewrite !int16_digit in H by assumption. discriminate H.
  - cbn -[int16 Spec.is_hex]. intros H.
    split; [ raise_cases H | ]. split; [ reflexivity | ]. split; [ tauto | ].
    destruct (Spec.is_hex c) eqn:H1; [ | reflexivity ].
    destruct (Spec.is_hex c0) eqn:H2; [ | reflexivity ].
    destruct (Spec.is_hex c1) eqn:H3; [ | reflexivity ].
    destruct (Spec.is_hex c2) eqn:H4; [ | reflexivity ].
    rewrite !int16_digit in H by assumption. discriminate H.
  - cbn -[int16 Spec.is_hex]. intros H.
    split; [ raise_cases H | ]. split; [ reflexivity | ]. split; [ tauto | ].
    destruct (Spec.is_hex c) eqn:H1; [ | reflexivity ].
    destruct (Spec.is_hex c0) eqn:H2; [ | reflexivity ].
    destruct (Spec.is_hex c1) eqn:H3; [ | reflexivity ].
    destruct (Spec.is_hex c2) eqn:H4; [ | reflexivity ].
    destruct (Spec.is_hex c3) eqn:H5; [ | reflexivity ].
    destruct (Spec.is_hex c4) eqn:H6; [ | reflexivity ].
    rewrite !int16_pair in H by assumption. discriminate H.
  - cbn -[int16 Spec.is_hex]. intros H.
    split; [ raise_cases H | ]. split; [ reflexivity | ]. split; [ tauto | ].
    destruct (Spec.is_hex c) eqn:H1; [ | reflexivity ].
    destruct (Spec.is_hex c0) eqn:H2; [ | reflexivity ].
    destruct (Spec.is_hex c1) eqn:H3; [ | reflexivity ].
    destruct (Spec.is_hex c2) eqn:H4; [ | reflexivity ].
    destruct (Spec.is_hex c3) eqn:H5; [ | reflexivity ].
    destruct (Spec.is_hex c4) eqn:H6; [ | reflexivity ].
    destruct (Spec.is_hex c5) eqn:H7; [ | reflexivity ].
    destruct (Spec.is_hex c6) eqn:H8; [ | reflexivity ].
    rewrite !int16_pair in H by assumption. discriminate H.
  - destruct (hex_to_rgba_too_long c c0 c1 c2 c3 c4 c5 c6 c7 rest)
      as (-> & -> & -> & ->).
    discriminate.
Qed.

Lemma hex_to_rgba_raises_witness :
  hex_to_rgba "#GGGGGG"
  = Raise (mkExn ValueError "invalid literal for int() with base 16: 'GG'")
  /\ (ValueError = ValueError
      /\ startswith "#" "#GGGGGG" = true
      /\ In (String.length (hex_body "#GGGGGG")) [3; 4; 6; 8]%nat
      /\ Spec.all_hex (hex_body "#GGGGGG") = false).
Proof.
  refine (conj eq_refl _).
  exact (hex_to_rgba_raises "#GGGGGG" _ eq_refl).
Defined.

(** On a string of 7-bit characters, which is what the embedding reads
    a [str] as: the 3- and 4-digit forms read one character at a time,
    and a single character is a literal only when it is a hex digit.
    So on these forms any other character, a sign or a blank included,
    raises a [ValueError]; the 6- and 8-digit forms read two characters
    at a time and accept a sign or a blank in front of a digit.
    (Beyond the 7-bit characters [int()] also reads the decimal digits
    of other scripts, which the embedding does not model.) *)
Theorem hex_short_form_strict (s : string) :
  is_ascii s = true ->
  startswith "#" s = true ->
  In (String.length (hex_body s)) [3; 4]%nat ->
  Spec.all_hex (hex_body s) = false ->
  exists msg, hex_to_rgba s = Raise (mkExn ValueError msg).
Proof.
  unfold hex_to_rgba, hex_body. intros _ -> Hlen. revert Hlen.
  generalize (lstrip "#" s) as body. intros body.
  split_body body; cbn [String.length In];
    try (intros Hlen; exfalso; intuition discriminate).
  - intros _. cbn -[int16 Spec.is_hex]. rewrite !int16_char.
    destruct (Spec.is_hex c); [ | eexists; reflexivity ].
    destruct (Spec.is_hex c0); [ | eexists; reflexivity ].
    destruct (Spec.is_hex c1); [ discriminate | eexists; reflexivity ].
  - intros _. cbn -[int16 Spec.is_hex]. rewrite !int16_char.
    destruct (Spec.is_hex c); [ | eexists; reflexivity ].
    destruct (Spec.is_hex c0); [ | eexists; reflexivity ].
    destruct (Spec.is_hex c1); [ | eexists; reflexivity ].
    destruct (Spec.is_hex c2); [ discriminate | eexists; reflexivity ].
Qed.

Lemma hex_short_form_strict_witness :
  is_ascii "#F+0" = true
  /\ startswith "#" "#F+0" = true
  /\ In (String.length (hex_body "#F+0")) [3; 4]%nat
  /\ Spec.all_hex (hex_body "#F+0") = false
  /\ (exists msg, hex_to_rgba "#F+0" = Raise (mkExn ValueError msg))
  /\ hex_to_rgba "#+1+2+3" = Ok (1, 2, 3, 255).
Proof.
  assert (H1 : In (String.length (hex_body "#F+0")) [3; 4]%nat)
    by (cbn; tauto).
  refine (conj eq_refl (conj eq_refl (conj H1 (conj eq_refl (conj _ eq_refl))))).
  exact (hex_short_form_strict "#F+0" eq_refl eq_refl H1 eq_refl).
Defined.

End HexErrors.

(** ** The effect renderer: failures and degenerate settings *)

Section RendererEdges.

Variable E : env.
Variables (text : string) (p : position) (fnt : font) (color : string).

Lemma bind_lift_raise {A B} (e : exn) (k : A -> M canvas B) (cv : canvas) :
  bind (lift (Raise e)) k cv = (Raise e, cv).
Proof. reflexivity. Qed.

Lemma color_with_opacity_raises (c : string) (o : float) (e : exn) :
  color_with_opacity c o = Raise e ->
  hex_to_rgba c = Raise e \/ is_finite (fmul (lit 255) o) = false.
Proof.
  unfold color_with_opacity.
  destruct (hex_to_rgba c) as [[[[r g] b] a] | e0]; cbn [rbind].
  - destruct (fmul (lit 255) o); cbn; try discriminate; now right.
  - intros [= ->]. now left.
Qed.

(** The shadow, the outline and the glow build their colour before they
    draw: when the colour of the settings does not parse, or
    [255 * opacity] is not a finite number, the renderer raises that
    error and has drawn nothing, not even the base text. *)
Theorem failed_effect_color_draws_nothing (effect_type : string)
        (ost : option settings) (sh : option legacy_shadow) (other : bool)
        (e : exn) :
  let st := get_or ost no_settings in
  In effect_type ["shadow"; "outline"; "glow"] ->
  0 <= snd (text_size E text fnt) < 2 ^ 51 ->
  color_with_opacity (effect_color effect_type st)
                     (effect_opacity effect_type st) = Raise e ->
  (hex_to_rgba (effect_color effect_type st) = Raise e
   \/ is_finite (fmul (lit 255) (effect_opacity effect_type st)) = false)
  /\ forall cv,
       apply_text_effects E text p fnt color
         (Some (mkEffects (Some effect_type) ost sh other)) cv
       = (Raise e, cv).
Proof.
  intros st Hty Hh Hc. split; [ now apply color_with_opacity_raises | ].
  intros cv. rewrite apply_text_effects_origin by exact Hh.
  cbn [truthy ef_type ef_settings is_some orb]. fold st.
  destruct Hty as [<- | [<- | [<- | []]]];
    unfold typed_effect; cbn [String.eqb Ascii.eqb Bool.eqb];
    unfold effect_color, effect_opacity in Hc;
    cbn [String.eqb Ascii.eqb Bool.eqb] in Hc.
  - unfold shadow_effect.
    destruct (match get_or (st_offset st) [5; 5] with
              | a :: b :: _ => (a, b)
              | _ => (5, 5)
              end) as [ox oy].
    rewrite Hc. reflexivity.
  - unfold outline_effect. rewrite Hc. reflexivity.
  - unfold glow_effect. rewrite Hc. reflexivity.
Qed.

End RendererEdges.

Lemma failed_effect_color_draws_nothing_witness :
  In "glow" ["shadow"; "outline"; "glow"]
  /\ 0 <= snd (text_size demo_env "Hi" BuiltinDefault) < 2 ^ 51
  /\ color_with_opacity (effect_color "glow" bad_glow)
                        (effect_opacity "glow" bad_glow)
     = Raise (mkExn ValueError "invalid literal for int() with base 16: 'GG'")
  /\ demo_render (unified "glow" bad_glow)
     = (Raise (mkExn ValueError "invalid literal for int() with base 16: 'GG'"),
        []).
Proof.
  assert (Hty : In "glow" ["shadow"; "outline"; "glow"]) by (cbn; tauto).
  assert (Hh : 0 <= snd (text_size demo_env "Hi" BuiltinDefault) < 2 ^ 51)
    by (cbn; lia).
  refine (conj Hty (conj Hh (conj eq_refl _))).
  exact (proj2 (failed_effect_color_draws_nothing demo_env "Hi" demo_anchor
                  BuiltinDefault "#FFFFFF" "glow" (Some bad_glow) None false
                  _ Hty Hh eq_refl) []).
Defined.
Section DegenerateEffects.

Variable E : env.
Variables (text : string) (p : position) (fnt : font) (color : string).

(** An effect of size zero or less draws the plain text: a glow of
    radius [<= 0] has no ring, an outline of width [<= 0] no offset, a
    depth effect of [<= 0] layers no layer (and then never reads its
    colour list, which may be empty). *)
Theorem degenerate_effect_is_plain (ost : option settings)
        (sh : option legacy_shadow) (other : bool) :
  let st := get_or ost no_settings in
  let size := text_size E text fnt in
  let org := origin (fst (anchor_of p)) (snd (anchor_of p))
                    (fst size) (snd size) in
  let render effect_type cv :=
    apply_text_effects E text p fnt color
      (Some (mkEffects (Some effect_type) ost sh other)) cv in
  let plain cv := (Ok tt, cv ++ [mkDraw org text (FillStr color) fnt]) in
  0 <= snd size < 2 ^ 51 ->
  (get_or (st_radius st) 10 <= 0 ->
   (exists c, color_with_opacity (effect_color "glow" st)
                                 (effect_opacity "glow" st) = Ok c) ->
   forall cv, render "glow" cv = plain cv)
  /\ (get_or (st_width st) 2 <= 0 ->
      (exists c, color_with_opacity (effect_color "outline" st)
                                    (effect_opacity "outline" st) = Ok c) ->
      forall cv, render "outline" cv = plain cv)
  /\ (get_or (st_layers st) 10 <= 0 ->
      (exists c s,
          math_call (math_cos E) (radians (get_or (st_angle st) (lit 45))) = Ok c
          /\ math_call (math_sin E) (radians (get_or (st_angle st) (lit 45))) = Ok s) ->
      forall cv, render "3d_depth" cv = plain cv).
Proof.
  intros st size org render plain Hh. unfold render, plain.
  split; [ | split ].
  - intros Hr [c Hc] cv. rewrite apply_text_effects_origin by exact Hh.
    cbn [truthy ef_type ef_settings is_some orb]. fold st size org.
    unfold typed_effect; cbn [String.eqb Ascii.eqb Bool.eqb].
    unfold effect_color, effect_opacity in Hc;
      cbn [String.eqb Ascii.eqb Bool.eqb] in Hc.
    unfold glow_effect. rewrite Hc, bind_lift_ok.
    rewrite range_empty by lia.
    destruct org. reflexivity.
  - intros Hw [c Hc] cv. rewrite apply_text_effects_origin by exact Hh.
    cbn [truthy ef_type ef_settings is_some orb]. fold st size org.
    unfold typed_effect; cbn [String.eqb Ascii.eqb Bool.eqb].
    unfold effect_color, effect_opacity in Hc;
      cbn [String.eqb Ascii.eqb Bool.eqb] in Hc.
    unfold outline_effect. rewrite Hc, bind_lift_ok.
    set (w := get_or (st_width st) 2) in *.
    destruct (Z.eq_dec w 0) as [-> | Hne].
    + destruct org. reflexivity.
    + rewrite range_empty by lia. destruct org. reflexivity.
  - intros Hl (c & s & Hcos & Hsin) cv.
    rewrite apply_text_effects_origin by exact Hh.
    cbn [truthy ef_type ef_settings is_some orb]. fold st size org.
    unfold typed_effect; cbn [String.eqb Ascii.eqb Bool.eqb].
    unfold depth_effect. rewrite Hcos, bind_lift_ok, Hsin, bind_lift_ok.
    rewrite range_down_empty by exact Hl.
    destruct org. reflexivity.
Qed.

End DegenerateEffects.

Lemma degenerate_effect_is_plain_witness :
  0 <= snd (text_size demo_env "Hi" BuiltinDefault) < 2 ^ 51
  /\ demo_render (unified "glow" no_glow)
     = (Ok tt, [mkDraw (80, 83) "Hi" (FillStr "#FFFFFF") BuiltinDefault])
  /\ demo_render (unified "outline" thin_outline)
     = (Ok tt, [mkDraw (80, 83) "Hi" (FillStr "#FFFFFF") BuiltinDefault])
  /\ demo_render (unified "3d_depth" flat_depth)
     = (Ok tt, [mkDraw (80, 83) "Hi" (FillStr "#FFFFFF") BuiltinDefault]).
Proof.
  assert (Hh : 0 <= snd (text_size demo_env "Hi" BuiltinDefault) < 2 ^ 51)
    by (cbn; lia).
  refine (conj Hh (conj _ (conj _ _))).
  - refine (proj1 (degenerate_effect_is_plain demo_env "Hi" demo_anchor
                     BuiltinDefault "#FFFFFF" (Some no_glow) None false Hh)
                  _ _ []).
    + cbn; lia.
    + eexists; reflexivity.
  - refine (proj1 (proj2 (degenerate_effect_is_plain demo_env "Hi" demo_anchor
                     BuiltinDefault "#FFFFFF" (Some thin_outline) None false Hh))
                  _ _ []).
    + cbn; lia.
    + eexists; reflexivity.
  - refine (proj2 (proj2 (degenerate_effect_is_plain demo_env "Hi" demo_anchor
                     BuiltinDefault "#FFFFFF" (Some flat_depth) None false Hh))
                  _ _ []).
    + cbn; lia.
    + exists (math_cos demo_env (radians (lit 45))),
             (math_sin demo_env (radians (lit 45))).
      split; vm_compute; reflexivity.
Defined.
Section LegacyFormat.

Variable E : env.
Variables (text : string) (p : position) (fnt : font) (color : string).

(** The legacy format (an effects dict without ['type']).  With a
    ['shadow'] entry the shadow is drawn at the origin plus the first
    two elements of its offset, filled with its colour string as it is
    (no opacity, no parsing), and then the base text; an offset of fewer
    than two elements raises [IndexError] before anything is drawn,
    where the unified format falls back to [(5, 5)].  Without a
    ['shadow'] entry (the empty dict included) the text is drawn
    plain. *)
Theorem legacy_shadow_draws (d : effects_dict) :
  let size := text_size E text fnt in
  let org := origin (fst (anchor_of p)) (snd (anchor_of p))
                    (fst size) (snd size) in
  let base := mkDraw org text (FillStr color) fnt in
  ef_type d = None ->
  0 <= snd size < 2 ^ 51 ->
  forall cv,
    apply_text_effects E text p fnt color (Some d) cv
    = match ef_shadow d with
      | Some sh =>
          match get_or (ls_offset sh) [5; 5] with
          | dx :: dy :: _ =>
              (Ok tt,
               cv ++ [ mkDraw (fst org + dx, snd org + dy) text
                              (FillStr (get_or (ls_color sh) "#000000")) fnt;
                       base ])
          | _ => (Raise (mkExn IndexError "list index out of range"), cv)
          end
      | None => (Ok tt, cv ++ [base])
      end.
Proof.
  intros size org base Hty Hh cv.
  rewrite apply_text_effects_origin by exact Hh. fold size org.
  unfold base. clearbody org. destruct org as [ox oy]. cbn [fst snd].
  cbn [truthy]. rewrite Hty. cbn [is_some orb].
  destruct (ef_shadow d) as [sh | ] eqn:Hsh.
  - cbn [is_some]. rewrite Bool.orb_true_r. cbn [orb].
    unfold legacy_effect. rewrite Hsh.
    destruct (get_or (ls_offset sh) [5; 5]) as [ | dx [ | dy rest]];
      [ reflexivity | reflexivity | ].
    rewrite (list_getitem_nth (dx :: dy :: rest) 0 0),
      (list_getitem_nth (dx :: dy :: rest) 1 0)
      by (cbn [List.length]; lia).
    change (Z.to_nat 0) with 0%nat. change (Z.to_nat 1) with 1%nat.
    cbn [nth]. cbv beta iota delta [bind lift draw_text draw_base].
    rewrite <- app_assoc. reflexivity.
  - cbn [is_some]. unfold legacy_effect. rewrite Hsh.
    destruct (is_some (ef_settings d) || false || ef_other d)%bool;
      reflexivity.
Qed.

End LegacyFormat.

Lemma legacy_shadow_draws_witness :
  ef_type legacy_red = None
  /\ ef_type legacy_short = None
  /\ 0 <= snd (text_size demo_env "Hi" BuiltinDefault) < 2 ^ 51
  /\ demo_render (Some legacy_red)
     = (Ok tt,
        [ mkDraw (83, 87) "Hi" (FillStr "red") BuiltinDefault;
          mkDraw (80, 83) "Hi" (FillStr "#FFFFFF") BuiltinDefault ])
  /\ demo_render (Some legacy_short)
     = (Raise (mkExn IndexError "list index out of range"), []).
Proof.
  assert (Hh : 0 <= snd (text_size demo_env "Hi" BuiltinDefault) < 2 ^ 51)
    by (cbn; lia).
  refine (conj eq_refl (conj eq_refl (conj Hh (conj _ _)))).
  - exact (legacy_shadow_draws demo_env "Hi" demo_anchor BuiltinDefault
             "#FFFFFF" legacy_red eq_refl Hh []).
  - exact (legacy_shadow_draws demo_env "Hi" demo_anchor BuiltinDefault
             "#FFFFFF" legacy_short eq_refl Hh []).
Defined.

(** ** The service: paths, layers and dramatic text *)

Section ResolvePath.

Variable E : env.

Lemma resolve_local (image_path : string) :
  is_url image_path = false ->
  resolve_image_path E image_path
  = match find (isfile E) (candidate_paths E image_path) with
    | Some path => Ok path
    | None =>
        if PyStr.startswith "/uploads/" image_path
        then raise_ FileNotFoundError
               ("Could not locate image file at any of these locations: "
                  ++ String.concat ", " (candidate_paths E image_path))
        else raise_ FileNotFoundError ("File not found: " ++ image_path)
    end.
Proof.
  unfold is_url, resolve_image_path, candidate_paths. intros ->.
  destruct (PyStr.startswith "/uploads/" image_path).
  - cbn [filter find].
    destruct (isfile E image_path); [ reflexivity | ].
    destruct (isfile E (path_join E (base_dir E) (PyStr.drop 1 image_path)));
      [ reflexivity | ].
    destruct (isfile E (path_join E "uploads" (PyStr.drop 9 image_path)));
      reflexivity.
  - cbn [find].
    destruct (isfile E image_path); [ reflexivity | ].
    destruct (isfile E (path_join E (base_dir E) image_path)); reflexivity.
Qed.

Lemma find_first {A} (f : A -> bool) (l : list A) (x : A) :
  find f l = Some x ->
  exists before after,
    l = before ++ x :: after
    /\ f x = true
    /\ forall y, In y before -> f y = false.
Proof.
  induction l as [ | a l IH]; [ discriminate | ].
  cbn [find]. destruct (f a) eqn:Ha.
  - intros [= <-]. exists [], l. repeat split; [ exact Ha | intros y [] ].
  - intros H. destruct (IH H) as (before & after & -> & Hx & Hb).
    exists (a :: before), after. repeat split; [ exact Hx | ].
    intros y [<- | Hy]; [ exact Ha | now apply Hb ].
Qed.

(** Path resolution.  The candidate locations of a path under
    [/uploads/] are, in this order, the path as given, the path without
    its leading slash under the base directory, and the rest of the
    path after [/uploads/] under [uploads]; those of any other path are
    the path as given and the path under the base directory.  A path
    that is not a URL resolves to the first candidate that is a file,
    so that no candidate before the returned one is a file and an
    existing file is returned unchanged.  The only errors are
    [FileNotFoundError], when no candidate is a file, and, for a URL, a
    [ValueError] that wraps the failure of the download. *)
Theorem resolve_image_path_sound (image_path : string) :
  candidate_paths E image_path
  = (if PyStr.startswith "/uploads/" image_path
     then [ image_path;
            path_join E (base_dir E) (PyStr.drop 1 image_path);
            path_join E "uploads" (PyStr.drop 9 image_path) ]
     else [ image_path; path_join E (base_dir E) image_path ])
  /\ (is_url image_path = false -> isfile E image_path = true ->
      resolve_image_path E image_path = Ok image_path)
  /\ (forall path,
         is_url image_path = false ->
         resolve_image_path E image_path = Ok path ->
         exists before after,
           candidate_paths E image_path = before ++ path :: after
           /\ isfile E path = true
           /\ forall q, In q before -> isfile E q = false)
  /\ (forall e,
         resolve_image_path E image_path = Raise e ->
         if is_url image_path
         then exn_cls e = ValueError
              /\ exists cause,
                   http_download E image_path = Raise cause
                   /\ exn_str e
                      = ("Failed to download image from URL: "
                           ++ exn_str cause)%string
         else exn_cls e = FileNotFoundError
              /\ forall path, In path (candidate_paths E image_path) ->
                              isfile E path = false).
Proof.
  split; [ reflexivity | ]. split; [ | split ].
  - intros Hu Hf. rewrite resolve_local by exact Hu.
    unfold candidate_paths.
    destruct (PyStr.startswith "/uploads/" image_path);
      cbn [find]; rewrite Hf; reflexivity.
  - intros path Hu. rewrite resolve_local by exact Hu.
    destruct (find (isfile E) (candidate_paths E image_path)) as [q | ] eqn:Hq.
    + intros [= <-]. exact (find_first _ _ _ Hq).
    + destruct (PyStr.startswith "/uploads/" image_path); discriminate.
  - intros e. destruct (is_url image_path) eqn:Hu.
    + unfold resolve_image_path. unfold is_url in Hu. rewrite Hu.
      destruct (http_download E image_path) as [tmp | cause]; cbn [rtry];
        [ discriminate | ].
      intros [= <-]. split; [ reflexivity | ]. exists cause. now split.
    + rewrite resolve_local by exact Hu.
      destruct (find (isfile E) (candidate_paths E image_path)) as [q | ] eqn:Hq;
        [ discriminate | ].
      intros H. split.
      * destruct (PyStr.startswith "/uploads/" image_path);
          injection H as <-; reflexivity.
      * intros path Hin. exact (find_none _ _ Hq path Hin).
Qed.

End ResolvePath.

(** A moved upload: of the two locations that are files, the one under
    the base directory is returned, being probed first. *)
Lemma resolve_image_path_sound_witness :
  isfile demo_env_moved "/uploads/a.png" = false
  /\ isfile demo_env_moved "/srv/app/uploads/a.png" = true
  /\ isfile demo_env_moved "uploads/a.png" = true
  /\ resolve_image_path demo_env_moved "/uploads/a.png"
     = Ok "/srv/app/uploads/a.png"
  /\ exists before after,
       candidate_paths demo_env_moved "/uploads/a.png"
       = before ++ "/srv/app/uploads/a.png" :: after
       /\ isfile demo_env_moved "/srv/app/uploads/a.png" = true
       /\ forall q, In q before -> isfile demo_env_moved q = false.
Proof.
  refine (conj eq_refl (conj eq_refl (conj eq_refl (conj eq_refl _)))).
  exact (proj1 (proj2 (proj2
           (resolve_image_path_sound demo_env_moved "/uploads/a.png")))
           "/srv/app/uploads/a.png" eq_refl eq_refl).
Defined.

Section DramaticText.

Import PyStr.

Lemma getitem_last (s : string) (c : ascii) :
  last_char s = Some c -> getitem s (-1) = Ok c.
Proof.
  intros H. unfold getitem. cbn [Z.ltb Z.compare].
  assert (Hlen : forall t d, last_char t = Some d ->
                   (0 < String.length t)%nat
                   /\ String.get (String.length t - 1) t = Some d).
  { induction t as [ | a t IH]; intros d Hd; [ discriminate | ].
    cbn [last_char] in Hd. destruct t as [ | b t'].
    - injection Hd as <-. cbn. split; [ lia | reflexivity ].
    - destruct (IH d Hd) as [Hpos Hget]. cbn [String.length] in *.
      split; [ lia | ].
      replace (S (S (String.length t')) - 1)%nat
        with (S (S (String.length t') - 1)) by lia.
      cbn [String.get]. exact Hget. }
  destruct (Hlen s c H) as [Hpos Hget]. unfold len.
  replace ((-1 + Z.of_nat (String.length s) <? 0)
           || (Z.of_nat (String.length s) <=? -1 + Z.of_nat (String.length s)))%bool
    with false
    by (symmetry; apply Bool.orb_false_intro; [ apply Z.ltb_ge | apply Z.leb_gt ]; lia).
  replace (Z.to_nat (-1 + Z.of_nat (String.length s)))
    with (String.length s - 1)%nat by lia.
  rewrite Hget. reflexivity.
Qed.

Lemma last_char_nonempty (s : string) :
  s <> "" -> exists c, last_char s = Some c.
Proof.
  induction s as [ | a s IH]; [ congruence | intros _ ].
  destruct s as [ | b s']; [ now exists a | ].
  destruct IH as [c Hc]; [ discriminate | ]. exists c. exact Hc.
Qed.

Lemma last_char_app (s : string) (c : ascii) :
  last_char (s ++ String c "") = Some c.
Proof.
  induction s as [ | a s IH]; [ reflexivity | ].
  cbn [append last_char]. rewrite IH.
  destruct (s ++ String c "")%string eqn:Hs; [ | reflexivity ].
  destruct s; discriminate Hs.
Qed.

(** [add_dramatic_text] on a text that is not empty, or without the
    period option, is [add_text] on the processed text with the shadow
    as the default effect; a failure of [add_text] is re-raised under a
    second prefix, and what [add_text] left behind stays. *)
Theorem add_dramatic_text_is_add_text (E : env)
        (background_path text : string) (pos : pos_dict) (font_size : Z)
        (color font_name : string) (with_period to_uppercase : bool)
        (effects : option effects_dict) (w : world) :
  text <> "" \/ with_period = false ->
  let run :=
    add_text E background_path
             (dramatic_processed_text text with_period to_uppercase)
             pos font_size color font_name (final_effects effects) w in
  add_dramatic_text E background_path text pos font_size color font_name
                    with_period to_uppercase effects w
  = (rewrap "Failed to add dramatic text: " (fst run), snd run).
Proof.
  intros Hne run. unfold add_dramatic_text, try_except.
  set (t := if to_uppercase then upper text else text).
  assert (Hadd : (if with_period
                  then last <- lift (getitem t (-1)) ;;
                       ret (negb (contains last ".!?"))
                  else ret false) w
                 = (Ok (with_period && negb (ends_with_punctuation t))%bool, w)).
  { destruct with_period; [ | reflexivity ].
    assert (Ht : t <> "").
    { destruct Hne as [Hne | Hne]; [ | discriminate ].
      unfold t. destruct to_uppercase; [ | exact Hne ].
      destruct text; [ congruence | discriminate ]. }
    destruct (last_char_nonempty t Ht) as [c Hc].
    unfold bind, lift, ret. rewrite (getitem_last t c Hc).
    unfold ends_with_punctuation. rewrite Hc. reflexivity. }
  unfold bind at 1. rewrite Hadd.
  unfold run, dramatic_processed_text, final_effects. fold t.
  destruct (add_text E background_path _ pos font_size color font_name _ w)
    as [[r | e] w']; reflexivity.
Qed.

Lemma add_dramatic_text_is_add_text_witness :
  ("Hello" <> "" \/ true = false)
  /\ dramatic_processed_text "Hello" true true = "HELLO."
  /\ fst (add_dramatic_text demo_env "missing.png" "Hello"
            (mkPos None None) 150 "#FFFFFF" "anton" true true None
            empty_world)
     = rewrap "Failed to add dramatic text: "
         (fst (add_text demo_env "missing.png" "HELLO." (mkPos None None) 150
                        "#FFFFFF" "anton" (Some dramatic_shadow) empty_world)).
Proof.
  assert (H : "Hello" <> "" \/ true = false) by (left; discriminate).
  refine (conj H (conj eq_refl _)).
  exact (f_equal fst
           (add_dramatic_text_is_add_text demo_env "missing.png" "Hello"
              (mkPos None None) 150 "#FFFFFF" "anton" true true None
              empty_world H)).
Defined.

Lemma upper_char_idem (c : ascii) : upper_char (upper_char c) = upper_char c.
Proof. destruct c as [[] [] [] [] [] [] [] []]; reflexivity. Qed.

Lemma upper_idem (s : string) : upper (upper s) = upper s.
Proof.
  induction s as [ | c s IH]; [ reflexivity | ].
  cbn [upper map_chars]. rewrite upper_char_idem. f_equal. exact IH.
Qed.

Lemma upper_app (s t : string) : upper (s ++ t) = (upper s ++ upper t)%string.
Proof.
  induction s as [ | c s IH]; [ reflexivity | ].
  cbn [append upper map_chars]. f_equal. exact IH.
Qed.

Lemma length_app (s t : string) :
  String.length (s ++ t) = (String.length s + String.length t)%nat.
Proof. induction s as [ | c s IH]; cbn; [ reflexivity | now rewrite IH ]. Qed.

Lemma length_upper (s : string) : String.length (upper s) = String.length s.
Proof. induction s as [ | c s IH]; cbn; [ reflexivity | now f_equal ]. Qed.

(** The text [add_dramatic_text] renders.  With the period option a text
    that is not empty always ends with one of [. ! ?]; the text grows by
    at most the one period; a text that already ends with one of the
    three is only uppercased, if at all; and processing a processed text
    again changes nothing. *)
Theorem dramatic_text_punctuation (text : string)
        (with_period to_uppercase : bool) :
  let processed := dramatic_processed_text text with_period to_uppercase in
  let cased := if to_uppercase then upper text else text in
  (with_period = true -> text <> "" -> ends_with_punctuation processed = true)
  /\ (String.length text <= String.length processed
      <= String.length text + 1)%nat
  /\ (ends_with_punctuation cased = true \/ with_period = false ->
      processed = cased)
  /\ dramatic_processed_text processed with_period to_uppercase = processed.
Proof.
  cbv zeta. unfold dramatic_processed_text.
  set (t := if to_uppercase then upper text else text).
  assert (Hlen : String.length t = String.length text)
    by (unfold t; destruct to_uppercase; [ apply length_upper | reflexivity ]).
  assert (Hdot : ends_with_punctuation (t ++ ".") = true)
    by (unfold ends_with_punctuation; rewrite last_char_app; reflexivity).
  assert (Hup : (if to_uppercase then upper t else t) = t)
    by (unfold t; destruct to_uppercase; [ apply upper_idem | reflexivity ]).
  assert (Hupdot : (if to_uppercase then upper (t ++ ".") else (t ++ ".")%string)
                   = (t ++ ".")%string).
  { destruct to_uppercase; [ | reflexivity ].
    rewrite upper_app. unfold t. rewrite upper_idem. reflexivity. }
  destruct with_period; cbn [andb].
  - destruct (ends_with_punctuation t) eqn:Hp; cbn [negb].
    + split; [ intros _ _; exact Hp | ]. split; [ lia | ].
      split; [ reflexivity | ]. rewrite Hup, Hp. reflexivity.
    + split; [ intros _ _; exact Hdot | ].
      split; [ rewrite length_app; cbn [String.length]; lia | ].
      split; [ intros [H | H]; discriminate H | ].
      rewrite Hupdot, Hdot. reflexivity.
  - split; [ discriminate | ]. split; [ lia | ].
    split; [ reflexivity | ]. rewrite Hup. reflexivity.
Qed.

End DramaticText.
Section Layers.

Variable E : env.

Lemma draw_on_emits (im : image) (m : M canvas unit) (r : result unit)
      (ds : list draw_call) :
  emits m r ds ->
  draw_on im m
  = match r with
    | Ok _ => Ok (mkImage (im_width im) (im_height im) (im_draws im ++ ds))
    | Raise e => Raise e
    end.
Proof.
  intros Hm. unfold draw_on. rewrite Hm. destruct r; reflexivity.
Qed.

(** [add_multiple_text_layers] is all or nothing up to the upload.  The
    layers are drawn in list order on the decoded background; if one of
    them fails, the layers drawn before it are dropped with it: nothing
    is saved, nothing is uploaded, and the error is a [ValueError]
    under the prefix of the entry point.  Otherwise the image saved
    under [uploads/public] has the size of the background and its draws
    followed by those of the layers, and what is returned is the item
    ['url'] of the answer of the upload.  A failed upload leaves the
    saved file behind; an answer without that item leaves the saved
    file and the upload behind, and is a [ValueError] under the same
    prefix.  With no layer at all the background is saved as it is. *)
Theorem add_multiple_text_layers_outcome (background_path : string)
        (text_layers : list TextLayer) (w : world)
        (resolved : string) (background : image) :
  let run := add_multiple_text_layers E background_path text_layers w in
  let path := multilayer_path E in
  let wrap := rewrap (A := string) "Failed to add multiple text layers: " in
  resolve_image_path E background_path = Ok resolved ->
  image_open E resolved = Ok background ->
  exists r ds,
    emits (render_layers E text_layers) r ds
    /\ (text_layers = [] -> r = Ok tt /\ ds = [])
    /\ match r with
       | Raise e => run = (wrap (Raise e), w)
       | Ok _ =>
           let out := mkImage (im_width background) (im_height background)
                              (im_draws background ++ ds) in
           match save_png E path out with
           | Raise e => run = (wrap (Raise e), w)
           | Ok _ =>
               match upload_image E path with
               | Raise e =>
                   run = (wrap (Raise e),
                          mkWorld ((path, out) :: w_files w) (w_uploads w))
               | Ok result_info =>
                   run = (wrap (result_url E result_info),
                          mkWorld ((path, out) :: w_files w)
                                  ((path, result_info) :: w_uploads w))
               end
           end
       end.
Proof.
  intros run path wrap Hres Hopen.
  destruct (appends_render_layers E text_layers) as (r & ds & Hm).
  exists r, ds. split; [ exact Hm | ]. split.
  - intros ->. specialize (Hm []). cbn in Hm. injection Hm as <- <-.
    now split.
  - unfold run, add_multiple_text_layers, try_except, bind, lift, throw, ret,
      save, upload, raise_.
    rewrite Hres, Hopen, (draw_on_emits background _ r ds Hm).
    fold (multilayer_path E). fold path.
    destruct r as [[] | e]; [ | reflexivity ].
    cbv zeta.
    destruct (save_png E path _) as [[] | e]; [ | reflexivity ].
    cbn [w_files w_uploads].
    destruct (upload_image E path) as [result_info | e]; [ | reflexivity ].
    destruct (result_url E result_info) as [url | e]; reflexivity.
Qed.

(** One layer through [add_multiple_text_layers] and the same text
    through [add_text], with the arguments the layer's style gives or
    defaults to (size 120, white, the font "anton", no effects): when
    both return, they have saved the same image, one under
    [uploads/public], the other under [uploads/processed]. *)
Theorem single_layer_matches_add_text (background_path : string)
        (layer : TextLayer) (w : world)
        (r1 : string * text_info) (w1 : world) (url : string) (w2 : world) :
  add_text E background_path (tl_text layer) (tl_position layer)
           (layer_font_size layer) (layer_color layer)
           (layer_font_name layer) (sy_effects (tl_style layer)) w
  = (Ok r1, w1) ->
  add_multiple_text_layers E background_path [layer] w = (Ok url, w2) ->
  exists canvas,
    w_files w1 = (text_path E background_path, canvas) :: w_files w
    /\ w_files w2 = (multilayer_path E, canvas) :: w_files w.
Proof.
  unfold add_text, add_text_body, add_multiple_text_layers, try_except,
    throw, raise_, render_layers, render_layer, layer_font_size, layer_color,
    layer_font_name.
  fold (text_path E background_path). fold (multilayer_path E).
  cbn [for_each]. unfold bind, lift, ret, save, upload, draw_on.
  rewrite !get_font_total.
  destruct (resolve_image_path E background_path) as [resolved | e];
    [ | discriminate ].
  destruct (image_open E resolved) as [background | e]; [ | discriminate ].
  destruct (text_size E (tl_text layer) _) as [tw th].
  destruct (int_of_num (get_or (pd_x (tl_position layer)) (NInt 10)))
    as [pos_x | e]; [ | discriminate ].
  destruct (int_of_num (get_or (pd_y (tl_position layer)) (NInt 10)))
    as [pos_y | e]; [ | discriminate ].
  destruct (apply_text_effects E (tl_text layer) (PosTuple [pos_x; pos_y]) _
              _ _ (im_draws background)) as [[[] | e] ds]; [ | discriminate ].
  destruct (mkdir_processed E) as [[] | e]; [ | discriminate ].
  destruct (save_png E (text_path E background_path) _) as [[] | e];
    [ | discriminate ].
  destruct (upload_image E (text_path E background_path)) as [u1 | e];
    [ | discriminate ].
  intros [= <- <-].
  destruct (save_png E (multilayer_path E) _) as [[] | e]; [ | discriminate ].
  destruct (upload_image E (multilayer_path E)) as [u2 | e];
    [ | discriminate ].
  destruct (result_url E u2) as [u3 | e]; [ | discriminate ].
  intros [= <- <-].
  eexists. split; reflexivity.
Qed.

End Layers.

Lemma add_multiple_text_layers_outcome_witness :
  resolve_image_path demo_env "photo.png" = Ok "photo.png"
  /\ image_open demo_env "photo.png" = Ok (mkImage 800 600 [])
  /\ add_multiple_text_layers demo_env "photo.png"
       [demo_layer "one" None; demo_layer "two" (Some sparkle)] empty_world
     = (Ok "https://cdn.example/uploads/public/multilayer_1700000000.png",
        mkWorld
          [ ("uploads/public/multilayer_1700000000.png",
             mkImage 800 600
               [ mkDraw (80, 83) "one" (FillStr "#FFFFFF") anton_120;
                 mkDraw (80, 83) "two" (FillStr "#FFFFFF") anton_120 ]) ]
          [ ("uploads/public/multilayer_1700000000.png",
             "https://cdn.example/uploads/public/multilayer_1700000000.png") ])
  /\ add_multiple_text_layers demo_env_plain_answer "photo.png"
       [demo_layer "one" None] empty_world
     = (Raise (mkExn ValueError
                 ("Failed to add multiple text layers: "
                    ++ "string indices must be integers, not 'str'")),
        mkWorld
          [ ("uploads/public/multilayer_1700000000.png",
             mkImage 800 600
               [ mkDraw (80, 83) "one" (FillStr "#FFFFFF") anton_120 ]) ]
          [ ("uploads/public/multilayer_1700000000.png",
             "https://cdn.example/uploads/public/multilayer_1700000000.png") ]).
Proof.
  refine (conj eq_refl (conj eq_refl (conj _ _))).
  - destruct (add_multiple_text_layers_outcome demo_env "photo.png"
                [demo_layer "one" None; demo_layer "two" (Some sparkle)]
                empty_world "photo.png" (mkImage 800 600 []) eq_refl eq_refl)
      as (r & ds & Hm & _ & Hrun).
    specialize (Hm []). vm_compute in Hm. injection Hm as <- <-.
    exact Hrun.
  - destruct (add_multiple_text_layers_outcome demo_env_plain_answer
                "photo.png" [demo_layer "one" None]
                empty_world "photo.png" (mkImage 800 600 []) eq_refl eq_refl)
      as (r & ds & Hm & _ & Hrun).
    specialize (Hm []). vm_compute in Hm. injection Hm as <- <-.
    exact Hrun.
Defined.

Lemma single_layer_matches_add_text_witness :
  exists canvas,
    w_files (snd (add_text demo_env "photo.png" "two"
                    (mkPos (Some (NInt 100)) (Some (NInt 100))) 120 "#FFFFFF"
                    "anton" (Some sparkle) empty_world))
    = [("uploads/processed/photo_text_1700000000.png", canvas)]
    /\ w_files (snd (add_multiple_text_layers demo_env "photo.png"
                       [demo_layer "two" (Some sparkle)] empty_world))
       = [("uploads/public/multilayer_1700000000.png", canvas)].
Proof.
  exact (single_layer_matches_add_text demo_env "photo.png"
           (demo_layer "two" (Some sparkle)) empty_world _ _ _ _
           eq_refl eq_refl).
Defined.
Section AddTextInfo.

Variable E : env.

Lemma apply_text_effects_base_last (text : string) (p : position) (fnt : font)
      (color : string) (effects : option effects_dict) (cv cv' : canvas) :
  let size := text_size E text fnt in
  let org := origin (fst (anchor_of p)) (snd (anchor_of p))
                    (fst size) (snd size) in
  0 <= snd size < 2 ^ 51 ->
  apply_text_effects E text p fnt color effects cv = (Ok tt, cv') ->
  exists ds, cv' = cv ++ ds ++ [mkDraw org text (FillStr color) fnt].
Proof.
  intros size org Hh Hrun.
  rewrite apply_text_effects_origin in Hrun by exact Hh.
  fold size org in Hrun.
  assert (Hlast : forall m,
             base_last text fnt color (fst org) (snd org) m ->
             m cv = (Ok tt, cv') ->
             exists ds, cv' = cv ++ ds ++ [mkDraw org text (FillStr color) fnt]).
  { intros m (r & ds & Hm & Hl) Hmcv. rewrite Hm in Hmcv.
    injection Hmcv as -> <-. destruct (Hl eq_refl) as (ds' & ->).
    exists ds'. unfold base_draw. destruct org. reflexivity. }
  destruct effects as [d | ];
    [ | exact (Hlast _ (base_last_base _ _ _ _ _) Hrun) ].
  destruct (truthy (Some d));
    [ | exact (Hlast _ (base_last_base _ _ _ _ _) Hrun) ].
  destruct (ef_type d) as [ty | ].
  - exact (Hlast _ (base_last_typed E _ _ _ _ _ ty _) Hrun).
  - exact (Hlast _ (base_last_legacy _ _ _ _ _ d) Hrun).
Qed.

(** What [add_text] reports describes what it drew.  On success the
    info holds the request's position truncated to integers (10 for a
    missing coordinate), the size of the text measured with the font the
    fallback chain resolved, and the size of the background; the saved
    image has the size and the draws of the background followed by the
    draws of this call, the last of which is the base text at the
    corrected origin computed from the reported position and size.
    Sending the reported position back renders the same image and
    returns the same report. *)
Theorem add_text_info_describes_render (background_path text : string)
        (pos : pos_dict) (font_size : Z) (color font_name : string)
        (effects : option effects_dict) (w w' : world)
        (path : string) (info : text_info) :
  let fnt := resolved_font E font_name font_size in
  0 <= snd (text_size E text fnt) < 2 ^ 51 ->
  add_text E background_path text pos font_size color font_name effects w
  = (Ok (path, info), w') ->
  int_of_num (get_or (pd_x pos) (NInt 10)) = Ok (fst (info_position info))
  /\ int_of_num (get_or (pd_y pos) (NInt 10)) = Ok (snd (info_position info))
  /\ info_text_size info = text_size E text fnt
  /\ (exists resolved background ds,
         resolve_image_path E background_path = Ok resolved
         /\ image_open E resolved = Ok background
         /\ info_image_size info = (im_width background, im_height background)
         /\ w_files w'
            = (path,
               mkImage (im_width background) (im_height background)
                 (im_draws background ++ ds
                    ++ [mkDraw (origin (fst (info_position info))
                                       (snd (info_position info))
                                       (fst (info_text_size info))
                                       (snd (info_text_size info)))
                               text (FillStr color) fnt]))
                :: w_files w)
  /\ add_text E background_path text
              (mkPos (Some (NInt (fst (info_position info))))
                     (Some (NInt (snd (info_position info)))))
              font_size color font_name effects w
     = (Ok (path, info), w').
Proof.
  intros fnt Hh.
  unfold add_text, add_text_body, try_except, throw, raise_.
  fold (text_path E background_path).
  unfold bind, lift, ret, save, upload, draw_on.
  rewrite !get_font_total. fold fnt.
  destruct (resolve_image_path E background_path) as [resolved | e]
    eqn:Hres; [ | discriminate ].
  destruct (image_open E resolved) as [background | e] eqn:Hopen;
    [ | discriminate ].
  destruct (text_size E text fnt) as [tw th] eqn:Hsize.
  destruct (int_of_num (get_or (pd_x pos) (NInt 10))) as [pos_x | e];
    [ | discriminate ].
  destruct (int_of_num (get_or (pd_y pos) (NInt 10))) as [pos_y | e];
    [ | discriminate ].
  cbn [get_or pd_x pd_y int_of_num].
  destruct (apply_text_effects E text (PosTuple [pos_x; pos_y]) fnt color
              effects (im_draws background)) as [[[] | e] cv'] eqn:Hdraw;
    [ | discriminate ].
  destruct (mkdir_processed E) as [[] | e]; [ | discriminate ].
  destruct (save_png E (text_path E background_path) _) as [[] | e] eqn:Hsave;
    [ | discriminate ].
  destruct (upload_image E (text_path E background_path)) as [u | e] eqn:Hup;
    [ | discriminate ].
  intros [= <- <- <-]. cbn [info_position info_text_size info_image_size fst snd].
  rewrite ?Hdraw, ?Hsave, ?Hup.
  repeat (split; [ reflexivity | ]).
  split; [ | reflexivity ].
  apply apply_text_effects_base_last in Hdraw; [ | rewrite Hsize; exact Hh ].
  destruct Hdraw as [ds ->]. rewrite Hsize. cbn [anchor_of fst snd].
  exists resolved, background, ds. repeat split. exact Hopen.
Qed.

End AddTextInfo.

Lemma add_text_info_describes_render_witness :
  0 <= snd (text_size demo_env "Hi" (resolved_font demo_env "Impact" 120))
    < 2 ^ 51
  /\ (let run :=
        add_text demo_env "photo.png" "Hi"
                 (mkPos (Some (NFloat (lit 100))) None) 120 "#FFFFFF" "Impact"
                 None empty_world in
      exists path info,
        run = (Ok (path, info), snd run)
        /\ info_position info = (100, 10)
        /\ add_text demo_env "photo.png" "Hi"
                    (mkPos (Some (NInt 100)) (Some (NInt 10))) 120 "#FFFFFF"
                    "Impact" None empty_world
           = run).
Proof.
  assert (Hh : 0 <= snd (text_size demo_env "Hi"
                           (resolved_font demo_env "Impact" 120)) < 2 ^ 51)
    by (cbn; lia).
  refine (conj Hh _). cbv zeta.
  destruct (add_text demo_env "photo.png" "Hi"
              (mkPos (Some (NFloat (lit 100))) None) 120 "#FFFFFF" "Impact"
              None empty_world) as [[[path info] | e] w'] eqn:Hrun;
    [ | vm_compute in Hrun; discriminate Hrun ].
  exists path, info. cbn [snd]. split; [ reflexivity | ].
  destruct (add_text_info_describes_render demo_env "photo.png" "Hi"
              (mkPos (Some (NFloat (lit 100))) None) 120 "#FFFFFF" "Impact"
              None empty_world w' path info Hh Hrun)
    as (Hx & Hy & _ & _ & Hback).
  change (int_of_num (get_or (pd_x (mkPos (Some (NFloat (lit 100))) None))
                             (NInt 10)))
    with (Ok (A := Z) 100) in Hx.
  change (int_of_num (get_or (pd_y (mkPos (Some (NFloat (lit 100))) None))
                             (NInt 10)))
    with (Ok (A := Z) 10) in Hy.
  injection Hx as Hx. injection Hy as Hy.
  assert (Hpos : info_position info = (100, 10))
    by (destruct (info_position info); cbn [fst snd] in *; congruence).
  split; [ exact Hpos | ].
  rewrite Hpos in Hback. exact Hback.
Defined.

(** ** Previews *)

Section PreviewFacts.

(** What [add_text] leaves behind does not depend on what was there
    before: it only adds to it. *)
Lemma add_text_frame (E : env) (background_path text : string)
      (pos : pos_dict) (font_size : Z) (color font_name : string)
      (effects : option effects_dict) (w : world) :
  let run0 := add_text E background_path text pos font_size color font_name
                       effects empty_world in
  add_text E background_path text pos font_size color font_name effects w
  = (fst run0, world_app (snd run0) w).
Proof.
  cbv zeta. unfold add_text, add_text_body, try_except, throw, raise_.
  unfold bind, lift, ret, save, upload, world_app.
  destruct w as [files uploads].
  destruct (resolve_image_path E background_path) as [resolved | e];
    [ | reflexivity ].
  destruct (image_open E resolved) as [background | e]; [ | reflexivity ].
  destruct (get_font E font_name font_size) as [fnt | e]; [ | reflexivity ].
  destruct (text_size E text fnt) as [tw th].
  destruct (int_of_num (get_or (pd_x pos) (NInt 10))) as [pos_x | e];
    [ | reflexivity ].
  destruct (int_of_num (get_or (pd_y pos) (NInt 10))) as [pos_y | e];
    [ | reflexivity ].
  destruct (draw_on background _) as [canvas | e]; [ | reflexivity ].
  destruct (mkdir_processed E) as [[] | e]; [ | reflexivity ].
  destruct (save_png E _ canvas) as [[] | e]; [ | reflexivity ].
  cbn [w_files w_uploads].
  destruct (upload_image E _) as [url | e]; reflexivity.
Qed.

(** A successful [add_text] has written one file and made one upload,
    both under the path it returns. *)
Lemma add_text_success_shape (E : env) (background_path text : string)
      (pos : pos_dict) (font_size : Z) (color font_name : string)
      (effects : option effects_dict) (r : string * text_info) (d : world) :
  add_text E background_path text pos font_size color font_name effects
           empty_world = (Ok r, d) ->
  exists canvas,
    fst r = text_path E background_path
    /\ d = mkWorld [(text_path E background_path, canvas)]
                   [(text_path E background_path, info_cloud_url (snd r))].
Proof.
  unfold add_text, add_text_body, try_except, throw, raise_.
  fold (text_path E background_path).
  unfold bind, lift, ret, save, upload.
  destruct (resolve_image_path E background_path) as [resolved | e];
    [ | discriminate ].
  destruct (image_open E resolved) as [background | e]; [ | discriminate ].
  destruct (get_font E font_name font_size) as [fnt | e]; [ | discriminate ].
  destruct (text_size E text fnt) as [tw th].
  destruct (int_of_num (get_or (pd_x pos) (NInt 10))) as [pos_x | e];
    [ | discriminate ].
  destruct (int_of_num (get_or (pd_y pos) (NInt 10))) as [pos_y | e];
    [ | discriminate ].
  destruct (draw_on background _) as [canvas | e]; [ | discriminate ].
  destruct (mkdir_processed E) as [[] | e]; [ | discriminate ].
  destruct (save_png E _ canvas) as [[] | e]; [ | discriminate ].
  destruct (upload_image E _) as [url | e]; [ | discriminate ].
  intros [= <- <-]. exists canvas. split; reflexivity.
Qed.

(** A failed [add_text] has made no upload. *)
Lemma add_text_failure_no_upload (E : env) (background_path text : string)
      (pos : pos_dict) (font_size : Z) (color font_name : string)
      (effects : option effects_dict) (e : exn) (d : world) :
  add_text E background_path text pos font_size color font_name effects
           empty_world = (Raise e, d) ->
  w_uploads d = [].
Proof.
  unfold add_text, add_text_body, try_except, throw, raise_.
  unfold bind, lift, ret, save, upload, empty_world.
  destruct (resolve_image_path E background_path) as [resolved | e0];
    [ | now intros [= _ <-] ].
  destruct (image_open E resolved) as [background | e0];
    [ | now intros [= _ <-] ].
  destruct (get_font E font_name font_size) as [fnt | e0];
    [ | now intros [= _ <-] ].
  destruct (text_size E text fnt) as [tw th].
  destruct (int_of_num (get_or (pd_x pos) (NInt 10))) as [pos_x | e0];
    [ | now intros [= _ <-] ].
  destruct (int_of_num (get_or (pd_y pos) (NInt 10))) as [pos_y | e0];
    [ | now intros [= _ <-] ].
  destruct (draw_on background _) as [canvas | e0];
    [ | now intros [= _ <-] ].
  destruct (mkdir_processed E) as [[] | e0]; [ | now intros [= _ <-] ].
  destruct (save_png E _ canvas) as [[] | e0]; [ | now intros [= _ <-] ].
  destruct (upload_image E _) as [u | e0]; [ discriminate | ].
  now intros [= _ <-].
Qed.

(** Whatever [add_text] raises is a [ValueError] under its prefix. *)
Lemma add_text_raises (E : env) (background_path text : string)
      (pos : pos_dict) (font_size : Z) (color font_name : string)
      (effects : option effects_dict) (w w' : world) (e : exn) :
  add_text E background_path text pos font_size color font_name effects w
  = (Raise e, w') ->
  exists cause,
    e = mkExn ValueError ("Failed to add text: " ++ exn_str cause).
Proof.
  unfold add_text, try_except, throw, lift, raise_.
  destruct (add_text_body E _ _ _ _ _ _ _ w) as [[r | cause] w1];
    [ discriminate | ].
  intros [= <- _]. now exists cause.
Qed.

Variable c : preview_call.

Lemma previews_loop_step (size : Z) (rest : list Z)
      (previews : list (string * string)) (w : world) :
  previews_loop (pc_env c) (pc_background_path c) (pc_text c) (pc_position c)
                (pc_font_name c) (size :: rest) previews w
  = match fst (preview_run c size) with
    | Ok r =>
        previews_loop (pc_env c) (pc_background_path c) (pc_text c)
          (pc_position c) (pc_font_name c) rest
          (dict_set previews (PyStr.of_Z size) (preview_url c size))
          (world_app (preview_delta c size) w)
    | Raise e => (Raise e, world_app (preview_delta c size) w)
    end.
Proof.
  cbn [previews_loop]. unfold bind. rewrite add_text_frame.
  fold (preview_run c size). unfold preview_url, preview_delta.
  destruct (fst (preview_run c size)); reflexivity.
Qed.

Lemma previews_loop_ok (sizes : list Z) (previews : list (string * string))
      (w : world) :
  forallb (preview_succeeds c) sizes = true ->
  previews_loop (pc_env c) (pc_background_path c) (pc_text c) (pc_position c)
                (pc_font_name c) sizes previews w
  = (Ok (fold_left
           (fun d size => dict_set d (PyStr.of_Z size) (preview_url c size))
           sizes previews),
     after_previews c sizes w).
Proof.
  revert previews w. induction sizes as [ | size rest IH]; intros previews w H.
  - reflexivity.
  - cbn [forallb] in H. apply andb_prop in H as [Hs Hrest].
    rewrite previews_loop_step. unfold preview_succeeds in Hs.
    destruct (fst (preview_run c size)); [ | discriminate ].
    rewrite IH by exact Hrest. reflexivity.
Qed.

Lemma previews_loop_fails (before : list Z) (size : Z) (rest : list Z)
      (previews : list (string * string)) (w : world) (e : exn) :
  forallb (preview_succeeds c) before = true ->
  fst (preview_run c size) = Raise e ->
  previews_loop (pc_env c) (pc_background_path c) (pc_text c) (pc_position c)
                (pc_font_name c) (before ++ size :: rest) previews w
  = (Raise e, world_app (preview_delta c size) (after_previews c before w)).
Proof.
  revert previews w. induction before as [ | b before IH];
    intros previews w Hb Hs.
  - cbn [app]. rewrite previews_loop_step, Hs. reflexivity.
  - cbn [forallb] in Hb. apply andb_prop in Hb as [Hb1 Hb2].
    cbn [app]. rewrite previews_loop_step. unfold preview_succeeds in Hb1.
    destruct (fst (preview_run c b)); [ | discriminate ].
    rewrite IH by assumption. reflexivity.
Qed.

Lemma preview_delta_success (s : Z) :
  preview_succeeds c s = true ->
  exists canvas,
    preview_delta c s
    = mkWorld [(text_path (pc_env c s) (pc_background_path c), canvas)]
              [(text_path (pc_env c s) (pc_background_path c),
                preview_url c s)].
Proof.
  intros Hs. unfold preview_succeeds in Hs. unfold preview_delta, preview_url.
  destruct (preview_run c s) as [[r | e] d] eqn:Hrun; cbn [fst] in Hs;
    [ | discriminate ].
  destruct (add_text_success_shape _ _ _ _ _ _ _ _ r d Hrun) as (cv & _ & ->).
  exists cv. reflexivity.
Qed.

Lemma after_previews_uploads (sizes : list Z) (w : world) :
  forallb (preview_succeeds c) sizes = true ->
  List.length (w_uploads (after_previews c sizes w))
  = (List.length sizes + List.length (w_uploads w))%nat.
Proof.
  revert w. induction sizes as [ | b sizes IH]; intros w Hb; [ reflexivity | ].
  cbn [forallb] in Hb. apply andb_prop in Hb as [Hb1 Hb2].
  change (after_previews c (b :: sizes) w)
    with (after_previews c sizes (world_app (preview_delta c b) w)).
  rewrite (IH _ Hb2).
  destruct (preview_delta_success b Hb1) as (cv & ->).
  unfold world_app. cbn [w_uploads app List.length]. lia.
Qed.

(** When every size renders, the caller receives the six sizes and a
    dict of six entries, one per size in the order of the sizes, each
    key [str(size)] with the URL of the upload of that size; six files
    and six uploads have been added. *)
Theorem previews_of_all_sizes (w : world) :
  forallb (preview_succeeds c) preview_sizes = true ->
  run_previews c w
  = (Ok ([80; 100; 120; 150; 180; 220],
         [ ("80", preview_url c 80); ("100", preview_url c 100);
           ("120", preview_url c 120); ("150", preview_url c 150);
           ("180", preview_url c 180); ("220", preview_url c 220) ]),
     after_previews c preview_sizes w)
  /\ List.length (w_files (after_previews c preview_sizes w))
     = (6 + List.length (w_files w))%nat
  /\ List.length (w_uploads (after_previews c preview_sizes w))
     = (6 + List.length (w_uploads w))%nat.
Proof.
  intros Hall. split.
  - unfold run_previews, generate_font_size_previews, bind, ret.
    rewrite previews_loop_ok by exact Hall. reflexivity.
  - cbn [forallb preview_sizes] in Hall.
    repeat (apply andb_prop in Hall; destruct Hall as [?H Hall]).
    unfold after_previews, preview_sizes. cbn [fold_left].
    repeat match goal with
           | H : preview_succeeds c ?s = true |- _ =>
               destruct (preview_delta_success s H) as (? & ->); clear H
           end.
    unfold world_app. cbn [w_files w_uploads app List.length].
    split; reflexivity.
Qed.

(** The renders are not undone.  When the render of a size fails, the
    error of [add_text] reaches the caller as it is, no preview is
    returned, and the files and uploads of the sizes rendered before it
    stay where they are. *)
Theorem previews_stop_at_first_failure (before : list Z) (size : Z)
        (rest : list Z) (e : exn) (w : world) :
  preview_sizes = before ++ size :: rest ->
  forallb (preview_succeeds c) before = true ->
  fst (preview_run c size) = Raise e ->
  run_previews c w
  = (Raise e, world_app (preview_delta c size) (after_previews c before w))
  /\ (exists cause,
         e = mkExn ValueError ("Failed to add text: " ++ exn_str cause))
  /\ List.length
       (w_uploads (world_app (preview_delta c size) (after_previews c before w)))
     = (List.length before + List.length (w_uploads w))%nat.
Proof.
  intros Hsplit Hb Hs. split; [ | split ].
  - unfold run_previews, generate_font_size_previews, bind. rewrite Hsplit.
    rewrite (previews_loop_fails before size rest [] w e Hb Hs). reflexivity.
  - destruct (preview_run c size) as [r d] eqn:Hrun. cbn [fst] in Hs. subst r.
    exact (add_text_raises _ _ _ _ _ _ _ _ _ _ _ Hrun).
  - assert (Hd : w_uploads (preview_delta c size) = []).
    { unfold preview_delta. destruct (preview_run c size) as [r d] eqn:Hrun.
      cbn [fst snd] in *. subst r.
      exact (add_text_failure_no_upload _ _ _ _ _ _ _ _ _ _ Hrun). }
    unfold world_app. cbn [w_uploads]. rewrite Hd. cbn [app].
    apply after_previews_uploads. exact Hb.
Qed.

(** Previews rendered within the same second of the clock collide.  The
    file name of a render is made of the stem of the background path and
    the time in whole seconds, not of the size: when all six renders see
    the same second, all six are saved under one path and handed to the
    storage service under that path, and the file left on disk is the
    render of the last size. *)
Theorem previews_collide_within_a_second (t : Z) (stem : string) (w : world) :
  let path :=
    ("uploads/processed/" ++ stem ++ "_text_" ++ PyStr.of_Z t ++ ".png")%string in
  forallb (preview_succeeds c) preview_sizes = true ->
  (forall size, In size preview_sizes ->
                time_now (pc_env c size) = t
                /\ output_stem (pc_env c size) (pc_background_path c) = stem) ->
  exists w',
    snd (run_previews c w) = w'
    /\ map fst (w_files w') = repeat path 6 ++ map fst (w_files w)
    /\ map fst (w_uploads w') = repeat path 6 ++ map fst (w_uploads w)
    /\ dict_get (w_files w') path
       = dict_get (w_files (preview_delta c 220)) path
    /\ is_some (dict_get (w_files w') path) = true.
Proof.
  intros path Hall Hsame. eexists. split; [ reflexivity | ].
  unfold run_previews, generate_font_size_previews, bind, ret.
  rewrite previews_loop_ok by exact Hall. cbn [snd].
  assert (Hpath : forall size, In size preview_sizes ->
             text_path (pc_env c size) (pc_background_path c) = path).
  { intros size Hin. destruct (Hsame size Hin) as [Ht Hs].
    unfold text_path. rewrite Ht, Hs. reflexivity. }
  cbn [forallb preview_sizes] in Hall.
  repeat (apply andb_prop in Hall; destruct Hall as [?H Hall]).
  unfold after_previews, preview_sizes. cbn [fold_left].
  repeat match goal with
         | H : preview_succeeds c ?s = true |- _ =>
             destruct (preview_delta_success s H) as (? & ->);
             rewrite (Hpath s) by (cbn; tauto); clear H
         end.
  unfold world_app. cbn [w_files w_uploads app map fst repeat dict_get].
  rewrite String.eqb_refl. cbn [is_some]. repeat split.
Qed.

End PreviewFacts.
Lemma previews_of_all_sizes_witness :
  forallb (preview_succeeds demo_previews) preview_sizes = true
  /\ fst (run_previews demo_previews empty_world)
     = Ok ([80; 100; 120; 150; 180; 220],
           [ ("80", "https://cdn.example/uploads/processed/photo_text_1700000000.png");
             ("100", "https://cdn.example/uploads/processed/photo_text_1700000000.png");
             ("120", "https://cdn.example/uploads/processed/photo_text_1700000000.png");
             ("150", "https://cdn.example/uploads/processed/photo_text_1700000000.png");
             ("180", "https://cdn.example/uploads/processed/photo_text_1700000000.png");
             ("220", "https://cdn.example/uploads/processed/photo_text_1700000000.png") ]).
Proof.
  assert (H : forallb (preview_succeeds demo_previews) preview_sizes = true)
    by (vm_compute; reflexivity).
  refine (conj H _).
  exact (f_equal fst (proj1 (previews_of_all_sizes demo_previews empty_world H))).
Defined.

Lemma previews_stop_at_first_failure_witness :
  preview_sizes = [80; 100] ++ 120 :: [150; 180; 220]
  /\ forallb (preview_succeeds demo_previews_outage) [80; 100] = true
  /\ fst (preview_run demo_previews_outage 120)
     = Raise (mkExn ValueError "Failed to add text: S3 upload failed")
  /\ fst (run_previews demo_previews_outage empty_world)
     = Raise (mkExn ValueError "Failed to add text: S3 upload failed")
  /\ List.length (w_uploads (snd (run_previews demo_previews_outage empty_world)))
     = 2%nat
  /\ List.length (w_files (snd (run_previews demo_previews_outage empty_world)))
     = 3%nat.
Proof.
  assert (H1 : forallb (preview_succeeds demo_previews_outage) [80; 100] = true)
    by (vm_compute; reflexivity).
  assert (H2 : fst (preview_run demo_previews_outage 120)
               = Raise (mkExn ValueError "Failed to add text: S3 upload failed"))
    by (vm_compute; reflexivity).
  destruct (previews_stop_at_first_failure demo_previews_outage [80; 100] 120
              [150; 180; 220] _ empty_world eq_refl H1 H2) as (Hrun & _ & Hup).
  refine (conj eq_refl (conj H1 (conj H2 _))).
  rewrite Hrun. cbn [fst snd].
  refine (conj eq_refl (conj Hup _)).
  vm_compute. reflexivity.
Defined.

Lemma previews_collide_within_a_second_witness :
  forallb (preview_succeeds demo_previews) preview_sizes = true
  /\ (forall size, In size preview_sizes ->
        time_now (pc_env demo_previews size) = 1700000000
        /\ output_stem (pc_env demo_previews size)
                       (pc_background_path demo_previews) = "photo")
  /\ map fst (w_files (snd (run_previews demo_previews empty_world)))
     = repeat "uploads/processed/photo_text_1700000000.png" 6
  /\ dict_get (w_files (snd (run_previews demo_previews empty_world)))
              "uploads/processed/photo_text_1700000000.png"
     = Some (mkImage 800 600
               [mkDraw (80, 83) "Hi" (FillStr "#FFFFFF")
                       (TrueType "assets/fonts/Anton-Regular.ttf" 220)]).
Proof.
  assert (H : forallb (preview_succeeds demo_previews) preview_sizes = true)
    by (vm_compute; reflexivity).
  assert (Hs : forall size, In size preview_sizes ->
             time_now (pc_env demo_previews size) = 1700000000
             /\ output_stem (pc_env demo_previews size)
                            (pc_background_path demo_previews) = "photo")
    by (intros; split; reflexivity).
  destruct (previews_collide_within_a_second demo_previews 1700000000 "photo"
              empty_world H Hs) as (w' & <- & Hf & _ & Hget & _).
  refine (conj H (conj Hs (conj _ _))).
  - rewrite Hf. reflexivity.
  - change ("uploads/processed/" ++ "photo" ++ "_text_"
              ++ PyStr.of_Z 1700000000 ++ ".png")%string
      with "uploads/processed/photo_text_1700000000.png" in Hget.
    rewrite Hget. vm_compute. reflexivity.
Defined.

(** ** Position suggestions *)

Section DivisionBounds.

Lemma Zdigits2_quotient (a b : Z) :
  0 < a -> 0 < b ->
  0 <= a / b /\ Zdigits2 (a / b) <= Z.max 0 (Zdigits2 a - Zdigits2 b + 1).
Proof.
  intros Ha Hb.
  assert (Hq : 0 <= a / b) by (apply Z.div_pos; lia).
  split; [ exact Hq | ].
  pose proof (lt_pow2_Zdigits2 a ltac:(lia)) as Hua.
  assert (Hlb : 2 ^ (Zdigits2 b - 1) <= b).
  { rewrite Zdigits2_pos_log2 by lia.
    replace (Z.log2 b + 1 - 1) with (Z.log2 b) by lia.
    apply Z.log2_spec. lia. }
  pose proof (Zdigits2_nonneg a) as Hda.
  assert (Hdb : 1 <= Zdigits2 b)
    by (rewrite Zdigits2_pos_log2 by lia; pose proof (Z.log2_nonneg b); lia).
  set (k := Z.max 0 (Zdigits2 a - Zdigits2 b + 1)).
  apply Zdigits2_lt_pow2; [ | unfold k; lia ].
  split; [ exact Hq | ].
  apply Z.div_lt_upper_bound; [ lia | ].
  assert (Hpow : 2 ^ Zdigits2 a <= 2 ^ (Zdigits2 b - 1) * 2 ^ k).
  { rewrite <- Z.pow_add_r by (unfold k; lia).
    apply Z.pow_le_mono_r; unfold k; lia. }
  assert (0 < 2 ^ k) by (apply Z.pow_pos_nonneg; unfold k; lia).
  nia.
Qed.

(** A quotient by a number of magnitude at least 1 stays finite. *)
Lemma fdiv_bounded (Bx : Z) (x : float) (sy : bool) (my : positive) (ey : Z) :
  bounded_by Bx x = true ->
  1 <= Zpos (digits2_pos my) + ey ->
  0 <= Bx <= 1022 ->
  bounded_by (Bx + 1) (fdiv x (S754_finite sy my ey)) = true.
Proof.
  intros Hx Hy HB.
  destruct x as [sx | | | sx mx ex]; try discriminate; [ reflexivity | ].
  cbn [bounded_by] in Hx. apply Z.leb_le in Hx.
  unfold fdiv. cbn [SFdiv]. unfold SFdiv_core_binary.
  change (Zdigits2 (Zpos mx)) with (Zpos (digits2_pos mx)).
  change (Zdigits2 (Zpos my)) with (Zpos (digits2_pos my)).
  set (dx := Zpos (digits2_pos mx)) in *.
  set (dy := Zpos (digits2_pos my)) in *.
  set (e' := Z.min (fexp prec emax (dx + ex - (dy + ey))) (ex - ey)).
  assert (He' : e' <= ex - ey) by (unfold e'; lia).
  assert (He971 : e' <= 971 /\ e' <= Bx).
  { unfold e', fexp, emin, prec, emax. lia. }
  destruct He971 as [He971 HeB].
  set (m' := match ex - ey - e' with
             | 0 => Zpos mx
             | Zpos _ => Z.shiftl (Zpos mx) (ex - ey - e')
             | Zneg _ => 0
             end).
  assert (Hm' : m' = Zpos mx * 2 ^ (ex - ey - e')).
  { unfold m'. destruct (ex - ey - e') as [ | q | q ] eqn:Hq; try lia.
    rewrite Z.shiftl_mul_pow2 by lia. reflexivity. }
  assert (Hpos : 0 < 2 ^ (ex - ey - e')) by (apply Z.pow_pos_nonneg; lia).
  assert (Hdm : Zdigits2 m' = dx + (ex - ey - e')).
  { rewrite Hm', Zdigits2_pos_log2 by lia.
    rewrite Z.log2_mul_pow2 by lia. unfold dx.
    rewrite digits2_log2. lia. }
  pose proof (Z_div_mod m' (Zpos my) ltac:(lia)) as Hdiv.
  pose proof (Zdigits2_quotient m' (Zpos my) ltac:(lia) ltac:(lia)) as [Hq0 Hqd].
  unfold Z.div in Hq0, Hqd.
  destruct (Z.div_eucl m' (Zpos my)) as [q r]. cbn [fst] in Hq0, Hqd.
  change (Zdigits2 (Zpos my)) with dy in Hqd. rewrite Hdm in Hqd.
  destruct (round_aux_bounded (xorb sx sy) q e' (new_location (Zpos my) r) Bx)
    as [Hb _]; try lia.
  exact Hb.
Qed.

Lemma lit_3 : lit 3 = S754_finite false 6755399441055744 (-51).
Proof. reflexivity. Qed.

Lemma int_ratio_magnitude (a b k : Z) :
  a <> 0 -> b <> 0 -> Z.abs a < 2 ^ k -> 0 <= k <= 1021 ->
  bounded_by (k + 1) (int_ratio a b) = true.
Proof.
  intros Ha Hb Hlt Hk. unfold int_ratio. apply fdiv_bounded; [ | | lia ].
  - cbn [bounded_by]. apply Z.leb_le.
    pose proof (Zdigits2_lt_pow2 (Z.abs a) k ltac:(lia) ltac:(lia)) as Hd.
    replace (Zpos (digits2_pos (Z.to_pos (Z.abs a)))) with (Zdigits2 (Z.abs a))
      by (destruct a; [ congruence | reflexivity | reflexivity ]).
    lia.
  - replace (Zpos (digits2_pos (Z.to_pos (Z.abs b)))) with (Zdigits2 (Z.abs b))
      by (destruct b; [ congruence | reflexivity | reflexivity ]).
    rewrite Zdigits2_pos_log2 by lia.
    pose proof (Z.log2_nonneg (Z.abs b)). lia.
Qed.

Lemma int_truediv_bounded (a b k : Z) :
  Z.abs a < 2 ^ k -> 0 <= k <= 1021 -> b <> 0 ->
  exists q, int_truediv a b = Ok q /\ bounded_by (k + 1) q = true.
Proof.
  intros Ha Hk Hb. unfold int_truediv.
  destruct b as [ | pb | pb ]; [ congruence | | ].
  - destruct a as [ | pa | pa ]; [ eexists; split; reflexivity | | ].
    + pose proof (int_ratio_magnitude (Zpos pa) (Zpos pb) k
                    ltac:(lia) ltac:(lia) Ha Hk) as Hq.
      rewrite (bounded_finite _ _ Hq). eexists. split; [ reflexivity | exact Hq ].
    + pose proof (int_ratio_magnitude (Zneg pa) (Zpos pb) k
                    ltac:(lia) ltac:(lia) Ha Hk) as Hq.
      rewrite (bounded_finite _ _ Hq). eexists. split; [ reflexivity | exact Hq ].
  - destruct a as [ | pa | pa ]; [ eexists; split; reflexivity | | ].
    + pose proof (int_ratio_magnitude (Zpos pa) (Zneg pb) k
                    ltac:(lia) ltac:(lia) Ha Hk) as Hq.
      rewrite (bounded_finite _ _ Hq). eexists. split; [ reflexivity | exact Hq ].
    + pose proof (int_ratio_magnitude (Zneg pa) (Zneg pb) k
                    ltac:(lia) ltac:(lia) Ha Hk) as Hq.
      rewrite (bounded_finite _ _ Hq). eexists. split; [ reflexivity | exact Hq ].
Qed.

End DivisionBounds.

Section SuggestionFacts.

Lemma grid_coordinate_ok (extent text_extent idx : Z) :
  Z.abs extent < 2 ^ 900 -> Z.abs text_extent < 2 ^ 900 ->
  In idx [0; 1; 2] ->
  exists v, grid_coordinate extent text_extent idx = Ok v.
Proof.
  intros He Ht Hidx. unfold grid_coordinate.
  destruct (lit_bounded extent 900 He ltac:(lia)) as [Hef _].
  rewrite (of_int_finite extent (bounded_finite _ _ Hef)). cbn [rbind].
  assert (Hc : bounded_by 2 (fadd (lit idx) f0_5) = true)
    by (destruct Hidx as [<- | [<- | [<- | []]]]; reflexivity).
  destruct (fmul_bounded 901 2 _ _ Hef Hc ltac:(lia)) as [Hm _].
  pose proof (fdiv_bounded 904 _ false 6755399441055744 (-51) Hm
                ltac:(cbn; lia) ltac:(lia)) as Hd.
  rewrite <- lit_3 in Hd.
  destruct (int_truediv_bounded text_extent 2 900 Ht ltac:(lia) ltac:(lia))
    as (half & -> & Hh). cbn [rbind].
  pose proof (fsub_bounded 905 901 _ _ Hd Hh ltac:(lia)) as Hs.
  rewrite (py_int_finite _ (bounded_finite _ _ Hs)). eexists. reflexivity.
Qed.

Lemma insert_by_score_In (p q : suggestion) (l : list suggestion) :
  In q (insert_by_score p l) <-> q = p \/ In q l.
Proof.
  induction l as [ | a l IH]; cbn [insert_by_score In].
  - intuition congruence.
  - destruct (num_lt (sg_score a) (sg_score p)); cbn [In].
    + intuition congruence.
    + rewrite IH. intuition congruence.
Qed.

Lemma insert_by_score_length (p : suggestion) (l : list suggestion) :
  List.length (insert_by_score p l) = S (List.length l).
Proof.
  induction l as [ | a l IH]; cbn [insert_by_score List.length];
    [ reflexivity | ].
  destruct (num_lt (sg_score a) (sg_score p)); cbn [List.length]; lia.
Qed.

Lemma sort_by_score_spec (l : list suggestion) :
  List.length (sort_by_score l) = List.length l
  /\ forall q, In q (sort_by_score l) <-> In q l.
Proof.
  unfold sort_by_score.
  assert (H : forall acc,
             List.length (fold_left (fun sorted p => insert_by_score p sorted)
                                    l acc)
             = (List.length acc + List.length l)%nat
             /\ forall q,
                 In q (fold_left (fun sorted p => insert_by_score p sorted)
                                 l acc)
                 <-> In q acc \/ In q l).
  { induction l as [ | a l IH]; intros acc; cbn [fold_left List.length In].
    - split; [ lia | intuition ].
    - destruct (IH (insert_by_score a acc)) as [Hl Hin].
      rewrite Hl, insert_by_score_length. split; [ lia | ].
      intros q. rewrite Hin, insert_by_score_In. intuition congruence. }
  destruct (H []) as [Hl Hin]. split; [ exact Hl | ].
  intros q. rewrite Hin. cbn [In]. tauto.
Qed.

Variable np_mean : list Z -> float.
Variable background : pixels.
Variables (tw th : Z).

Hypothesis width_bound : 0 <= px_width background < 2 ^ 900.
Hypothesis height_bound : 0 <= px_height background < 2 ^ 900.
Hypothesis text_width_bound : Z.abs tw < 2 ^ 900.
Hypothesis text_height_bound : Z.abs th < 2 ^ 900.

Lemma grid_candidate_ok (has_alpha : bool) (y_idx x_idx : Z) :
  In y_idx [0; 1; 2] -> In x_idx [0; 1; 2] ->
  exists c,
    grid_candidate np_mean background (tw, th) has_alpha y_idx x_idx = Ok c
    /\ (has_alpha = false -> c <> None)
    /\ forall p, c = Some p -> within_margins background tw th p.
Proof.
  intros Hy Hx. unfold grid_candidate. cbn [fst snd].
  destruct (grid_coordinate_ok (px_width background) tw x_idx
              ltac:(lia) text_width_bound Hx) as [x0 ->].
  destruct (grid_coordinate_ok (px_height background) th y_idx
              ltac:(lia) text_height_bound Hy) as [y0 ->].
  cbn [rbind].
  set (x_pos := Z.max 10 (Z.min (px_width background - tw - 10) x0)).
  set (y_pos := Z.max 10 (Z.min (px_height background - th - 10) y0)).
  assert (Hm : forall s, within_margins background tw th (mkSuggestion x_pos y_pos s))
    by (intros s; unfold within_margins, x_pos, y_pos; cbn [sg_x sg_y]; lia).
  destruct has_alpha.
  - cbv zeta.
    match goal with
    | |- context [if num_lt ?a ?b then _ else _] => destruct (num_lt a b)
    end.
    + eexists. split; [ reflexivity | ].
      split; [ intros H; discriminate H | ].
      intros p [= <-]. apply Hm.
    + exists None. split; [ reflexivity | ].
      split; [ intros H; discriminate H | ].
      intros p H. discriminate H.
  - eexists. split; [ reflexivity | ].
    split; [ intros _ H; discriminate H | ].
    intros p [= <-]. apply Hm.
Qed.

Lemma grid_loop_ok (has_alpha : bool) (cells : list (Z * Z))
      (positions : list suggestion) :
  (forall c, In c cells -> In (fst c) [0; 1; 2] /\ In (snd c) [0; 1; 2]) ->
  exists kept,
    grid_loop np_mean background (tw, th) has_alpha cells positions
    = Ok (positions ++ kept)
    /\ (List.length kept <= List.length cells)%nat
    /\ (has_alpha = false -> List.length kept = List.length cells)
    /\ forall p, In p kept -> within_margins background tw th p.
Proof.
  revert positions. induction cells as [ | [y_idx x_idx] cells IH];
    intros positions Hcells.
  - exists []. cbn [grid_loop]. rewrite app_nil_r.
    split; [ reflexivity | ]. split; [ cbn; lia | ].
    split; [ reflexivity | ]. intros p [].
  - destruct (Hcells (y_idx, x_idx) ltac:(now left)) as [Hy Hx].
    destruct (grid_candidate_ok has_alpha y_idx x_idx Hy Hx)
      as (c & Hc & Hsome & Hm).
    cbn [grid_loop]. rewrite Hc. cbn [rbind].
    destruct (IH (match c with Some p => positions ++ [p] | None => positions end)
                 ltac:(intros c' Hin; apply Hcells; now right))
      as (kept & -> & Hlen & Hall & Hin).
    destruct c as [p | ].
    + exists (p :: kept). rewrite <- app_assoc. cbn [app List.length].
      split; [ reflexivity | ]. split; [ lia | ]. split; [ intros H; rewrite Hall by exact H; reflexivity | ].
      intros q [<- | Hq]; [ now apply Hm | now apply Hin ].
    + exists kept. cbn [List.length].
      split; [ reflexivity | ]. split; [ lia | ].
      split; [ intros H; now contradiction (Hsome H) | exact Hin ].
Qed.

End SuggestionFacts.

Section SuggestionTheorems.

Variable np_mean : list Z -> float.
Variable background : pixels.
Variables (tw th : Z).

Lemma grid_cells_in_range (c : Z * Z) :
  In c (list_prod (range 0 3) (range 0 3)) ->
  In (fst c) [0; 1; 2] /\ In (snd c) [0; 1; 2].
Proof.
  change (list_prod (range 0 3) (range 0 3))
    with [(0, 0); (0, 1); (0, 2); (1, 0); (1, 1); (1, 2);
          (2, 0); (2, 1); (2, 2)].
  cbn [In]. intuition (subst; cbn; tauto).
Qed.

Lemma firstn_In {A} (n : nat) (l : list A) (a : A) :
  In a (firstn n l) -> In a l.
Proof.
  revert l. induction n as [ | n IH]; intros [ | b l]; cbn; try tauto.
  intros [H | H]; [ now left | right; now apply IH ].
Qed.

(** Every suggestion keeps the margins.  On an image of at least two
    bands, with sizes below [2^900], [_suggest_text_positions] returns
    at most three positions (exactly three when the image has no alpha
    band), and each of them has [x >= 10] and [y >= 10]; wherever the
    image is at least 20 pixels wider (higher) than the text, the text
    box also ends at least 10 pixels before the right (bottom) edge.
    In an image too small for that the box sticks out: the left and top
    margins win. *)
Theorem suggested_positions_within_margins :
  2 <= px_bands background ->
  0 <= px_width background < 2 ^ 900 ->
  0 <= px_height background < 2 ^ 900 ->
  Z.abs tw < 2 ^ 900 -> Z.abs th < 2 ^ 900 ->
  exists positions,
    _suggest_text_positions np_mean background (tw, th) = Ok positions
    /\ (List.length positions <= 3)%nat
    /\ (px_bands background <> 4 -> List.length positions = 3%nat)
    /\ forall p, In p positions -> within_margins background tw th p.
Proof.
  intros Hb Hw Hh Htw Hth. unfold _suggest_text_positions.
  replace (px_bands background <=? 1) with false
    by (symmetry; apply Z.leb_gt; lia).
  destruct (grid_loop_ok np_mean background tw th Hw Hh Htw Hth
              (px_bands background =? 4)
              (list_prod (range 0 3) (range 0 3)) [] grid_cells_in_range)
    as (kept & -> & Hlen & Hall & Hin).
  cbn [app rbind]. destruct (sort_by_score_spec kept) as [Hsl Hsin].
  eexists. split; [ reflexivity | ].
  split; [ rewrite length_firstn; lia | ].
  split.
  - intros Hne. rewrite length_firstn, Hsl, Hall.
    + reflexivity.
    + apply Z.eqb_neq. exact Hne.
  - intros p Hp. apply Hin, Hsin. exact (firstn_In _ _ _ Hp).
Qed.

Lemma SFltb_asym (x y : float) : SFltb x y = true -> SFltb y x = false.
Proof.
  unfold SFltb, SFcompare.
  destruct x as [[] | [] | | [] mx ex], y as [[] | [] | | [] my ey];
    try discriminate; try reflexivity;
    rewrite (Z.compare_antisym ex ey);
    destruct (ex ?= ey); cbn [CompOpp]; try discriminate; try reflexivity;
    rewrite !Pos.compare_cont_spec; cbn [Pos.switch_Eq];
    rewrite (Pos.compare_antisym mx my);
    destruct (mx ?= my)%positive; cbn [CompOpp]; try discriminate;
    reflexivity.
Qed.

Lemma SFltb_irrefl (x : float) : SFltb x x = false.
Proof.
  destruct (SFltb x x) eqn:H; [ | reflexivity ].
  pose proof (SFltb_asym x x H). congruence.
Qed.

Lemma insert_never_increases (p : suggestion) (l : list suggestion) :
  never_increases l = true -> never_increases (insert_by_score p l) = true.
Proof.
  induction l as [ | a l IH]; [ reflexivity | ].
  intros Hl. cbn [insert_by_score].
  destruct (num_lt (sg_score a) (sg_score p)) eqn:Hap.
  - cbn [never_increases]. unfold num_lt in *.
    rewrite (SFltb_asym _ _ Hap). cbn [negb andb]. exact Hl.
  - assert (Hl' : never_increases l = true).
    { destruct l as [ | b l]; [ reflexivity | ].
      cbn [never_increases] in Hl. apply andb_prop in Hl. tauto. }
    specialize (IH Hl').
    destruct l as [ | b l].
    + cbn [insert_by_score never_increases]. rewrite Hap. reflexivity.
    + cbn [insert_by_score] in *.
      destruct (num_lt (sg_score b) (sg_score p)).
      * cbn [never_increases] in *. rewrite Hap. cbn [negb andb]. exact IH.
      * cbn [never_increases] in Hl. apply andb_prop in Hl as [Hab _].
        change (never_increases (a :: b :: insert_by_score p l))
          with (negb (num_lt (sg_score a) (sg_score b))
                && never_increases (b :: insert_by_score p l)).
        rewrite Hab. exact IH.
Qed.

Lemma sort_never_increases (l : list suggestion) :
  never_increases (sort_by_score l) = true.
Proof.
  unfold sort_by_score.
  assert (H : forall acc, never_increases acc = true ->
             never_increases
               (fold_left (fun sorted p => insert_by_score p sorted) l acc)
             = true).
  { induction l as [ | a l IH]; intros acc Hacc; [ exact Hacc | ].
    cbn [fold_left]. apply IH. now apply insert_never_increases. }
  now apply H.
Qed.

Lemma firstn_never_increases (n : nat) (l : list suggestion) :
  never_increases l = true -> never_increases (firstn n l) = true.
Proof.
  revert l. induction n as [ | n IH]; intros l Hl; [ reflexivity | ].
  destruct l as [ | a [ | b l]]; [ reflexivity | destruct n; reflexivity | ].
  cbn [never_increases] in Hl. apply andb_prop in Hl as [Hab Hl].
  specialize (IH (b :: l) Hl).
  destruct n as [ | n]; [ reflexivity | ].
  change (firstn (S (S n)) (a :: b :: l)) with (a :: firstn (S n) (b :: l)).
  change (firstn (S n) (b :: l)) with (b :: firstn n l) in *.
  change (never_increases (a :: b :: firstn n l))
    with (negb (num_lt (sg_score a) (sg_score b))
          && never_increases (b :: firstn n l)).
  rewrite Hab. exact IH.
Qed.

(** The suggestions come best first: along the returned list no position
    has a score below the score of the position after it (the
    comparison is Python's [<] on the scores, the one the sort uses). *)
Theorem suggestions_best_first (positions : list suggestion) :
  _suggest_text_positions np_mean background (tw, th) = Ok positions ->
  never_increases positions = true.
Proof.
  unfold _suggest_text_positions.
  destruct (px_bands background <=? 1); [ discriminate | ].
  destruct (grid_loop _ _ _ _ _ _) as [kept | e]; [ | discriminate ].
  cbn [rbind]. intros [= <-].
  exact (firstn_never_increases 3 _ (sort_never_increases kept)).
Qed.

End SuggestionTheorems.

Lemma suggested_positions_within_margins_witness :
  2 <= px_bands demo_pixels_rgb
  /\ _suggest_text_positions demo_mean demo_pixels_rgb (120, 40)
     = Ok [ mkSuggestion 90 146
              (NFloat (S754_finite false 6503792086873830 (-45)));
            mkSuggestion 170 80
              (NFloat (S754_finite false 6339598350459280 (-45)));
            mkSuggestion 10 13
              (NFloat (S754_finite false 5348024557502464 (-45))) ]
  /\ within_margins demo_pixels_rgb 120 40
       (mkSuggestion 170 80
          (NFloat (S754_finite false 6339598350459280 (-45)))).
Proof.
  assert (Hb : 2 <= px_bands demo_pixels_rgb) by (cbn; lia).
  destruct (suggested_positions_within_margins demo_mean demo_pixels_rgb
              120 40 Hb ltac:(cbn; lia) ltac:(cbn; lia)
              ltac:(cbn; lia) ltac:(cbn; lia))
    as (positions & Hrun & _ & _ & Hin).
  assert (Hv : _suggest_text_positions demo_mean demo_pixels_rgb (120, 40)
               = Ok [ mkSuggestion 90 146
                        (NFloat (S754_finite false 6503792086873830 (-45)));
                      mkSuggestion 170 80
                        (NFloat (S754_finite false 6339598350459280 (-45)));
                      mkSuggestion 10 13
                        (NFloat (S754_finite false 5348024557502464 (-45))) ])
    by (vm_compute; reflexivity).
  refine (conj Hb (conj Hv _)).
  apply Hin. rewrite Hv in Hrun. injection Hrun as <-. cbn. tauto.
Defined.

Lemma suggestions_best_first_witness :
  _suggest_text_positions demo_mean demo_pixels (120, 40)
  = Ok [ mkSuggestion 170 146
           (NFloat (S754_finite false 8356288371097600 (-45)));
         mkSuggestion 170 80
           (NFloat (S754_finite false 7195204092166144 (-45)));
         mkSuggestion 170 13
           (NFloat (S754_finite false 6016527627190272 (-45))) ]
  /\ never_increases
       [ mkSuggestion 170 146
           (NFloat (S754_finite false 8356288371097600 (-45)));
         mkSuggestion 170 80
           (NFloat (S754_finite false 7195204092166144 (-45)));
         mkSuggestion 170 13
           (NFloat (S754_finite false 6016527627190272 (-45))) ] = true.
Proof.
  assert (Hv : _suggest_text_positions demo_mean demo_pixels (120, 40)
               = Ok [ mkSuggestion 170 146
                        (NFloat (S754_finite false 8356288371097600 (-45)));
                      mkSuggestion 170 80
                        (NFloat (S754_finite false 7195204092166144 (-45)));
                      mkSuggestion 170 13
                        (NFloat (S754_finite false 6016527627190272 (-45))) ])
    by (vm_compute; reflexivity).
  refine (conj Hv _).
  exact (suggestions_best_first demo_mean demo_pixels 120 40 _ Hv).
Defined.

Section WideText.

(** Three copies of each element. *)
Lemma insert_thrice (p : suggestion) (ps : list suggestion) :
  insert_by_score p
    (insert_by_score p (insert_by_score p (flat_map (fun q => [q; q; q]) ps)))
  = flat_map (fun q => [q; q; q]) (insert_by_score p ps).
Proof.
  assert (Hpp : num_lt (sg_score p) (sg_score p) = false)
    by apply SFltb_irrefl.
  induction ps as [ | q ps IH].
  - cbn [flat_map].
    repeat (cbn [insert_by_score]; rewrite ?Hpp). reflexivity.
  - cbn [flat_map app].
    destruct (num_lt (sg_score q) (sg_score p)) eqn:Hqp.
    + repeat (cbn [insert_by_score]; rewrite ?Hpp, ?Hqp). reflexivity.
    + repeat (cbn [insert_by_score]; rewrite ?Hqp).
      cbn [flat_map app]. do 3 f_equal. exact IH.
Qed.

Lemma sort_triples (ps : list suggestion) :
  sort_by_score (flat_map (fun q => [q; q; q]) ps)
  = flat_map (fun q => [q; q; q]) (sort_by_score ps).
Proof.
  unfold sort_by_score.
  assert (H : forall acc,
             fold_left (fun sorted p => insert_by_score p sorted)
                       (flat_map (fun q => [q; q; q]) ps)
                       (flat_map (fun q => [q; q; q]) acc)
             = flat_map (fun q => [q; q; q])
                 (fold_left (fun sorted p => insert_by_score p sorted) ps acc)).
  { induction ps as [ | p ps IH]; intros acc; [ reflexivity | ].
    cbn [flat_map app fold_left]. rewrite insert_thrice. apply IH. }
  exact (H []).
Qed.

Lemma firstn_triples (ps : list suggestion) :
  firstn 3 (flat_map (fun q => [q; q; q]) ps)
  = match ps with
    | [] => []
    | p :: _ => [p; p; p]
    end.
Proof. destruct ps; reflexivity. Qed.

Variable np_mean : list Z -> float.
Variable background : pixels.
Variables (tw th : Z).

Hypothesis width_bound : 0 <= px_width background < 2 ^ 900.
Hypothesis height_bound : 0 <= px_height background < 2 ^ 900.
Hypothesis text_width_bound : Z.abs tw < 2 ^ 900.
Hypothesis text_height_bound : Z.abs th < 2 ^ 900.
Hypothesis too_wide : px_width background - 20 < tw.

Lemma wide_row (has_alpha : bool) (y_idx : Z) :
  In y_idx [0; 1; 2] ->
  exists c,
    (forall x_idx, In x_idx [0; 1; 2] ->
       grid_candidate np_mean background (tw, th) has_alpha y_idx x_idx = Ok c)
    /\ forall p, c = Some p -> sg_x p = 10.
Proof.
  intros Hy.
  destruct (grid_coordinate_ok (px_height background) th y_idx
              ltac:(lia) text_height_bound Hy) as [y0 Hy0].
  assert (Hclamp : forall x0,
             Z.max 10 (Z.min (px_width background - tw - 10) x0) = 10)
    by (intros; lia).
  set (body := fun x_pos : Z =>
    let y_pos := Z.max 10 (Z.min (px_height background - th - 10) y0) in
    let ys := slice_range y_pos (Z.min (y_pos + th) (px_height background))
                          (px_height background) in
    let xs := slice_range x_pos (Z.min (x_pos + tw) (px_width background))
                          (px_width background) in
    let size := Z.of_nat (List.length ys) * Z.of_nat (List.length xs)
                * px_bands background in
    if has_alpha then
      let avg_alpha :=
        if 0 <? size
        then NFloat (np_mean (region_values background ys xs [3]))
        else NInt 0 in
      if num_lt avg_alpha (NInt 128)
      then Ok (Some (mkSuggestion x_pos y_pos (score_of avg_alpha)))
      else Ok None
    else
      let avg_brightness :=
        if 0 <? size
        then NFloat (np_mean (region_values background ys xs
                                (range 0 (px_bands background))))
        else NInt 0 in
      Ok (Some (mkSuggestion x_pos y_pos (score_of avg_brightness)))).
  assert (Hbody : exists c, body 10 = Ok c /\ forall p, c = Some p -> sg_x p = 10).
  { unfold body. cbv zeta. destruct has_alpha.
    - match goal with
      | |- context [if num_lt ?a ?b then _ else _] => destruct (num_lt a b)
      end.
      + eexists. split; [ reflexivity | ]. intros p [= <-]. reflexivity.
      + exists None. split; [ reflexivity | ]. intros p H. discriminate H.
    - eexists. split; [ reflexivity | ]. intros p [= <-]. reflexivity. }
  destruct Hbody as (c & Hc & Hx). exists c. split; [ | exact Hx ].
  intros x_idx Hxi.
  destruct (grid_coordinate_ok (px_width background) tw x_idx
              ltac:(lia) text_width_bound Hxi) as [x0 Hx0].
  unfold grid_candidate. cbn [fst snd]. rewrite Hx0, Hy0. cbn [rbind].
  rewrite Hclamp. exact Hc.
Qed.

(** A text too wide for the margins gets one suggestion three times.
    When the text is wider than the image less 20 pixels, every cell of
    a grid row is clamped to [x = 10] and scores alike, and the stable
    sort keeps the three copies of the best row together: the result is
    empty or three times the same position. *)
Theorem wide_text_suggestions_coincide :
  2 <= px_bands background ->
  exists positions,
    _suggest_text_positions np_mean background (tw, th) = Ok positions
    /\ (positions = []
        \/ exists p, positions = [p; p; p] /\ sg_x p = 10)
    /\ (px_bands background <> 4 -> positions <> []).
Proof.
  intros Hb. unfold _suggest_text_positions.
  replace (px_bands background <=? 1) with false
    by (symmetry; apply Z.leb_gt; lia).
  set (has_alpha := px_bands background =? 4).
  destruct (wide_row has_alpha 0 ltac:(cbn; tauto)) as (c0 & H0 & X0).
  destruct (wide_row has_alpha 1 ltac:(cbn; tauto)) as (c1 & H1 & X1).
  destruct (wide_row has_alpha 2 ltac:(cbn; tauto)) as (c2 & H2 & X2).
  change (list_prod (range 0 3) (range 0 3))
    with [(0, 0); (0, 1); (0, 2); (1, 0); (1, 1); (1, 2);
          (2, 0); (2, 1); (2, 2)].
  cbn [grid_loop].
  rewrite !H0, !H1, !H2 by (cbn; tauto). cbn [rbind].
  set (reps := (match c0 with Some p => [p] | None => [] end)
               ++ (match c1 with Some p => [p] | None => [] end)
               ++ (match c2 with Some p => [p] | None => [] end)).
  match goal with
  | |- exists positions, Ok (firstn 3 (sort_by_score ?l)) = Ok positions /\ _ =>
      assert (Hl : l = flat_map (fun q => [q; q; q]) reps)
        by (unfold reps; destruct c0, c1, c2; reflexivity);
      rewrite Hl
  end.
  rewrite sort_triples, firstn_triples.
  eexists. split; [ reflexivity | ].
  destruct (sort_by_score_spec reps) as [Hlen Hin].
  split.
  - destruct (sort_by_score reps) as [ | p rest]; [ now left | right ].
    exists p. split; [ reflexivity | ].
    assert (Hp : In p reps) by (apply Hin; now left).
    unfold reps in Hp.
    destruct c0 as [p0 | ], c1 as [p1 | ], c2 as [p2 | ]; cbn in Hp;
      intuition (subst; eauto).
  - intros Hne.
    assert (Hc0 : c0 <> None).
    { destruct (grid_candidate_ok np_mean background tw th width_bound
                  height_bound text_width_bound text_height_bound
                  has_alpha 0 0 ltac:(cbn; tauto) ltac:(cbn; tauto))
        as (c & Hc & Hsome & _).
      rewrite (H0 0 ltac:(cbn; tauto)) in Hc. injection Hc as <-.
      apply Hsome. unfold has_alpha. apply Z.eqb_neq. exact Hne. }
    destruct (sort_by_score reps) as [ | p rest] eqn:Hs; [ | discriminate ].
    cbn [List.length] in Hlen. unfold reps in Hlen.
    destruct c0; [ cbn in Hlen; lia | congruence ].
Qed.

End WideText.

Lemma wide_text_suggestions_coincide_witness :
  0 <= px_width demo_pixels_rgb < 2 ^ 900
  /\ 0 <= px_height demo_pixels_rgb < 2 ^ 900
  /\ px_width demo_pixels_rgb - 20 < 290
  /\ 2 <= px_bands demo_pixels_rgb
  /\ _suggest_text_positions demo_mean demo_pixels_rgb (290, 40)
     = Ok [ mkSuggestion 10 13
              (NFloat (S754_finite false 4764449282511836 (-45)));
            mkSuggestion 10 13
              (NFloat (S754_finite false 4764449282511836 (-45)));
            mkSuggestion 10 13
              (NFloat (S754_finite false 4764449282511836 (-45))) ].
Proof.
  assert (Hw : 0 <= px_width demo_pixels_rgb < 2 ^ 900) by (cbn; lia).
  assert (Hh : 0 <= px_height demo_pixels_rgb < 2 ^ 900) by (cbn; lia).
  assert (Hwide : px_width demo_pixels_rgb - 20 < 290) by (cbn; lia).
  assert (Hb : 2 <= px_bands demo_pixels_rgb) by (cbn; lia).
  refine (conj Hw (conj Hh (conj Hwide (conj Hb _)))).
  destruct (wide_text_suggestions_coincide demo_mean demo_pixels_rgb 290 40
              Hw Hh ltac:(cbn; lia) ltac:(cbn; lia) Hwide Hb)
    as (positions & Hrun & _ & _).
  rewrite Hrun. f_equal.
  assert (Hv : _suggest_text_positions demo_mean demo_pixels_rgb (290, 40)
               = Ok [ mkSuggestion 10 13
                        (NFloat (S754_finite false 4764449282511836 (-45)));
                      mkSuggestion 10 13
                        (NFloat (S754_finite false 4764449282511836 (-45)));
                      mkSuggestion 10 13
                        (NFloat (S754_finite false 4764449282511836 (-45))) ])
    by (vm_compute; reflexivity).
  rewrite Hv in Hrun. injection Hrun as <-. reflexivity.
Defined.

(** * Templates and compositions *)

(** ** Rounding: where the rounded value lies *)

Section Rounding.

Lemma loc_of_record_of_loc (m : Z) (l : location) :
  loc_of_shr_record (shr_record_of_loc m l) = l
  /\ shr_m (shr_record_of_loc m l) = m.
Proof. destruct l as [ | [ | | ]]; split; reflexivity. Qed.

(** Shifting right by [k] bits: the mantissa is the quotient, and a
    multiple of [2^k] that was exact stays exact. *)
Lemma shr_iter_spec (k : nat) (m : Z) (l : location) :
  0 < m ->
  let mrs := Nat.iter k shr_1 (shr_record_of_loc m l) in
  shr_m mrs = m / 2 ^ Z.of_nat k
  /\ (l = loc_Exact -> m mod 2 ^ Z.of_nat k = 0 ->
      loc_of_shr_record mrs = loc_Exact).
Proof.
  intros Hm mrs. destruct (loc_of_record_of_loc m l) as [_ Hrec].
  split.
  - unfold mrs. rewrite shr_iter_m by (rewrite Hrec; lia).
    rewrite Hrec. reflexivity.
  - intros -> Hmod.
    assert (Hpow : 0 < 2 ^ Z.of_nat k) by (apply Z.pow_pos_nonneg; lia).
    assert (Hq : m = (m / 2 ^ Z.of_nat k) * 2 ^ Z.of_nat k).
    { rewrite (Z.div_mod m (2 ^ Z.of_nat k)) at 1 by lia. lia. }
    assert (Hqpos : 0 < m / 2 ^ Z.of_nat k).
    { destruct (Z.eq_dec (m / 2 ^ Z.of_nat k) 0) as [H0 | H0].
      - rewrite H0 in Hq. lia.
      - pose proof (Z.div_pos m (2 ^ Z.of_nat k) ltac:(lia) Hpow). lia. }
    destruct m as [ | X | X ]; try lia.
    destruct (Zpos X / 2 ^ Z.of_nat k) as [ | M | M ] eqn:HM; try lia.
    unfold mrs. cbn [shr_record_of_loc].
    rewrite (shr_exact k M X) by (rewrite Hq at 1; reflexivity).
    reflexivity.
Qed.

(** The two halves of [binary_round_aux], for a mantissa of at least 53
    digits in the normal range: the mantissa is cut to 53 digits, and
    the result is the cut value or the next one up; it is the cut value
    when nothing was cut off. *)
Lemma round_aux_spec (m e : Z) (l : location) :
  0 < m ->
  53 <= Zdigits2 m ->
  -1021 <= Zdigits2 m + e <= 1023 ->
  let t := Zdigits2 m - 53 in
  exists (mo : positive) (eo u : Z),
    binary_round_aux prec emax false m e l = S754_finite false mo eo
    /\ 0 <= u <= 1
    /\ e + t <= eo <= e + t + 1
    /\ Zpos mo * 2 ^ (eo - (e + t)) = m / 2 ^ t + u
    /\ (l = loc_Exact -> m mod 2 ^ t = 0 -> u = 0)
    /\ Zpos (digits2_pos mo) = 53
    /\ 2 ^ 52 <= m / 2 ^ t < 2 ^ 53.
Proof.
  intros Hm Hd Hrange t.
  assert (Ht : 0 <= t) by (unfold t; lia).
  assert (Hpow : 0 < 2 ^ t) by (apply Z.pow_pos_nonneg; lia).
  set (m1 := m / 2 ^ t).
  assert (Hm1pos : 0 < m1).
  { assert (Hle : 2 ^ t <= m).
    { pose proof (Zdigits2_pos_log2 m Hm) as Hl.
      assert (t <= Z.log2 m) by (unfold t; lia).
      pose proof (Z.log2_spec m Hm) as [Hlo _].
      assert (2 ^ t <= 2 ^ Z.log2 m) by (apply Z.pow_le_mono_r; lia). lia. }
    unfold m1. apply Z.div_str_pos. lia. }
  assert (Hm1d : Zdigits2 m1 = 53).
  { unfold m1. rewrite Zdigits2_div_pow2 by (fold m1; lia). unfold t. lia. }
  assert (Hm1 : 2 ^ 52 <= m1 < 2 ^ 53).
  { rewrite Zdigits2_pos_log2 in Hm1d by lia.
    pose proof (Z.log2_spec m1 Hm1pos) as Hs.
    replace (Z.log2 m1) with 52 in Hs by lia.
    change (Z.succ 52) with 53 in Hs. exact Hs. }
  (* the first shift *)
  assert (Hshift : exists mrs,
             shr_fexp prec emax m e l = (mrs, e + t)
             /\ shr_m mrs = m1
             /\ (l = loc_Exact -> m mod 2 ^ t = 0 ->
                 loc_of_shr_record mrs = loc_Exact)).
  { unfold shr_fexp.
    assert (Hf : fexp prec emax (Zdigits2 m + e) - e = t).
    { unfold fexp, emin, prec, emax, t. lia. }
    rewrite Hf. unfold shr.
    destruct t as [ | p | p ] eqn:Etp; [ | | lia ].
    - exists (shr_record_of_loc m l).
      destruct (loc_of_record_of_loc m l) as [Hloc Hrec].
      rewrite Z.add_0_r. split; [ reflexivity | ].
      split; [ rewrite Hrec; unfold m1; now rewrite Z.pow_0_r, Z.div_1_r | ].
      intros -> _. exact Hloc.
    - rewrite iter_pos_nat.
      destruct (shr_iter_spec (Pos.to_nat p) m l Hm) as [Hv Hl].
      rewrite positive_nat_Z in Hv, Hl.
      eexists. split; [ reflexivity | ]. split; [ exact Hv | exact Hl ]. }
  destruct Hshift as (mrs & Hshr & Hval & Hloc).
  unfold binary_round_aux. rewrite Hshr, Hval.
  set (m2 := round_nearest_even m1 (loc_of_shr_record mrs)).
  pose proof (round_nearest_even_bounds m1 (loc_of_shr_record mrs)) as Hr.
  fold m2 in Hr.
  assert (Hexact : l = loc_Exact -> m mod 2 ^ t = 0 -> m2 = m1).
  { intros H1 H2. unfold m2. rewrite (Hloc H1 H2). reflexivity. }
  (* the second shift: one more bit when the mantissa reached 2^53 *)
  destruct (Z.eq_dec m2 (2 ^ 53)) as [Htop | Hlow].
  - assert (Hf2 : shr_fexp prec emax m2 (e + t) loc_Exact
                  = (Build_shr_record (2 ^ 52) false false, e + t + 1)).
    { unfold shr_fexp. rewrite Htop.
      change (Zdigits2 (2 ^ 53)) with 54.
      assert (Hf : fexp prec emax (54 + (e + t)) - (e + t) = 1).
      { unfold fexp, emin, prec, emax, t. lia. }
      rewrite Hf. reflexivity. }
    rewrite Hf2. cbn [shr_m].
    change (2 ^ 52) with (Zpos 4503599627370496).
    replace (e + t + 1 <=? emax - prec) with true
      by (symmetry; apply Z.leb_le; unfold emax, prec, t; lia).
    exists 4503599627370496%positive, (e + t + 1), 1.
    split; [ reflexivity | ]. split; [ lia | ]. split; [ lia | ].
    split.
    { replace (e + t + 1 - (e + t)) with 1 by lia.
      change (Zpos 4503599627370496 * 2 ^ 1) with (2 ^ 53). lia. }
    split.
    { intros H1 H2. specialize (Hexact H1 H2). lia. }
    split; [ reflexivity | exact Hm1 ].
  - assert (Hm2 : 2 ^ 52 <= m2 < 2 ^ 53) by lia.
    assert (Hm2d : Zdigits2 m2 = 53).
    { rewrite Zdigits2_pos_log2 by lia.
      assert (Z.log2 m2 = 52); [ | lia ].
      apply Z.log2_unique; [ lia | ]. change (2 ^ Z.succ 52) with (2 ^ 53).
      lia. }
    assert (Hf2 : shr_fexp prec emax m2 (e + t) loc_Exact
                  = (shr_record_of_loc m2 loc_Exact, e + t)).
    { unfold shr_fexp. rewrite Hm2d.
      assert (Hf : fexp prec emax (53 + (e + t)) - (e + t) = 0).
      { unfold fexp, emin, prec, emax, t. lia. }
      rewrite Hf. reflexivity. }
    rewrite Hf2. cbn [shr_record_of_loc shr_m].
    destruct m2 as [ | p2 | p2 ] eqn:Ep2; try lia.
    replace (e + t <=? emax - prec) with true
      by (symmetry; apply Z.leb_le; unfold emax, prec, t; lia).
    exists p2, (e + t), (Zpos p2 - m1).
    split; [ reflexivity | ]. split; [ lia | ]. split; [ lia | ].
    split.
    { replace (e + t - (e + t)) with 0 by lia. rewrite Z.pow_0_r. lia. }
    split.
    { intros H1 H2. specialize (Hexact H1 H2). lia. }
    split; [ | exact Hm1 ].
    change (Zpos (digits2_pos p2)) with (Zdigits2 (Zpos p2)). exact Hm2d.
Qed.

End Rounding.

Section Quotients.

Lemma Zdigits2_bounds (m : Z) :
  0 < m -> 2 ^ (Zdigits2 m - 1) <= m < 2 ^ Zdigits2 m.
Proof.
  intros Hm. rewrite Zdigits2_pos_log2 by lia.
  replace (Z.log2 m + 1 - 1) with (Z.log2 m) by lia.
  exact (Z.log2_spec m Hm).
Qed.

Lemma Zdigits2_shift (m k : Z) :
  0 < m -> 0 <= k -> Zdigits2 (m * 2 ^ k) = Zdigits2 m + k.
Proof.
  intros Hm Hk.
  assert (0 < 2 ^ k) by (apply Z.pow_pos_nonneg; lia).
  rewrite !Zdigits2_pos_log2 by nia.
  rewrite Z.log2_mul_pow2 by lia. lia.
Qed.

(** The quotient of a number of [53 + d] digits by one of [d] digits has
    53 or 54 digits. *)
Lemma quotient_digits (a b : Z) :
  0 < a -> 0 < b -> Zdigits2 a = 53 + Zdigits2 b ->
  2 ^ 52 <= a / b < 2 ^ 54.
Proof.
  intros Ha Hb Hd.
  pose proof (Zdigits2_bounds a Ha) as [Hla Hua].
  pose proof (Zdigits2_bounds b Hb) as [Hlb Hub].
  assert (Hdb : 1 <= Zdigits2 b).
  { rewrite Zdigits2_pos_log2 by lia. pose proof (Z.log2_nonneg b). lia. }
  rewrite Hd in Hla, Hua.
  replace (53 + Zdigits2 b - 1) with (52 + Zdigits2 b) in Hla by lia.
  rewrite Z.pow_add_r in Hla, Hua by lia.
  replace (Zdigits2 b) with (1 + (Zdigits2 b - 1)) in Hua at 1 by lia.
  rewrite Z.pow_add_r in Hua by lia.
  assert (0 < 2 ^ (Zdigits2 b - 1)) by (apply Z.pow_pos_nonneg; lia).
  split.
  - apply Z.div_le_lower_bound; [ lia | ]. nia.
  - apply Z.div_lt_upper_bound; [ lia | ].
    change (2 ^ 54) with (2 ^ 53 * 2 ^ 1). nia.
Qed.

(** The quotient of two positive doubles, in the normal range: the
    mantissa [Q] cut to 53 digits from the exact quotient, and the
    result [Q] or [Q + 1] units [2^g]; [Q + 1] only when the exact
    quotient is above [Q] units. *)
Lemma fdiv_spec (p1 p2 : positive) (e1 e2 : Z) :
  let d1 := Zpos (digits2_pos p1) in
  let d2 := Zpos (digits2_pos p2) in
  let s := 53 - d1 + d2 in
  d1 - d2 <= 53 ->
  -1020 <= d1 + e1 - (d2 + e2) <= 1022 ->
  exists (mo : positive) (eo u Q t : Z),
    fdiv (S754_finite false p1 e1) (S754_finite false p2 e2)
    = S754_finite false mo eo
    /\ 0 <= u <= 1 /\ 0 <= t <= 1
    /\ e1 - e2 - s + t <= eo <= e1 - e2 - s + t + 1
    /\ Zpos mo * 2 ^ (eo - (e1 - e2 - s + t)) = Q + u
    /\ 2 ^ 52 <= Q < 2 ^ 53
    /\ Zpos (digits2_pos mo) = 53
    /\ Q * 2 ^ t * Zpos p2 <= Zpos p1 * 2 ^ s < (Q + 1) * 2 ^ t * Zpos p2
    /\ (u = 1 -> Q * 2 ^ t * Zpos p2 < Zpos p1 * 2 ^ s).
Proof.
  intros d1 d2 s Hds Hz.
  unfold fdiv. cbn [SFdiv xorb]. unfold SFdiv_core_binary.
  change (Zdigits2 (Zpos p1)) with d1. change (Zdigits2 (Zpos p2)) with d2.
  assert (Hd1 : 1 <= d1) by (unfold d1; lia).
  assert (Hd2 : 1 <= d2) by (unfold d2; lia).
  set (e' := Z.min (fexp prec emax (d1 + e1 - (d2 + e2))) (e1 - e2)).
  assert (He' : e' = e1 - e2 - s).
  { unfold e', fexp, emin, prec, emax, s. lia. }
  assert (Hs : 0 <= s) by (unfold s; lia).
  replace (e1 - e2 - e') with s by lia.
  set (m' := match s with
             | 0 => Zpos p1
             | Zpos _ => Z.shiftl (Zpos p1) s
             | Zneg _ => 0
             end).
  assert (Hm' : m' = Zpos p1 * 2 ^ s).
  { unfold m'. destruct s as [ | q | q ] eqn:Hq; try lia.
    rewrite Z.shiftl_mul_pow2 by lia. reflexivity. }
  assert (Hpos : 0 < 2 ^ s) by (apply Z.pow_pos_nonneg; lia).
  assert (Hdm : Zdigits2 m' = 53 + Zdigits2 (Zpos p2)).
  { rewrite Hm', Zdigits2_shift by lia.
    change (Zdigits2 (Zpos p1)) with d1. change (Zdigits2 (Zpos p2)) with d2.
    unfold s. lia. }
  pose proof (Z_div_mod m' (Zpos p2) ltac:(lia)) as Hdiv.
  pose proof (quotient_digits m' (Zpos p2) ltac:(lia) ltac:(lia) Hdm) as Hq.
  unfold Z.div in Hq.
  destruct (Z.div_eucl m' (Zpos p2)) as [q r]. cbn [fst] in Hq.
  destruct Hdiv as [Hqr Hr].
  set (t := Zdigits2 q - 53).
  assert (Ht : 0 <= t <= 1).
  { assert (Hq53 : 53 <= Zdigits2 q).
    { destruct (Z_lt_le_dec (Zdigits2 q) 53) as [Hlt | ]; [ | lia ].
      pose proof (Zdigits2_bounds q ltac:(lia)) as [_ Hu].
      assert (2 ^ Zdigits2 q <= 2 ^ 52) by (apply Z.pow_le_mono_r; lia).
      lia. }
    assert (Hq54 : Zdigits2 q <= 54)
      by (apply Zdigits2_lt_pow2; lia).
    unfold t. lia. }
  destruct (round_aux_spec q e' (new_location (Zpos p2) r))
    as (mo & eo & u & Hres & Hu & Heo & Hval & Hex & Hmo & HQ);
    [ lia | unfold t in Ht; lia | fold t in Ht; unfold t in Ht; lia | ].
  fold t in Heo, Hval, Hex, HQ.
  exists mo, eo, u, (q / 2 ^ t), t.
  assert (Hpt : 0 < 2 ^ t) by (apply Z.pow_pos_nonneg; lia).
  pose proof (Z_div_mod q (2 ^ t) ltac:(lia)) as Hdq.
  pose proof (Z.div_mod q (2 ^ t) ltac:(lia)) as Hdq2.
  pose proof (Z.mod_pos_bound q (2 ^ t) Hpt) as Hmod.
  split; [ exact Hres | ]. split; [ exact Hu | ]. split; [ exact Ht | ].
  split; [ lia | ].
  split; [ replace (e1 - e2 - s + t) with (e' + t) by lia; exact Hval | ].
  split; [ exact HQ | ]. split; [ exact Hmo | ].
  rewrite <- Hm'. split.
  - split; nia.
  - intros Hu1.
    destruct (Z.eq_dec r 0) as [Hr0 | Hr0].
    + destruct (Z.eq_dec (q mod 2 ^ t) 0) as [Hm0 | Hm0].
      * assert (u = 0); [ | lia ].
        apply Hex; [ | exact Hm0 ]. subst r.
        unfold new_location, new_location_even, new_location_odd.
        destruct (Z.even (Zpos p2)); reflexivity.
      * nia.
    + nia.
Qed.

(** The product of two positive doubles with 53-digit mantissas, in the
    normal range: as for the quotient. *)
Lemma fmul_spec (p1 p2 : positive) (e1 e2 : Z) :
  Zpos (digits2_pos p1) = 53 -> Zpos (digits2_pos p2) = 53 ->
  -1126 <= e1 + e2 <= 917 ->
  exists (mo : positive) (eo u Q t : Z),
    fmul (S754_finite false p1 e1) (S754_finite false p2 e2)
    = S754_finite false mo eo
    /\ 0 <= u <= 1 /\ 52 <= t <= 53
    /\ e1 + e2 + t <= eo <= e1 + e2 + t + 1
    /\ Zpos mo * 2 ^ (eo - (e1 + e2 + t)) = Q + u
    /\ 2 ^ 52 <= Q < 2 ^ 53
    /\ Zpos (digits2_pos mo) = 53
    /\ Q * 2 ^ t <= Zpos p1 * Zpos p2 < (Q + 1) * 2 ^ t
    /\ (u = 1 -> Q * 2 ^ t < Zpos p1 * Zpos p2).
Proof.
  intros Hd1 Hd2 He.
  unfold fmul. cbn [SFmul xorb].
  pose proof (Zdigits2_bounds (Zpos p1) ltac:(lia)) as H1.
  pose proof (Zdigits2_bounds (Zpos p2) ltac:(lia)) as H2.
  change (Zdigits2 (Zpos p1)) with (Zpos (digits2_pos p1)) in H1.
  change (Zdigits2 (Zpos p2)) with (Zpos (digits2_pos p2)) in H2.
  rewrite Hd1 in H1. rewrite Hd2 in H2.
  change (53 - 1) with 52 in H1, H2.
  set (m := Zpos (p1 * p2)).
  assert (Hm : m = Zpos p1 * Zpos p2) by reflexivity.
  assert (Hmb : 2 ^ 104 <= m < 2 ^ 106).
  { change (2 ^ 104) with (2 ^ 52 * 2 ^ 52).
    change (2 ^ 106) with (2 ^ 53 * 2 ^ 53). nia. }
  set (t := Zdigits2 m - 53).
  assert (Ht : 52 <= t <= 53).
  { assert (105 <= Zdigits2 m).
    { destruct (Z_lt_le_dec (Zdigits2 m) 105) as [Hlt | ]; [ | lia ].
      pose proof (Zdigits2_bounds m ltac:(lia)) as [_ Hu].
      assert (2 ^ Zdigits2 m <= 2 ^ 104) by (apply Z.pow_le_mono_r; lia).
      lia. }
    assert (Zdigits2 m <= 106) by (apply Zdigits2_lt_pow2; lia).
    unfold t. lia. }
  destruct (round_aux_spec m (e1 + e2) loc_Exact)
    as (mo & eo & u & Hres & Hu & Heo & Hval & Hex & Hmo & HQ);
    [ lia | unfold t in Ht; lia | unfold t in Ht; lia | ].
  fold t in Heo, Hval, Hex, HQ.
  exists mo, eo, u, (m / 2 ^ t), t.
  assert (Hpt : 0 < 2 ^ t) by (apply Z.pow_pos_nonneg; lia).
  pose proof (Z.div_mod m (2 ^ t) ltac:(lia)) as Hdq2.
  pose proof (Z.mod_pos_bound m (2 ^ t) Hpt) as Hmod.
  split; [ exact Hres | ]. split; [ exact Hu | ]. split; [ exact Ht | ].
  split; [ exact Heo | ]. split; [ exact Hval | ].
  split; [ exact HQ | ]. split; [ exact Hmo | ].
  rewrite <- Hm. split.
  - split; nia.
  - intros Hu1.
    destruct (Z.eq_dec (m mod 2 ^ t) 0) as [Hm0 | Hm0]; [ | nia ].
    assert (u = 0); [ | lia ]. apply Hex; [ reflexivity | exact Hm0 ].
Qed.

End Quotients.

(** ** Values on a common scale

    The value of a positive double [m * 2^e] is compared with integers
    after multiplication by [2^K], for a [K] that makes every exponent
    at hand non-negative. *)

Section Scaled.

Variable K : Z.

Lemma pow2_pos (k : Z) : 0 <= k -> 0 < 2 ^ k.
Proof. intros; apply Z.pow_pos_nonneg; lia. Qed.

Lemma pow2_split (a b : Z) : 0 <= a -> 0 <= b -> 2 ^ (a + b) = 2 ^ a * 2 ^ b.
Proof. intros; apply Z.pow_add_r; lia. Qed.

Lemma mul3_le (a q d y : Z) :
  0 < y -> 1 <= d -> 0 <= a <= q -> a * y <= q * (d * y).
Proof.
  intros Hy Hd Ha.
  assert (a <= q * d) by nia.
  assert (a * y <= q * d * y) by (apply Z.mul_le_mono_nonneg_r; lia).
  lia.
Qed.

(** A value on the grid of step [2^g] with a 53-digit mantissa that is
    below a bound with a mantissa under [2^53] stays at or below the
    bound after one step. *)
Lemma grid_step (Q g b beta : Z) :
  2 ^ 52 <= Q -> 0 < b < 2 ^ 53 ->
  0 <= g + K -> 0 <= beta + K ->
  Q * 2 ^ (g + K) < b * 2 ^ (beta + K) ->
  (Q + 1) * 2 ^ (g + K) <= b * 2 ^ (beta + K).
Proof.
  intros HQ Hb Hg Hbeta Hlt.
  pose proof (pow2_pos (g + K) Hg) as Pg.
  pose proof (pow2_pos (beta + K) Hbeta) as Pb.
  destruct (Z_le_gt_dec g beta) as [Hle | Hgt].
  - assert (Heq : 2 ^ (beta + K) = 2 ^ (beta - g) * 2 ^ (g + K)).
    { rewrite <- pow2_split by lia. f_equal. lia. }
    rewrite Heq in Hlt |- *.
    pose proof (pow2_pos (beta - g) ltac:(lia)) as Pd.
    assert (Q < b * 2 ^ (beta - g)) by nia.
    nia.
  - exfalso.
    replace (g + K) with ((g - beta - 1) + (1 + (beta + K))) in Hlt by lia.
    rewrite (pow2_split (g - beta - 1)) in Hlt by lia.
    rewrite (pow2_split 1) in Hlt by lia.
    pose proof (pow2_pos (g - beta - 1) ltac:(lia)) as Pd.
    change (2 ^ 1) with 2 in Hlt. change (2 ^ 53) with (2 * 2 ^ 52) in Hb.
    assert (b * 2 ^ (beta + K) < 2 * 2 ^ 52 * 2 ^ (beta + K)) by nia.
    assert (2 ^ 52 * (2 * 2 ^ (beta + K))
            <= Q * (2 ^ (g - beta - 1) * (2 * 2 ^ (beta + K))))
      by (apply mul3_le; lia).
    lia.
Qed.

Lemma mantissa_bounds (m : positive) :
  Zpos (digits2_pos m) = 53 -> 2 ^ 52 <= Zpos m < 2 ^ 53.
Proof.
  intros Hd. pose proof (Zdigits2_bounds (Zpos m) ltac:(lia)) as H.
  change (Zdigits2 (Zpos m)) with (Zpos (digits2_pos m)) in H.
  rewrite Hd in H. exact H.
Qed.

(** Python's [<] on two positive doubles with 53-digit mantissas is the
    order of their values. *)
Lemma SFltb_scaled (m1 m2 : positive) (e1 e2 : Z) :
  Zpos (digits2_pos m1) = 53 -> Zpos (digits2_pos m2) = 53 ->
  0 <= e1 + K -> 0 <= e2 + K ->
  SFltb (S754_finite false m1 e1) (S754_finite false m2 e2) = true
  <-> Zpos m1 * 2 ^ (e1 + K) < Zpos m2 * 2 ^ (e2 + K).
Proof.
  intros Hd1 Hd2 He1 He2.
  pose proof (mantissa_bounds m1 Hd1) as B1.
  pose proof (mantissa_bounds m2 Hd2) as B2.
  change (2 ^ 53) with (2 * 2 ^ 52) in B1, B2.
  pose proof (pow2_pos (e1 + K) He1) as P1.
  pose proof (pow2_pos (e2 + K) He2) as P2.
  unfold SFltb, SFcompare.
  destruct (Z.compare_spec e1 e2) as [Heq | Hlt | Hgt].
  - subst e2. rewrite Pos.compare_cont_spec. cbn [Pos.switch_Eq].
    destruct (Pos.compare_spec m1 m2) as [Hm | Hm | Hm].
    + subst m2. split; [ discriminate | lia ].
    + split; [ intros _; nia | reflexivity ].
    + split; [ discriminate | intros H; nia ].
  - split; [ intros _ | reflexivity ].
    replace (e2 + K) with ((e2 - e1 - 1) + (1 + (e1 + K))) by lia.
    rewrite (pow2_split (e2 - e1 - 1)), (pow2_split 1) by lia.
    pose proof (pow2_pos (e2 - e1 - 1) ltac:(lia)) as Pd.
    change (2 ^ 1) with 2.
    assert (Zpos m1 * 2 ^ (e1 + K) < 2 ^ 52 * (2 * 2 ^ (e1 + K))) by nia.
    assert (2 ^ 52 * (2 * 2 ^ (e1 + K))
            <= Zpos m2 * (2 ^ (e2 - e1 - 1) * (2 * 2 ^ (e1 + K))))
      by (apply mul3_le; lia).
    lia.
  - split; [ discriminate | intros H; exfalso ].
    replace (e1 + K) with ((e1 - e2 - 1) + (1 + (e2 + K))) in H by lia.
    rewrite (pow2_split (e1 - e2 - 1)), (pow2_split 1) in H by lia.
    pose proof (pow2_pos (e1 - e2 - 1) ltac:(lia)) as Pd.
    change (2 ^ 1) with 2 in H.
    assert (Zpos m2 * 2 ^ (e2 + K) < 2 ^ 52 * (2 * 2 ^ (e2 + K))) by nia.
    assert (2 ^ 52 * (2 * 2 ^ (e2 + K))
            <= Zpos m1 * (2 ^ (e1 - e2 - 1) * (2 * 2 ^ (e2 + K))))
      by (apply mul3_le; lia).
    lia.
Qed.

(** [int(x)] of a positive double whose value is at most [n + 1/2]. *)
Lemma trunc_scaled (m : positive) (e n : Z) :
  0 <= e + K -> 1 <= K -> 0 <= n ->
  2 * (Zpos m * 2 ^ (e + K)) <= (2 * n + 1) * 2 ^ K ->
  0 <= trunc (S754_finite false m e) <= n.
Proof.
  intros He HK Hn Hle.
  pose proof (pow2_pos K ltac:(lia)) as PK.
  unfold trunc. destruct e as [ | p | p ].
  - rewrite Z.shiftl_0_r. cbn [Z.add] in Hle. nia.
  - rewrite Z.shiftl_mul_pow2 by lia.
    rewrite pow2_split in Hle by lia.
    pose proof (pow2_pos (Zpos p) ltac:(lia)) as Pp. nia.
  - rewrite Z.shiftr_div_pow2 by lia.
    pose proof (pow2_pos (Zpos p) ltac:(lia)) as Pp.
    split; [ apply Z.div_pos; lia | ].
    assert (Zpos m < (n + 1) * 2 ^ Zpos p); [ | ].
    { destruct (Z_lt_le_dec (Zpos m) ((n + 1) * 2 ^ Zpos p)) as [ | Hge];
        [ assumption | exfalso ].
      pose proof (pow2_pos (Zneg p + K) He) as Pe.
      assert (HKs : 2 ^ K = 2 ^ Zpos p * 2 ^ (Zneg p + K)).
      { rewrite <- pow2_split by lia. f_equal. lia. }
      rewrite HKs in Hle. nia. }
    assert (Zpos m / 2 ^ Zpos p < n + 1)
      by (apply Z.div_lt_upper_bound; lia).
    lia.
Qed.

(** An [int] below [2^53] as a double. *)
Lemma lit_scaled (z : Z) :
  0 < z < 2 ^ 53 -> 52 <= K ->
  exists (m : positive) (e : Z),
    lit z = S754_finite false m e
    /\ Zpos (digits2_pos m) = 53 /\ -52 <= e <= 0
    /\ Zpos m * 2 ^ (e + K) = z * 2 ^ K.
Proof.
  intros Hz HK. destruct z as [ | p | p ]; try lia.
  destruct (of_int_exact p ltac:(lia)) as (M & e & Hof & Hd & He & Hval).
  exists M, e. split.
  - unfold of_int in Hof. destruct (is_finite (lit (Zpos p)));
      [ now injection Hof | discriminate ].
  - split; [ exact Hd | ]. split; [ exact He | ].
    assert (HKs : 2 ^ K = 2 ^ (- e) * 2 ^ (e + K)).
    { rewrite <- pow2_split by lia. f_equal. lia. }
    rewrite Hval, HKs. ring.
Qed.

(** The quotient of two positive doubles on the scale. *)
Lemma fdiv_scaled (p1 p2 : positive) (e1 e2 : Z) :
  let d1 := Zpos (digits2_pos p1) in
  let d2 := Zpos (digits2_pos p2) in
  let g0 := e1 - e2 - 53 + d1 - d2 in
  d1 - d2 <= 53 ->
  -1020 <= d1 + e1 - (d2 + e2) <= 1022 ->
  0 <= K -> 0 <= e1 + K -> 0 <= e2 + K -> 0 <= g0 + K ->
  exists (mo : positive) (eo u Q g : Z),
    fdiv (S754_finite false p1 e1) (S754_finite false p2 e2)
    = S754_finite false mo eo
    /\ Zpos (digits2_pos mo) = 53
    /\ 0 <= u <= 1 /\ 2 ^ 52 <= Q < 2 ^ 53
    /\ g0 <= g <= g0 + 1 /\ g <= eo <= g + 1
    /\ Zpos mo * 2 ^ (eo + K) = (Q + u) * 2 ^ (g + K)
    /\ Q * 2 ^ (g + K) * (Zpos p2 * 2 ^ (e2 + K))
       <= Zpos p1 * 2 ^ (e1 + K) * 2 ^ K
    /\ Zpos p1 * 2 ^ (e1 + K) * 2 ^ K
       < (Q + 1) * 2 ^ (g + K) * (Zpos p2 * 2 ^ (e2 + K))
    /\ (u = 1 -> Q * 2 ^ (g + K) * (Zpos p2 * 2 ^ (e2 + K))
                 < Zpos p1 * 2 ^ (e1 + K) * 2 ^ K).
Proof.
  intros d1 d2 g0 Hd Hz HK He1 He2 Hg0.
  destruct (fdiv_spec p1 p2 e1 e2 Hd Hz)
    as (mo & eo & u & Q & t & Hres & Hu & Ht & Heo & Hval & HQ & Hmo
        & [Hlo Hhi] & Hstrict).
  fold d1 d2 in Heo, Hval, Hlo, Hhi, Hstrict.
  set (s := 53 - d1 + d2) in *.
  set (g := e1 - e2 - s + t) in *.
  assert (Hs : 0 <= s) by (unfold s; lia).
  exists mo, eo, u, Q, g.
  split; [ exact Hres | ]. split; [ exact Hmo | ]. split; [ exact Hu | ].
  split; [ exact HQ | ]. split; [ unfold g, g0, s; lia | ].
  split; [ exact Heo | ].
  assert (Hgk : 0 <= g + K) by (unfold g, s; unfold g0 in Hg0; lia).
  set (c := e1 - s + 2 * K).
  assert (Hc : 0 <= c) by (unfold c, s; unfold g0 in Hg0; lia).
  pose proof (pow2_pos c Hc) as Pc.
  assert (Hl : 2 ^ (g + K) * 2 ^ (e2 + K) = 2 ^ t * 2 ^ c).
  { rewrite <- !pow2_split by lia. f_equal. unfold g, c. lia. }
  assert (Hr : 2 ^ (e1 + K) * 2 ^ K = 2 ^ s * 2 ^ c).
  { rewrite <- !pow2_split by lia. f_equal. unfold c. lia. }
  assert (Hlhs : forall X, X * 2 ^ (g + K) * (Zpos p2 * 2 ^ (e2 + K))
                           = X * 2 ^ t * Zpos p2 * 2 ^ c).
  { intros X.
    transitivity (X * Zpos p2 * (2 ^ (g + K) * 2 ^ (e2 + K))); [ ring | ].
    rewrite Hl. ring. }
  assert (Hrhs : Zpos p1 * 2 ^ (e1 + K) * 2 ^ K = Zpos p1 * 2 ^ s * 2 ^ c).
  { transitivity (Zpos p1 * (2 ^ (e1 + K) * 2 ^ K)); [ ring | ].
    rewrite Hr. ring. }
  split.
  { replace (eo + K) with ((eo - g) + (g + K)) by lia.
    rewrite pow2_split by lia. rewrite Z.mul_assoc, Hval. reflexivity. }
  rewrite !Hlhs, Hrhs.
  split; [ apply Z.mul_le_mono_nonneg_r; lia | ].
  split; [ apply Z.mul_lt_mono_pos_r; lia | ].
  intros Hu1. apply Z.mul_lt_mono_pos_r; [ lia | exact (Hstrict Hu1) ].
Qed.

(** The product of two positive doubles on the scale. *)
Lemma fmul_scaled (p1 p2 : positive) (e1 e2 : Z) :
  Zpos (digits2_pos p1) = 53 -> Zpos (digits2_pos p2) = 53 ->
  -1126 <= e1 + e2 <= 917 ->
  0 <= K -> 0 <= e1 + K -> 0 <= e2 + K -> 0 <= e1 + e2 + 52 + K ->
  exists (mo : positive) (eo u Q g : Z),
    fmul (S754_finite false p1 e1) (S754_finite false p2 e2)
    = S754_finite false mo eo
    /\ Zpos (digits2_pos mo) = 53
    /\ 0 <= u <= 1 /\ 2 ^ 52 <= Q < 2 ^ 53
    /\ e1 + e2 + 52 <= g <= e1 + e2 + 53 /\ g <= eo <= g + 1
    /\ Zpos mo * 2 ^ (eo + K) = (Q + u) * 2 ^ (g + K)
    /\ Q * 2 ^ (g + K) * 2 ^ K
       <= Zpos p1 * 2 ^ (e1 + K) * (Zpos p2 * 2 ^ (e2 + K))
    /\ (u = 1 -> Q * 2 ^ (g + K) * 2 ^ K
                 < Zpos p1 * 2 ^ (e1 + K) * (Zpos p2 * 2 ^ (e2 + K))).
Proof.
  intros Hd1 Hd2 He HK He1 He2 He12.
  destruct (fmul_spec p1 p2 e1 e2 Hd1 Hd2 He)
    as (mo & eo & u & Q & t & Hres & Hu & Ht & Heo & Hval & HQ & Hmo
        & [Hlo Hhi] & Hstrict).
  set (g := e1 + e2 + t) in *.
  exists mo, eo, u, Q, g.
  split; [ exact Hres | ]. split; [ exact Hmo | ]. split; [ exact Hu | ].
  split; [ exact HQ | ]. split; [ unfold g; lia | ].
  split; [ exact Heo | ].
  assert (Hgk : 0 <= g + K) by (unfold g; lia).
  set (c := e1 + e2 + 2 * K).
  assert (Hc : 0 <= c) by (unfold c; lia).
  pose proof (pow2_pos c Hc) as Pc.
  assert (Hl : 2 ^ (g + K) * 2 ^ K = 2 ^ t * 2 ^ c).
  { rewrite <- !pow2_split by lia. f_equal. unfold g, c. lia. }
  assert (Hr : 2 ^ (e1 + K) * 2 ^ (e2 + K) = 2 ^ c).
  { rewrite <- !pow2_split by lia. f_equal. unfold c. lia. }
  assert (Hlhs : Q * 2 ^ (g + K) * 2 ^ K = Q * 2 ^ t * 2 ^ c).
  { transitivity (Q * (2 ^ (g + K) * 2 ^ K)); [ ring | ].
    rewrite Hl. ring. }
  assert (Hrhs : Zpos p1 * 2 ^ (e1 + K) * (Zpos p2 * 2 ^ (e2 + K))
                 = Zpos p1 * Zpos p2 * 2 ^ c).
  { transitivity (Zpos p1 * Zpos p2 * (2 ^ (e1 + K) * 2 ^ (e2 + K)));
      [ ring | ].
    rewrite Hr. reflexivity. }
  split.
  { replace (eo + K) with ((eo - g) + (g + K)) by lia.
    rewrite pow2_split by lia. rewrite Z.mul_assoc, Hval. reflexivity. }
  rewrite Hlhs, Hrhs.
  split; [ apply Z.mul_le_mono_nonneg_r; lia | ].
  intros Hu1. apply Z.mul_lt_mono_pos_r; [ lia | exact (Hstrict Hu1) ].
Qed.

End Scaled.

(** ** The layout of a template *)

Section Layout.

(** The ratio of two positive [int]s below [2^51], on the scale
    [2^400]. *)
Lemma ratio_scaled (a b : Z) :
  0 < a < 2 ^ 51 -> 0 < b < 2 ^ 51 ->
  exists (mo : positive) (eo u Q g : Z),
    int_truediv a b = Ok (S754_finite false mo eo)
    /\ Zpos (digits2_pos mo) = 53
    /\ 0 <= u <= 1 /\ 2 ^ 52 <= Q < 2 ^ 53
    /\ -103 <= g <= -2 /\ g <= eo <= g + 1
    /\ Zpos mo * 2 ^ (eo + 400) = (Q + u) * 2 ^ (g + 400)
    /\ Q * 2 ^ (g + 400) * b <= a * 2 ^ 400
    /\ a * 2 ^ 400 < (Q + 1) * 2 ^ (g + 400) * b.
Proof.
  intros Ha Hb.
  destruct a as [ | pa | pa ]; try lia. destruct b as [ | pb | pb ]; try lia.
  assert (Hda : 1 <= Zpos (digits2_pos pa) <= 51).
  { split; [ lia | ].
    change (Zpos (digits2_pos pa)) with (Zdigits2 (Zpos pa)).
    apply Zdigits2_lt_pow2; lia. }
  assert (Hdb : 1 <= Zpos (digits2_pos pb) <= 51).
  { split; [ lia | ].
    change (Zpos (digits2_pos pb)) with (Zdigits2 (Zpos pb)).
    apply Zdigits2_lt_pow2; lia. }
  destruct (fdiv_scaled 400 pa pb 0 0)
    as (mo & eo & u & Q & g & Hres & Hmo & Hu & HQ & Hg & Heo & Hval
        & Hlo & Hhi & _); try lia.
  exists mo, eo, u, Q, g.
  assert (Hr : int_truediv (Zpos pa) (Zpos pb) = Ok (S754_finite false mo eo)).
  { unfold int_truediv, int_ratio. cbn [Z.ltb Z.compare Z.abs Z.to_pos].
    rewrite Hres. reflexivity. }
  rewrite Z.add_0_l in Hlo, Hhi.
  pose proof (pow2_pos 400 ltac:(lia)) as PK.
  split; [ exact Hr | ]. split; [ exact Hmo | ]. split; [ exact Hu | ].
  split; [ exact HQ | ]. split; [ lia | ]. split; [ exact Heo | ].
  split; [ exact Hval | ].
  split.
  - apply (Z.mul_le_mono_pos_r _ _ (2 ^ 400) PK). lia.
  - apply (Z.mul_lt_mono_pos_r (2 ^ 400) _ _ PK). lia.
Qed.

(** When the box is relatively wider than the foreground as doubles,
    the foreground's ratio times the box height does not exceed the box
    width. *)
Lemma core_ratio_below (Sr SA QA UA uA aw ah P : Z) :
  0 < ah -> 0 < UA -> 0 <= uA <= 1 ->
  QA * UA * ah <= aw * P ->
  SA = (QA + uA) * UA ->
  Sr < SA ->
  (QA * UA < Sr -> (QA + 1) * UA <= Sr) ->
  Sr * ah <= aw * P.
Proof.
  intros Hah HUA HuA Hfl HSA Hlt Hgrid.
  destruct (Z_le_gt_dec (Sr * ah) (aw * P)) as [ | Hgt]; [ assumption | ].
  exfalso.
  assert (H1 : QA * UA < Sr).
  { apply (Z.mul_lt_mono_pos_r ah); lia. }
  specialize (Hgrid H1).
  assert (SA <= (QA + 1) * UA) by (subst SA; nia).
  lia.
Qed.

Lemma core_product (Qp Up up Sr aw ah P : Z) :
  0 < P -> 0 < Up -> 0 <= up <= 1 ->
  Qp * Up * P <= ah * P * Sr ->
  (up = 1 -> Qp * Up * P < ah * P * Sr) ->
  Sr * ah <= aw * P ->
  (Qp * Up < aw * P -> (Qp + 1) * Up <= aw * P) ->
  (Qp + up) * Up <= aw * P.
Proof.
  intros HP HUp Hup Hfl Hstrict Hr Hgrid.
  assert (Hb : ah * P * Sr <= aw * P * P).
  { replace (ah * P * Sr) with (Sr * ah * P) by ring.
    apply Z.mul_le_mono_nonneg_r; lia. }
  destruct (Z.eq_dec up 1) as [-> | Hne].
  - apply Hgrid. apply (Z.mul_lt_mono_pos_r P); [ lia | ].
    specialize (Hstrict eq_refl). lia.
  - replace up with 0 by lia. rewrite Z.add_0_r.
    apply (Z.mul_le_mono_pos_r _ _ P HP). lia.
Qed.

Lemma core_quotient (Qq Uq Sr SA QA UA uA aw ah P : Z) :
  0 < P -> 0 < Sr -> 0 < UA -> 0 <= uA <= 1 -> 0 < ah ->
  2 ^ 52 <= QA -> 2 * ah <= 2 ^ 52 ->
  0 <= Qq * Uq ->
  aw * P < (QA + 1) * UA * ah ->
  SA = (QA + uA) * UA ->
  SA <= Sr ->
  Qq * Uq * Sr <= aw * P * P ->
  2 * (Qq * Uq) < (2 * ah + 1) * P.
Proof.
  intros HP HSr HUA HuA Hah HQA Hah2 Hq Hhi HSA Hle Hfl.
  set (X := Qq * Uq) in *.
  assert (HQApos : 0 < QA) by (assert (0 < 2 ^ 52) by reflexivity; lia).
  (* aw * P * QA < (QA + 1) * ah * Sr *)
  assert (H1 : UA * QA <= Sr) by (subst SA; nia).
  assert (H2 : aw * P * QA < (QA + 1) * ah * Sr).
  { assert (aw * P * QA < (QA + 1) * UA * ah * QA)
      by (apply Z.mul_lt_mono_pos_r; lia).
    assert ((QA + 1) * ah * (UA * QA) <= (QA + 1) * ah * Sr)
      by (apply Z.mul_le_mono_nonneg_l; nia).
    lia. }
  (* X * QA < (QA + 1) * ah * P *)
  assert (H3 : X * QA < (QA + 1) * ah * P).
  { apply (Z.mul_lt_mono_pos_r Sr); [ lia | ].
    assert (X * Sr * QA <= aw * P * P * QA)
      by (apply Z.mul_le_mono_nonneg_r; lia).
    assert (aw * P * QA * P < (QA + 1) * ah * Sr * P)
      by (apply Z.mul_lt_mono_pos_r; lia).
    lia. }
  apply (Z.mul_lt_mono_pos_r QA); [ lia | ].
  assert (2 * ah * P <= QA * P) by (apply Z.mul_le_mono_nonneg_r; lia).
  lia.
Qed.

(** The size of the resized foreground: it fits the box, and touches it
    in one direction. *)
Lemma fit_size (fw fh aw ah : Z) :
  0 < fw < 2 ^ 51 -> 0 < fh < 2 ^ 51 ->
  0 < aw < 2 ^ 51 -> 0 < ah < 2 ^ 51 ->
  exists fg_aspect box_aspect new_width new_height,
    int_truediv fw fh = Ok fg_aspect
    /\ int_truediv aw ah = Ok box_aspect
    /\ (if SFltb fg_aspect box_aspect
        then
          hf <~ of_int ah ;;
          new_width <~ py_int (fmul hf fg_aspect) ;;
          Ok (new_width, ah)
        else
          wf <~ of_int aw ;;
          q <~ float_truediv wf fg_aspect ;;
          new_height <~ py_int q ;;
          Ok (aw, new_height)) = Ok (new_width, new_height)
    /\ 0 <= new_width <= aw /\ 0 <= new_height <= ah
    /\ (new_width = aw \/ new_height = ah).
Proof.
  intros Hfw Hfh Haw Hah.
  destruct (ratio_scaled fw fh Hfw Hfh)
    as (mr & er & ur & Qr & gr & Hr & Hmr & Hur & HQr & Hgr & Her & Hvr
        & Hrlo & Hrhi).
  destruct (ratio_scaled aw ah Haw Hah)
    as (mA & eA & uA & QA & gA & HA & HmA & HuA & HQA & HgA & HeA & HvA
        & HAlo & HAhi).
  exists (S754_finite false mr er), (S754_finite false mA eA).
  pose proof (pow2_pos 400 ltac:(lia)) as PK.
  pose proof (pow2_pos (gA + 400) ltac:(lia)) as PUA.
  pose proof (pow2_pos (er + 400) ltac:(lia)) as PSr.
  pose proof (mantissa_bounds mr Hmr) as Bmr.
  assert (H251 : 2 ^ 53 = 4 * 2 ^ 51) by reflexivity.
  assert (H252 : 2 ^ 52 = 2 * 2 ^ 51) by reflexivity.
  destruct (SFltb (S754_finite false mr er) (S754_finite false mA eA)) eqn:Hcmp.
  - (* constrained by height *)
    apply (SFltb_scaled 400) in Hcmp; try assumption; try lia.
    assert (Hbelow : Zpos mr * 2 ^ (er + 400) * ah <= aw * 2 ^ 400).
    { apply (core_ratio_below _ (Zpos mA * 2 ^ (eA + 400)) QA
               (2 ^ (gA + 400)) uA); try assumption; try lia.
      intros Hlt. apply grid_step; try lia. }
    destruct (lit_scaled 400 ah ltac:(lia) ltac:(lia))
      as (ma & ea & Hlit & Hma & Hea & Hva).
    destruct (fmul_scaled 400 ma mr ea er Hma Hmr)
      as (mo & eo & up & Qp & gp & Hres & Hmo & Hup & HQp & Hgp & Heo & Hvo
          & Hplo & Hpstrict); try lia.
    exists (trunc (S754_finite false mo eo)), ah.
    pose proof (pow2_pos (gp + 400) ltac:(lia)) as PUp.
    assert (Hfl : Qp * 2 ^ (gp + 400) * 2 ^ 400
                  <= ah * 2 ^ 400 * (Zpos mr * 2 ^ (er + 400)))
      by (rewrite Hva in Hplo; exact Hplo).
    assert (Hst : up = 1 ->
                  Qp * 2 ^ (gp + 400) * 2 ^ 400
                  < ah * 2 ^ 400 * (Zpos mr * 2 ^ (er + 400)))
      by (intros Hu1; specialize (Hpstrict Hu1); rewrite Hva in Hpstrict;
          exact Hpstrict).
    assert (Hgrid : Qp * 2 ^ (gp + 400) < aw * 2 ^ 400 ->
                    (Qp + 1) * 2 ^ (gp + 400) <= aw * 2 ^ 400).
    { pose proof (grid_step 400 Qp gp aw 0 ltac:(lia) ltac:(lia)
                    ltac:(lia) ltac:(lia)) as Hg.
      rewrite Z.add_0_l in Hg. exact Hg. }
    assert (Hfit : Zpos mo * 2 ^ (eo + 400) <= aw * 2 ^ 400).
    { rewrite Hvo.
      exact (core_product Qp (2 ^ (gp + 400)) up
               (Zpos mr * 2 ^ (er + 400)) aw ah (2 ^ 400)
               PK PUp Hup Hfl Hst Hbelow Hgrid). }
    pose proof (trunc_scaled 400 mo eo aw ltac:(lia) ltac:(lia) ltac:(lia)
                  ltac:(lia)) as Htr.
    split; [ exact Hr | ]. split; [ exact HA | ].
    split.
    { unfold of_int. rewrite Hlit. cbn [is_finite rbind].
      rewrite Hres. reflexivity. }
    split; [ exact Htr | ]. split; [ lia | now right ].
  - (* constrained by width *)
    assert (Hge : Zpos mA * 2 ^ (eA + 400) <= Zpos mr * 2 ^ (er + 400)).
    { destruct (Z_le_gt_dec (Zpos mA * 2 ^ (eA + 400))
                            (Zpos mr * 2 ^ (er + 400))) as [ | Hgt];
        [ assumption | exfalso ].
      assert (Hc : SFltb (S754_finite false mr er) (S754_finite false mA eA)
                   = true)
        by (apply (SFltb_scaled 400); try assumption; lia).
      congruence. }
    destruct (lit_scaled 400 aw ltac:(lia) ltac:(lia))
      as (mw & ew & Hlit & Hmw & Hew & Hvw).
    destruct (fdiv_scaled 400 mw mr ew er)
      as (mo & eo & uq & Qq & gq & Hres & Hmo & Huq & HQq & Hgq & Heo & Hvo
          & Hqlo & _ & _); try lia.
    exists aw, (trunc (S754_finite false mo eo)).
    rewrite Hmw, Hmr in Hgq.
    pose proof (pow2_pos (gq + 400) ltac:(lia)) as PUq.
    assert (Hfl : Qq * 2 ^ (gq + 400) * (Zpos mr * 2 ^ (er + 400))
                  <= aw * 2 ^ 400 * 2 ^ 400)
      by (rewrite Hvw in Hqlo; exact Hqlo).
    assert (Hhalf : 2 * (Qq * 2 ^ (gq + 400)) < (2 * ah + 1) * 2 ^ 400).
    { apply (core_quotient Qq (2 ^ (gq + 400)) (Zpos mr * 2 ^ (er + 400))
               (Zpos mA * 2 ^ (eA + 400)) QA (2 ^ (gA + 400)) uA aw ah);
        try assumption; try lia; nia. }
    assert (HK2 : 2 ^ 400 = 2 * 2 ^ (-1 + 400)) by reflexivity.
    assert (Hstep : (Qq + 1) * 2 ^ (gq + 400)
                    <= (2 * ah + 1) * 2 ^ (-1 + 400)).
    { apply grid_step; try lia. }
    assert (Hfit : 2 * (Zpos mo * 2 ^ (eo + 400))
                   <= (2 * ah + 1) * 2 ^ 400).
    { rewrite Hvo.
      assert ((Qq + uq) * 2 ^ (gq + 400) <= (Qq + 1) * 2 ^ (gq + 400))
        by (apply Z.mul_le_mono_nonneg_r; lia).
      lia. }
    pose proof (trunc_scaled 400 mo eo ah ltac:(lia) ltac:(lia) ltac:(lia)
                  Hfit) as Htr.
    split; [ exact Hr | ]. split; [ exact HA | ].
    split.
    { unfold of_int. rewrite Hlit. cbn [is_finite rbind float_truediv].
      rewrite Hres. reflexivity. }
    split; [ lia | ]. split; [ exact Htr | now left ].
Qed.

End Layout.

Section TemplateTheorems.

Variable E : env.
Variable R : raster.

(** The sizes [_get_social_media_dimensions] can return. *)
Lemma social_media_dimensions_cases (template_name : string) :
  In (_get_social_media_dimensions template_name)
     [ (1080, 1080); (1080, 1920); (1200, 630); (1600, 900); (1200, 627);
       (1280, 720) ].
Proof.
  unfold _get_social_media_dimensions, templates. cbn [dict_get].
  repeat match goal with
         | |- context [String.eqb ?a ?b] => destruct (String.eqb a b)
         end; cbn; tauto.
Qed.

(** The layout for a box of positive size. *)
Lemma template_layout_fits (width height fg_width fg_height
                            padding_percent : Z) :
  let padding_px := Z.min width height * padding_percent / 100 in
  0 < fg_width < 2 ^ 51 -> 0 < fg_height < 2 ^ 51 ->
  0 < width - 2 * padding_px < 2 ^ 51 ->
  0 < height - 2 * padding_px < 2 ^ 51 ->
  exists new_width new_height,
    template_layout width height fg_width fg_height padding_percent
    = Ok ((new_width, new_height),
          ((width - new_width) / 2, (height - new_height) / 2))
    /\ 0 <= new_width <= width - 2 * padding_px
    /\ 0 <= new_height <= height - 2 * padding_px
    /\ (new_width = width - 2 * padding_px
        \/ new_height = height - 2 * padding_px).
Proof.
  intros padding_px Hfw Hfh Haw Hah.
  destruct (fit_size fg_width fg_height _ _ Hfw Hfh Haw Hah)
    as (fg_aspect & box_aspect & nw & nh & Hr & HA & Hsize & Hnw & Hnh & Heq).
  exists nw, nh. split; [ | tauto ].
  unfold template_layout. rewrite Hr. cbn [rbind].
  fold padding_px. rewrite HA. cbn [rbind].
  rewrite Hsize. reflexivity.
Qed.

(** [create_template] never lets the foreground into the padding.  For
    a foreground that loads with sides below [2^51] and a padding of 0
    to 49 percent, the double arithmetic of the layout gives a size
    that fits the box left by the padding and fills it in one
    direction, the corner keeps the padding on every side, and these
    are the size the foreground is resized to and the corner it is
    pasted at. *)
Theorem create_template_fits
        (foreground_path background_color template_name : string)
        (padding_percent width height : Z) (fg : image) (w : world) :
  (if PyStr.startswith "http" foreground_path
   then _get_image_from_url R foreground_path
   else image_open E foreground_path) = Ok fg ->
  0 < im_width fg < 2 ^ 51 -> 0 < im_height fg < 2 ^ 51 ->
  0 <= padding_percent <= 49 ->
  _get_social_media_dimensions template_name = (width, height) ->
  let padding_px := Z.min width height * padding_percent / 100 in
  exists new_width new_height,
    let pos_x := (width - new_width) / 2 in
    let pos_y := (height - new_height) / 2 in
    template_layout width height (im_width fg) (im_height fg) padding_percent
    = Ok ((new_width, new_height), (pos_x, pos_y))
    /\ 0 <= new_width <= width - 2 * padding_px
    /\ 0 <= new_height <= height - 2 * padding_px
    /\ (new_width = width - 2 * padding_px
        \/ new_height = height - 2 * padding_px)
    /\ padding_px <= pos_x /\ pos_x + new_width <= width - padding_px
    /\ padding_px <= pos_y /\ pos_y + new_height <= height - padding_px
    /\ create_template E R foreground_path background_color template_name
         padding_percent w
       = (background <- lift (image_new R (width, height) background_color) ;;
          foreground_resized <-
            lift (image_resize R fg (new_width, new_height)) ;;
          background <-
            lift (image_paste R background foreground_resized (pos_x, pos_y)) ;;
          let template_path :=
            ("uploads/processed/template_" ++ template_name ++ "_"
               ++ PyStr.of_Z (time_now E) ++ ".png")%string in
          save E template_path background ;;;
          cloud_url <- upload E template_path ;;
          ret cloud_url) w.
Proof.
  intros Hload Hfw Hfh Hpp Hdims padding_px.
  pose proof (social_media_dimensions_cases template_name) as Hcases.
  rewrite Hdims in Hcases.
  assert (Hbox : 0 < width - 2 * padding_px < 2 ^ 51
                 /\ 0 < height - 2 * padding_px < 2 ^ 51).
  { unfold padding_px. cbn [In] in Hcases.
    assert (H51 : 2 ^ 51 = 2251799813685248) by reflexivity.
    rewrite H51.
    destruct Hcases as [H | [H | [H | [H | [H | [H | []]]]]]];
      injection H as <- <-; cbn [Z.min Z.compare];
      repeat match goal with
             | |- context [Z.min ?a ?b] =>
                 let v := eval cbv in (Z.min a b) in
                 change (Z.min a b) with v
             end; Z.to_euclidean_division_equations; lia. }
  destruct Hbox as [Haw Hah].
  destruct (template_layout_fits width height (im_width fg) (im_height fg)
              padding_percent Hfw Hfh Haw Hah)
    as (nw & nh & Hlayout & Hnw & Hnh & Heq).
  fold padding_px in Hnw, Hnh, Heq.
  exists nw, nh. cbv zeta.
  split; [ exact Hlayout | ]. split; [ exact Hnw | ].
  split; [ exact Hnh | ]. split; [ exact Heq | ].
  split; [ Z.to_euclidean_division_equations; lia | ].
  split; [ Z.to_euclidean_division_equations; lia | ].
  split; [ Z.to_euclidean_division_equations; lia | ].
  split; [ Z.to_euclidean_division_equations; lia | ].
  unfold create_template. rewrite Hload, Hdims.
  unfold bind at 1. unfold lift at 1.
  unfold bind at 1 3. unfold lift at 1 3.
  destruct (image_new R (width, height) background_color) as [bg | e];
    [ | reflexivity ].
  unfold bind at 1. unfold lift at 1. rewrite Hlayout. reflexivity.
Qed.

(** [create_template] has no handler: a padding that leaves no height
    makes the ratio of the box divide by zero, and the
    [ZeroDivisionError] reaches the caller as it is, after the
    background was created and before anything is saved. *)
Theorem create_template_no_room
        (foreground_path background_color template_name : string)
        (padding_percent width height : Z) (fg bg : image) (w : world) :
  (if PyStr.startswith "http" foreground_path
   then _get_image_from_url R foreground_path
   else image_open E foreground_path) = Ok fg ->
  Z.abs (im_width fg) < 2 ^ 1021 ->
  _get_social_media_dimensions template_name = (width, height) ->
  image_new R (width, height) background_color = Ok bg ->
  height - 2 * (Z.min width height * padding_percent / 100) = 0 ->
  create_template E R foreground_path background_color template_name
    padding_percent w
  = (Raise (mkExn ZeroDivisionError "division by zero"), w).
Proof.
  intros Hload Hfw Hdims Hnew Hroom.
  unfold create_template. rewrite Hload, Hdims.
  unfold bind at 1. unfold lift at 1.
  unfold bind at 1. unfold lift at 1. rewrite Hnew.
  unfold bind at 1. unfold lift at 1.
  unfold template_layout.
  destruct (Z.eq_dec (im_height fg) 0) as [Hz | Hnz].
  - rewrite Hz. reflexivity.
  - destruct (int_truediv_bounded (im_width fg) (im_height fg) 1021
                Hfw ltac:(lia) Hnz) as (q & Hq & _).
    rewrite Hq. cbn [rbind]. rewrite Hroom.
    unfold int_truediv at 1. reflexivity.
Qed.


End TemplateTheorems.

Lemma create_template_fits_witness :
  image_open demo_env "photo.png" = Ok (mkImage 800 600 [])
  /\ _get_social_media_dimensions "instagram_post" = (1080, 1080)
  /\ template_layout 1080 1080 800 600 10 = Ok ((864, 648), (108, 216))
  /\ create_template demo_env demo_raster "photo.png" "#000000"
       "instagram_post" 10 empty_world
     = (Ok "https://cdn.example/uploads/processed/template_instagram_post_1700000000.png",
        mkWorld
          [ ("uploads/processed/template_instagram_post_1700000000.png",
             mkImage 1080 1080 []) ]
          [ ("uploads/processed/template_instagram_post_1700000000.png",
             "https://cdn.example/uploads/processed/template_instagram_post_1700000000.png") ]).
Proof.
  assert (Hload : (if PyStr.startswith "http" "photo.png"
                   then _get_image_from_url demo_raster "photo.png"
                   else image_open demo_env "photo.png")
                  = Ok (mkImage 800 600 [])) by reflexivity.
  assert (Hdims : _get_social_media_dimensions "instagram_post" = (1080, 1080))
    by reflexivity.
  destruct (create_template_fits demo_env demo_raster "photo.png" "#000000"
              "instagram_post" 10 1080 1080 (mkImage 800 600 []) empty_world
              Hload ltac:(cbn; lia) ltac:(cbn; lia) ltac:(lia) Hdims)
    as (nw & nh & Hlayout & _ & _ & _ & _ & _ & _ & _ & Hrun).
  assert (Hv : template_layout 1080 1080 800 600 10
               = Ok ((864, 648), (108, 216))) by (vm_compute; reflexivity).
  refine (conj eq_refl (conj Hdims (conj Hv _))).
  cbn [im_width im_height] in Hlayout. rewrite Hv in Hlayout.
  injection Hlayout as Hnw Hnh _ _. subst nw nh.
  rewrite Hrun. vm_compute. reflexivity.
Defined.

Lemma create_template_no_room_witness :
  1080 - 2 * (Z.min 1080 1080 * 50 / 100) = 0
  /\ create_template demo_env demo_raster "photo.png" "#000000"
       "instagram_post" 50 empty_world
     = (Raise (mkExn ZeroDivisionError "division by zero"), empty_world).
Proof.
  assert (Hroom : 1080 - 2 * (Z.min 1080 1080 * 50 / 100) = 0) by reflexivity.
  refine (conj Hroom _).
  apply (create_template_no_room demo_env demo_raster "photo.png" "#000000"
           "instagram_post" 50 1080 1080 (mkImage 800 600 [])
           (mkImage 1080 1080 []) empty_world);
    [ reflexivity | cbn; lia | reflexivity | reflexivity | exact Hroom ].
Defined.


(** * Suggestions on an opaque background *)

Section OpaqueBackground.

Lemma slice_range_nonempty (z t n : Z) :
  0 < t -> 10 < n ->
  let p := Z.max 10 (Z.min (n - t - 10) z) in
  slice_range p (Z.min (p + t) n) n <> [].
Proof.
  intros Ht Hn p. unfold slice_range, slice_index.
  assert (Hp : 10 <= p) by (unfold p; lia).
  assert (Hcase : p = 10 \/ p + t <= n - 10) by (unfold p; lia).
  replace (p <? 0) with false by (symmetry; apply Z.ltb_ge; lia).
  replace (Z.min (p + t) n <? 0) with false
    by (symmetry; apply Z.ltb_ge; lia).
  intros Hnil. apply (f_equal (@List.length Z)) in Hnil.
  rewrite length_range in Hnil. cbn [List.length] in Hnil. lia.
Qed.

Lemma region_values_alpha (a : pixels) (ys xs : list Z) :
  ys <> [] -> xs <> [] ->
  region_values a ys xs [3] <> []
  /\ forall v, In v (region_values a ys xs [3]) ->
               exists y x, v = px_at a y x 3.
Proof.
  intros Hys Hxs. split.
  - destruct ys as [ | y ys]; [ congruence | ].
    destruct xs as [ | x xs]; [ congruence | ].
    unfold region_values. cbn. discriminate.
  - intros v Hv. unfold region_values in Hv.
    apply in_flat_map in Hv as (y & _ & Hv).
    apply in_flat_map in Hv as (x & _ & Hv).
    cbn in Hv. destruct Hv as [<- | []]. now exists y, x.
Qed.

Lemma grid_loop_none (np_mean : list Z -> float) (a : pixels)
      (ts : Z * Z) (cells : list (Z * Z)) (acc : list suggestion) :
  (forall y_idx x_idx, In (y_idx, x_idx) cells ->
     grid_candidate np_mean a ts true y_idx x_idx = Ok None) ->
  grid_loop np_mean a ts true cells acc = Ok acc.
Proof.
  revert acc. induction cells as [ | [y x] cells IH]; intros acc Hall;
    [ reflexivity | ].
  cbn [grid_loop]. rewrite (Hall y x) by now left. cbn [rbind].
  apply IH. intros y' x' Hin. apply Hall. now right.
Qed.

Variable E : env.
Variable R : raster.
Variable np_array : image -> pixels.
Variable np_mean : list Z -> float.

(** The mean of values between 128 and 255 is not below 128. *)
Hypothesis mean_of_opaque :
  forall vs, vs <> [] -> (forall v, In v vs -> 128 <= v <= 255) ->
             SFltb (np_mean vs) (lit 128) = false.

Lemma opaque_cell (a : pixels) (tw th y_idx x_idx : Z) :
  px_bands a = 4 ->
  10 < px_width a < 2 ^ 900 -> 10 < px_height a < 2 ^ 900 ->
  0 < tw < 2 ^ 900 -> 0 < th < 2 ^ 900 ->
  (forall y x, 128 <= px_at a y x 3 <= 255) ->
  In y_idx [0; 1; 2] -> In x_idx [0; 1; 2] ->
  grid_candidate np_mean a (tw, th) true y_idx x_idx = Ok None.
Proof.
  intros Hb Hw Hh Htw Hth Hopaque Hy Hx.
  destruct (grid_coordinate_ok (px_width a) tw x_idx
              ltac:(lia) ltac:(lia) Hx) as [x0 Hx0].
  destruct (grid_coordinate_ok (px_height a) th y_idx
              ltac:(lia) ltac:(lia) Hy) as [y0 Hy0].
  unfold grid_candidate. cbn [fst snd]. rewrite Hx0, Hy0. cbn [rbind].
  pose proof (slice_range_nonempty x0 tw (px_width a) ltac:(lia) ltac:(lia))
    as Hxs.
  pose proof (slice_range_nonempty y0 th (px_height a) ltac:(lia) ltac:(lia))
    as Hys.
  cbv zeta in Hxs, Hys.
  set (xs := slice_range _ _ (px_width a)) in *.
  set (ys := slice_range _ _ (px_height a)) in *.
  assert (Hsize : (0 <? Z.of_nat (List.length ys) * Z.of_nat (List.length xs)
                        * px_bands a) = true).
  { apply Z.ltb_lt. rewrite Hb.
    destruct ys; [ congruence | ]. destruct xs; [ congruence | ].
    cbn [List.length]. nia. }
  rewrite Hsize.
  destruct (region_values_alpha a ys xs Hys Hxs) as [Hne Hval].
  unfold num_lt. cbn [num_float].
  rewrite mean_of_opaque; [ reflexivity | exact Hne | ].
  intros v Hv. destruct (Hval v Hv) as (y & x & ->). apply Hopaque.
Qed.

(** An opaque background gets no suggestion.  The entry point decodes
    every background as RGBA, so the array has four bands and only the
    transparency of a region counts; where every pixel is at least half
    opaque no region is kept, whatever the image shows, and the answer
    is the empty list. *)
Theorem opaque_background_no_suggestions
        (background_path text font_name : string) (font_size : Z)
        (background : image) (fnt : font) :
  (if PyStr.startswith "http" background_path
   then _get_image_from_url R background_path
   else image_open E background_path) = Ok background ->
  get_font E font_name font_size = Ok fnt ->
  px_bands (np_array background) = 4 ->
  10 < px_width (np_array background) < 2 ^ 900 ->
  10 < px_height (np_array background) < 2 ^ 900 ->
  (forall y x, 128 <= px_at (np_array background) y x 3 <= 255) ->
  0 < fst (text_size E text fnt) < 2 ^ 900 ->
  0 < snd (text_size E text fnt) < 2 ^ 900 ->
  suggest_text_positions E R np_array np_mean background_path text
                         font_size font_name = Ok [].
Proof.
  intros Hload Hfont Hb Hw Hh Hopaque Htw Hth.
  unfold suggest_text_positions. rewrite Hload. cbn [rbind].
  rewrite Hfont. cbn [rbind].
  unfold text_size in Htw, Hth.
  destruct (textbbox E text fnt) as [[[x0 y0] x1] y1].
  cbn [fst snd] in Htw, Hth.
  unfold _suggest_text_positions. rewrite Hb. cbn [Z.leb Z.compare Z.eqb].
  rewrite grid_loop_none; [ reflexivity | ].
  intros y_idx x_idx Hin.
  apply in_prod_iff in Hin as [Hy Hx].
  apply opaque_cell; try assumption.
Qed.

End OpaqueBackground.

Lemma lit_128 : lit 128 = S754_finite false 4503599627370496 (-45).
Proof. reflexivity. Qed.

Lemma sum_between (vs : list Z) :
  (forall v, In v vs -> 128 <= v <= 255) ->
  128 * Z.of_nat (List.length vs) <= fold_right Z.add 0 vs
  <= 255 * Z.of_nat (List.length vs).
Proof.
  induction vs as [ | v vs IH]; intros Hall; [ cbn; lia | ].
  pose proof (Hall v ltac:(now left)) as Hv.
  assert (Hrest : forall v', In v' vs -> 128 <= v' <= 255)
    by (intros v' Hin; apply Hall; now right).
  specialize (IH Hrest).
  cbn [fold_right List.length]. lia.
Qed.

(** The rounded quotient of a sum of values from 128 up by their count
    is not below 128. *)
Lemma demo_mean_opaque (vs : list Z) :
  vs <> [] -> (forall v, In v vs -> 128 <= v <= 255) ->
  SFltb (demo_mean vs) (lit 128) = false.
Proof.
  intros Hne Hall. pose proof (sum_between vs Hall) as Hsum.
  set (s := fold_right Z.add 0 vs) in *.
  set (n := Z.of_nat (List.length vs)) in *.
  assert (Hn : 0 < n) by (destruct vs; [ congruence | unfold n; cbn; lia ]).
  unfold demo_mean. fold s n.
  destruct s as [ | ps | ps ]; try lia. destruct n as [ | pn | pn ]; try lia.
  assert (Hdn : 1 <= Zpos (digits2_pos pn)) by lia.
  assert (Hd : Zpos (digits2_pos pn) <= Zpos (digits2_pos ps)
               <= Zpos (digits2_pos pn) + 8).
  { change (Zpos (digits2_pos pn)) with (Zdigits2 (Zpos pn)).
    change (Zpos (digits2_pos ps)) with (Zdigits2 (Zpos ps)).
    split; [ apply Zdigits2_le; lia | ].
    apply Zdigits2_lt_pow2; [ | pose proof (Zdigits2_nonneg (Zpos pn)); lia ].
    pose proof (Zdigits2_bounds (Zpos pn) ltac:(lia)) as [_ Hu].
    rewrite Z.pow_add_r by (pose proof (Zdigits2_nonneg (Zpos pn)); lia).
    change (2 ^ 8) with 256. lia. }
  destruct (fdiv_scaled 400 ps pn 0 0)
    as (mo & eo & u & Q & g & Hres & Hmo & Hu & HQ & Hg & Heo & Hval
        & _ & Hhi & _); try lia.
  assert (Hq : int_truediv (Zpos ps) (Zpos pn) = Ok (S754_finite false mo eo)).
  { unfold int_truediv, int_ratio. cbn [Z.ltb Z.compare Z.abs Z.to_pos].
    rewrite Hres. reflexivity. }
  rewrite Hq, lit_128.
  destruct (SFltb (S754_finite false mo eo)
                  (S754_finite false 4503599627370496 (-45))) eqn:Hlt;
    [ exfalso | reflexivity ].
  apply (SFltb_scaled 400) in Hlt; try assumption; try reflexivity; try lia.
  rewrite Hval in Hlt.
  pose proof (pow2_pos (g + 400) ltac:(lia)) as PU.
  pose proof (pow2_pos 400 ltac:(lia)) as PK.
  assert (Hstep : (Q + 1) * 2 ^ (g + 400)
                  <= Zpos 4503599627370496 * 2 ^ (-45 + 400)).
  { assert (Q * 2 ^ (g + 400) <= (Q + u) * 2 ^ (g + 400))
      by (apply Z.mul_le_mono_nonneg_r; lia).
    apply grid_step; lia. }
  assert (H128 : Zpos 4503599627370496 * 2 ^ (-45 + 400) = 128 * 2 ^ 400)
    by reflexivity.
  rewrite H128 in Hstep. rewrite Z.add_0_l in Hhi.
  assert (Hb : (Q + 1) * 2 ^ (g + 400) * (Zpos pn * 2 ^ 400)
               <= 128 * 2 ^ 400 * (Zpos pn * 2 ^ 400))
    by (apply Z.mul_le_mono_nonneg_r; lia).
  assert (Hc : Zpos ps * (2 ^ 400 * 2 ^ 400)
               < 128 * Zpos pn * (2 ^ 400 * 2 ^ 400)) by lia.
  apply Z.mul_lt_mono_pos_r in Hc; lia.
Qed.

Lemma opaque_background_no_suggestions_witness :
  image_open demo_env "photo.png" = Ok (mkImage 800 600 [])
  /\ get_font demo_env "anton" 120
     = Ok (TrueType "assets/fonts/Anton-Regular.ttf" 120)
  /\ text_size demo_env "Hi" (TrueType "assets/fonts/Anton-Regular.ttf" 120)
     = (40, 20)
  /\ suggest_text_positions demo_env demo_raster demo_array demo_mean
       "photo.png" "Hi" 120 "anton" = Ok [].
Proof.
  assert (Hfont : get_font demo_env "anton" 120
                  = Ok (TrueType "assets/fonts/Anton-Regular.ttf" 120))
    by reflexivity.
  refine (conj eq_refl (conj Hfont (conj eq_refl _))).
  apply (opaque_background_no_suggestions demo_env demo_raster demo_array
           demo_mean demo_mean_opaque "photo.png" "Hi" "anton" 120
           (mkImage 800 600 [])
           (TrueType "assets/fonts/Anton-Regular.ttf" 120));
    try reflexivity; cbn; lia.
Defined.
